(** * odin.fuel.utils: the persistent key-value stores

    A shallow embedding of [NoSQL], [MmapDict], [TableDict] and [SQLiteDict]
    from [odin/fuel/utils.py].

    Conventions.
    - A Python method is a computation in a state-and-exception monad over
      the attributes of the object it mutates.  An exception leaves the state
      as it was when it was raised, as in Python.
    - A Python 2 [str] is a byte string: [bytes] is [list ascii].
    - [marshal] and [cPickle] are external: they are the operations of the
      class [Codec].  What a theorem needs of them is a hypothesis of that
      theorem.
    - SQLite is external: a database is a finite map from table names to
      rows in rowid order, and a statement is its relational meaning.  Keys
      are spliced into the SQL text between double quotes by the source; the
      model reads such a literal as the key itself, which is what SQLite does
      for a key that holds no double quote and is not a column name.
    - [_increased_indices_size] is a float counting megabytes in the source.
      Each increment is a whole number of bytes scaled by 2^-20, so the sum is
      exact below 2^53 bytes; the model counts bytes. *)

From Stdlib Require Import ZArith List String Ascii Lia.
From stdpp Require Import gmap strings list fin_maps.

Local Open Scope nat_scope.

(** ** Python values shared by the stores *)

Definition bytes := list ascii.

Inductive exn :=
| KeyError
| AttributeError
| ValueError
| TypeError
| RuntimeError
| PyException
| UnpicklingError
| IntegrityError
| OperationalError
| ProgrammingError.

Inductive res (A : Type) :=
| Ok (a : A)
| Raise (e : exn).
Arguments Ok {A} a.
Arguments Raise {A} e.

(** State and exceptions: the state survives a raise. *)
Definition M (S A : Type) := S -> res A * S.

Definition ret {S A} (a : A) : M S A := fun s => (Ok a, s).

Definition raise {S A} (e : exn) : M S A := fun s => (Raise e, s).

Definition bind {S A B} (m : M S A) (f : A -> M S B) : M S B :=
  fun s => match m s with
           | (Ok a, s') => f a s'
           | (Raise e, s') => (Raise e, s')
           end.

Definition get_state {S} : M S S := fun s => (Ok s, s).

Definition modify {S} (f : S -> S) : M S unit := fun s => (Ok tt, f s).

Notation "x <- c1 ;; c2" := (bind c1 (fun x => c2))
  (at level 100, c1 at next level, right associativity).
Notation "c1 ;; c2" := (bind c1 (fun _ => c2))
  (at level 100, right associativity).

(** Keys as callers pass them: a [str] or an [int].  A dict compares keys
    by value and type, so [KInt 5] and [KStr "5"] are different keys. *)
Inductive pykey :=
| KStr (s : string)
| KInt (z : Z).

#[global] Instance pykey_eq_dec : EqDecision pykey.
Proof. solve_decision. Defined.

Definition pykey_to_sum (k : pykey) : string + Z :=
  match k with KStr s => inl s | KInt z => inr z end.

Definition pykey_of_sum (x : string + Z) : pykey :=
  match x with inl s => KStr s | inr z => KInt z end.

#[global] Instance pykey_countable : Countable pykey.
Proof.
  refine (inj_countable' pykey_to_sum pykey_of_sum _).
  intros []; reflexivity.
Defined.

Definition is_str (k : pykey) : bool :=
  match k with KStr _ => true | KInt _ => false end.

(** *** Decimal text: ['%d' % n] and [int(text)] *)

Definition digit (d : nat) : ascii := ascii_of_nat (48 + d).

Fixpoint dec_fuel (fuel n : nat) (acc : bytes) : bytes :=
  match fuel with
  | 0 => acc
  | S f =>
      let acc' := digit (n mod 10) :: acc in
      if n <? 10 then acc' else dec_fuel f (n / 10) acc'
  end.

Definition dec (n : nat) : bytes := dec_fuel (S n) n [].

Definition space : ascii := " "%char.

(** ['%{w}d' % n]: right-justified, never truncated. *)
Definition fmt_d (w n : nat) : bytes :=
  replicate (w - length (dec n)) space ++ dec n.

Definition digit_val (c : ascii) : option nat :=
  let n := nat_of_ascii c in
  if (48 <=? n) && (n <=? 57) then Some (n - 48) else None.

Fixpoint digits_val (acc : nat) (l : bytes) : option nat :=
  match l with
  | [] => Some acc
  | c :: l' =>
      match digit_val c with
      | Some d => digits_val (10 * acc + d) l'
      | None => None
      end
  end.

Fixpoint lstrip (l : bytes) : bytes :=
  match l with
  | c :: l' => if Ascii.eqb c space then lstrip l' else l
  | [] => []
  end.

(** [int(text)] on the texts the stores write: blanks, then digits.  Any
    other text is a [ValueError] here. *)
Definition py_int (l : bytes) : option nat :=
  match lstrip l with
  | [] => None
  | d => digits_val 0 d
  end.

(** [str(key)] *)
Definition str (k : pykey) : string :=
  match k with
  | KStr s => s
  | KInt z =>
      if (z <? 0)%Z
      then String "-"%char (string_of_list_ascii (dec (Z.abs_nat z)))
      else string_of_list_ascii (dec (Z.to_nat z))
  end.

(** [len(key)]: a [TypeError] on an [int]. *)
Definition py_len (k : pykey) : option nat :=
  match k with
  | KStr s => Some (String.length s)
  | KInt _ => None
  end.

(** *** File objects and byte ranges *)

Definition zero_byte : ascii := Ascii.zero.

(** The first [p] bytes of a file, a hole past its end reading as zeros. *)
Definition prefix_to (p : nat) (c : bytes) : bytes :=
  take p c ++ replicate (p - length c) zero_byte.

Definition write_at (p : nat) (d c : bytes) : bytes :=
  prefix_to p c ++ d ++ drop (p + length d) c.

Definition read_at (p n : nat) (c : bytes) : bytes :=
  take n (drop p c).

Record pyfile := { content : bytes; position : nat }.

Definition file_seek (p : nat) (f : pyfile) : pyfile :=
  {| content := content f; position := p |}.

Definition file_read (n : nat) (f : pyfile) : bytes * pyfile :=
  let d := read_at (position f) n (content f) in
  (d, {| content := content f; position := position f + length d |}).

Definition file_write (d : bytes) (f : pyfile) : pyfile :=
  {| content := write_at (position f) d (content f);
     position := position f + length d |}.

(** *** The codecs *)

Definition index := gmap pykey (nat * nat).

(** [marshal.dumps]/[marshal.loads] on the values marshal accepts,
    [cPickle.dumps]/[cPickle.loads] on the index, and [ndarray.tolist]. *)
Class Codec := {
  value : Type;
  marshal_dumps : value -> bytes;
  marshal_loads : bytes -> option value;
  pickle_dumps : gmap pykey (nat * nat) -> bytes;
  pickle_loads : bytes -> option (gmap pykey (nat * nat));
  ndarray : Type;
  tolist : ndarray -> value
}.

(** A value is supported when it survives marshal. *)
Definition supported `{Codec} (v : value) : Prop :=
  marshal_loads (marshal_dumps v) = Some v.

(** ** NoSQL: the attributes every store has (utils.py, lines 22-196) *)

Record NoSQL := {
  cache_size : Z;
  read_only : bool;
  new_args_called : bool;
  path : string;
  is_closed : bool
}.

Definition close_base (b : NoSQL) : NoSQL :=
  {| cache_size := cache_size b; read_only := read_only b;
     new_args_called := new_args_called b; path := path b;
     is_closed := true |}.

Definition with_new_args_called (f : bool) (b : NoSQL) : NoSQL :=
  {| cache_size := cache_size b; read_only := read_only b;
     new_args_called := f; path := path b; is_closed := is_closed b |}.

(** [__getnewargs__] (lines 92-94), which pickle calls first under
    protocol 2 and never under the older protocols. *)
Definition __getnewargs__ : M NoSQL string :=
  modify (with_new_args_called true) ;;
  b <- get_state ;;
  ret (path b).

(** [__getstate__] (lines 73-79) *)
Definition __getstate__ : M NoSQL (string * bool * Z) :=
  b <- get_state ;;
  if negb (new_args_called b) then raise RuntimeError
  else
    modify (with_new_args_called false) ;;
    b <- get_state ;;
    ret (path b, read_only b, cache_size b).

(** ** MmapDict (utils.py, lines 202-395) *)

Module Mmap.
Section Defs.
Context `{Codec}.

Definition HEADER : bytes := list_ascii_of_string "mmapdict".
Definition SIZE_BYTES : nat := 48.
(** [MAX_INDICES_SIZE], 25 megabytes, in bytes. *)
Definition MAX_INDICES_SIZE : N := 25 * 1024 * 1024.

(** A number fits a header field when its text has at most 48 characters. *)
Definition fits (n : nat) : Prop := length (dec n) <= SIZE_BYTES.

(** Modelled from the spec: [odin.utils.async] is not among the sources.
    The index of an existing file is deserialized lazily: the pickled bytes
    are kept until the index is first needed. *)
Inductive lazy_index :=
| Ready (i : gmap pykey (nat * nat))
| Deferred (pickled_indices : bytes).

(** The attributes of an instance.  [mmap] is the length the file had when
    it was mapped: the mapping is shared, so it shows the file's bytes up to
    that length.  [None] is an attribute removed by [del]. *)
Record MmapDict := {
  base : NoSQL;
  file : pyfile;
  mmap : nat;
  indices_dict : option lazy_index;
  cache_dict : option (gmap pykey value);
  increased_indices_size : N
}.

Definition with_file (f : pyfile) (s : MmapDict) : MmapDict :=
  {| base := base s; file := f; mmap := mmap s;
     indices_dict := indices_dict s; cache_dict := cache_dict s;
     increased_indices_size := increased_indices_size s |}.

Definition with_mmap (n : nat) (s : MmapDict) : MmapDict :=
  {| base := base s; file := file s; mmap := n;
     indices_dict := indices_dict s; cache_dict := cache_dict s;
     increased_indices_size := increased_indices_size s |}.

Definition with_indices (i : option lazy_index) (s : MmapDict) : MmapDict :=
  {| base := base s; file := file s; mmap := mmap s;
     indices_dict := i; cache_dict := cache_dict s;
     increased_indices_size := increased_indices_size s |}.

Definition with_cache (c : option (gmap pykey value)) (s : MmapDict)
  : MmapDict :=
  {| base := base s; file := file s; mmap := mmap s;
     indices_dict := indices_dict s; cache_dict := c;
     increased_indices_size := increased_indices_size s |}.

Definition with_increased (n : N) (s : MmapDict) : MmapDict :=
  {| base := base s; file := file s; mmap := mmap s;
     indices_dict := indices_dict s; cache_dict := cache_dict s;
     increased_indices_size := n |}.

Definition with_base (b : NoSQL) (s : MmapDict) : MmapDict :=
  {| base := b; file := file s; mmap := mmap s;
     indices_dict := indices_dict s; cache_dict := cache_dict s;
     increased_indices_size := increased_indices_size s |}.

(** *** Attribute access *)

(** [self._cache_dict] *)
Definition get_cache : M MmapDict (gmap pykey value) :=
  fun s => match cache_dict s with
           | Some c => (Ok c, s)
           | None => (Raise AttributeError, s)
           end.

(** The property [indices]: a deferred index is loaded and kept. *)
Definition indices : M MmapDict (gmap pykey (nat * nat)) :=
  fun s => match indices_dict s with
           | None => (Raise AttributeError, s)
           | Some (Ready i) => (Ok i, s)
           | Some (Deferred blob) =>
               match pickle_loads blob with
               | Some i => (Ok i, with_indices (Some (Ready i)) s)
               | None => (Raise UnpicklingError, s)
               end
           end.

Definition seek (p : nat) : M MmapDict unit :=
  modify (fun s => with_file (file_seek p (file s)) s).

Definition read (n : nat) : M MmapDict bytes :=
  fun s => let (d, f) := file_read n (file s) in (Ok d, with_file f s).

Definition write (d : bytes) : M MmapDict unit :=
  modify (fun s => with_file (file_write d (file s)) s).

(** [int(file.read(SIZE_BYTES))] *)
Definition read_int : M MmapDict nat :=
  raw <- read SIZE_BYTES ;;
  match py_int raw with
  | Some n => ret n
  | None => raise ValueError
  end.

(** [self._mmap.seek(start); self._mmap.read(size)] *)
Definition mmap_read (start size : nat) : M MmapDict bytes :=
  fun s =>
    if mmap s <? start then (Raise ValueError, s)
    else (Ok (read_at start size (take (mmap s) (content (file s)))), s).

Definition loads (b : bytes) : M MmapDict value :=
  match marshal_loads b with
  | Some v => ret v
  | None => raise ValueError
  end.

(** *** _restore_dict (lines 227-263) *)

(** [existing] is what the file system holds at the path, if anything.
    Every exception is raised before the first attribute is assigned, so a
    failed call leaves the instance as it was. *)
Definition _restore_dict (b : NoSQL) (existing : option bytes)
  : res MmapDict :=
  let finish (f : pyfile) (i : lazy_index) :=
    Ok {| base := b; file := f; mmap := length (content f);
          indices_dict := Some i; cache_dict := Some ∅;
          increased_indices_size := 0%N |} in
  match existing with
  | Some (c0 :: c') =>
      let c := c0 :: c' in
      let f := {| content := c; position := 0 |} in
      let (hd, f) := file_read (length HEADER) f in
      if negb (bool_decide (hd = HEADER)) then Raise PyException
      else
        let (raw1, f) := file_read SIZE_BYTES f in
        match py_int raw1 with
        | None => Raise ValueError
        | Some max_position =>
            let (raw2, f) := file_read SIZE_BYTES f in
            match py_int raw2 with
            | None => Raise ValueError
            | Some dict_size =>
                let f := file_seek max_position f in
                let (pickled_indices, f) := file_read dict_size f in
                finish f (Deferred pickled_indices)
            end
        end
  | _ =>
      if read_only b then Raise PyException
      else
        let f := {| content := []; position := 0 |} in
        let f := file_write HEADER f in
        let f := file_write
                   (fmt_d SIZE_BYTES (length HEADER + SIZE_BYTES * 2)) f in
        let f := file_write (fmt_d SIZE_BYTES 0) f in
        finish f (Ready ∅)
  end.

(** *** _flush (lines 271-322) and flush (lines 124-128) *)

(** The body of [for key, value in self._cache_dict.iteritems()].  A
    Python 2 dict iterates in an order of its own; the model takes the
    order of [map_to_list], and the facts on the loop hold for any order. *)
Fixpoint flush_items (items : list (pykey * value)) (max_position : nat)
  : M MmapDict nat :=
  match items with
  | [] => ret max_position
  | (key, v) :: rest =>
      let v := marshal_dumps v in
      i <- indices ;;
      modify (with_indices
                (Some (Ready (<[key := (max_position, length v)]> i)))) ;;
      let max_position := max_position + length v in
      write v ;;
      match py_len key with
      | None => raise TypeError
      | Some n =>
          modify (fun s =>
                    with_increased
                      (increased_indices_size s + (8 + 8 + N.of_nat n)) s) ;;
          flush_items rest max_position
      end
  end.

Definition _flush (save_all : bool) : M MmapDict unit :=
  s <- get_state ;;
  if is_closed (base s) || read_only (base s) then ret tt
  else
    seek (length HEADER) ;;
    max_position <- read_int ;;
    seek max_position ;;
    c <- get_cache ;;
    max_position <- flush_items (map_to_list c) max_position ;;
    s <- get_state ;;
    indices_length <-
      (if save_all || (MAX_INDICES_SIZE <? increased_indices_size s)%N
       then
         i <- indices ;;
         let indices_dump := pickle_dumps i in
         write indices_dump ;;
         modify (with_increased 0%N) ;;
         ret (length indices_dump)
       else ret 0) ;;
    seek (length HEADER) ;;
    write (fmt_d SIZE_BYTES max_position) ;;
    (if 0 <? indices_length
     then write (fmt_d SIZE_BYTES indices_length)
     else ret tt) ;;
    modify (fun s => with_mmap (length (content (file s))) s) ;;
    _ <- get_cache ;;
    modify (with_cache (Some ∅)).

(** [NoSQL.flush] *)
Definition flush (save_all : bool) : M MmapDict unit :=
  s <- get_state ;;
  if read_only (base s) || is_closed (base s) then ret tt
  else _flush save_all.

(** *** The dictionary methods (lines 349-378) *)

Definition __setitem__ (key : pykey) (v : value) : M MmapDict unit :=
  s <- get_state ;;
  if read_only (base s) then ret tt
  else
    let key := KStr (str key) in
    c <- get_cache ;;
    modify (with_cache (Some (<[key := v]> c))) ;;
    c <- get_cache ;;
    if (cache_size (base s) <? Z.of_nat (size c))%Z
    then flush false
    else ret tt.

Definition __getitem__ (key : pykey) : M MmapDict value :=
  c <- get_cache ;;
  match c !! key with
  | Some v => ret v
  | None =>
      i <- indices ;;
      match i !! key with
      | None => raise KeyError
      | Some (start, size) =>
          b <- mmap_read start size ;;
          loads b
      end
  end.

Definition __contains__ (key : pykey) : M MmapDict bool :=
  i <- indices ;;
  if bool_decide (is_Some (i !! key)) then ret true
  else
    c <- get_cache ;;
    ret (bool_decide (is_Some (c !! key))).

Definition __len__ : M MmapDict nat :=
  i <- indices ;;
  c <- get_cache ;;
  ret (size i + size c).

Definition __delitem__ (key : pykey) : M MmapDict unit :=
  s <- get_state ;;
  if read_only (base s) then ret tt
  else
    c <- get_cache ;;
    if bool_decide (is_Some (c !! key))
    then modify (with_cache None)
    else
      i <- indices ;;
      match i !! key with
      | None => raise KeyError
      | Some _ => modify (with_indices (Some (Ready (delete key i))))
      end.

(** [_close] (lines 265-269), the map and the file apart. *)
Definition _close : M MmapDict unit :=
  s <- get_state ;;
  match indices_dict s with
  | None => raise AttributeError
  | Some _ =>
      modify (with_indices None) ;;
      _ <- get_cache ;;
      modify (with_cache None)
  end.

(** *** keys and values (lines 154-162 and 380-388) *)

(** [list(chain(self.indices.iterkeys(), self._cache_dict.iterkeys()))] *)
Definition keys : M MmapDict (list pykey) :=
  i <- indices ;;
  c <- get_cache ;;
  ret ((map_to_list i).*1 ++ (map_to_list c).*1).

(** The first loop of [itervalues]: each record of the index is read
    through the map and unmarshalled. *)
Fixpoint load_records (entries : list (pykey * (nat * nat)))
  : M MmapDict (list value) :=
  match entries with
  | [] => ret []
  | (_, (start, size)) :: rest =>
      b <- mmap_read start size ;;
      v <- loads b ;;
      vs <- load_records rest ;;
      ret (v :: vs)
  end.

(** [list(self.itervalues())] *)
Definition values : M MmapDict (list value) :=
  i <- indices ;;
  vs <- load_records (map_to_list i) ;;
  c <- get_cache ;;
  ret (vs ++ (map_to_list c).*2).

(** *** items (lines 158-159 and 390-395) *)

(** What [iteritems] yields: a stored entry under its name, or the two
    halves of a pending value. *)
Inductive item :=
  | Entry (name : pykey) (v : value)
  | Halves (key val : value).

Section Items.

(** [key, val = x]: the two elements of an iterable of exactly two,
    [TypeError] for an object that cannot be iterated and [ValueError] for
    another number of elements. *)
Variable unpack : value -> res (value * value).

(** The second loop of [iteritems] runs over [itervalues()] of the cache
    and unpacks each pending value in [key, val]; the key of the pending
    entry is not read. *)
Fixpoint unpack_values (vals : list value) : M MmapDict (list item) :=
  match vals with
  | [] => ret []
  | x :: rest =>
      match unpack x with
      | Ok (key, val) =>
          l <- unpack_values rest ;;
          ret (Halves key val :: l)
      | Raise e => raise e
      end
  end.

(** [list(self.iteritems())] *)
Definition items : M MmapDict (list item) :=
  i <- indices ;;
  vs <- load_records (map_to_list i) ;;
  c <- get_cache ;;
  l <- unpack_values (map_to_list c).*2 ;;
  ret (zip_with Entry (map_to_list i).*1 vs ++ l).

End Items.

(** *** Vocabulary of the statements *)

(** The index, loaded or not. *)
Definition index_of (s : MmapDict) : option (gmap pykey (nat * nat)) :=
  match indices_dict s with
  | Some (Ready i) => Some i
  | Some (Deferred blob) => pickle_loads blob
  | None => None
  end.

(** The bytes one flush appends for the pending entries, in the order of
    the loop, and the index the loop leaves. *)
Definition blob (items : list (pykey * value)) : bytes :=
  concat (map (fun kv => marshal_dumps kv.2) items).

Fixpoint index_after (items : list (pykey * value)) (p : nat)
  (i : gmap pykey (nat * nat)) : gmap pykey (nat * nat) :=
  match items with
  | [] => i
  | (key, v) :: rest =>
      index_after rest (p + length (marshal_dumps v))
        (<[key := (p, length (marshal_dumps v))]> i)
  end.

Definition increase (items : list (pykey * value)) : N :=
  foldr (fun (kv : pykey * value) (n : N) =>
           (8 + 8 + N.of_nat (default 0%nat (py_len kv.1)) + n)%N)
        0%N items.

(** The two header fields as [_restore_dict] reads them. *)
Definition data_end (c : bytes) : option nat :=
  py_int (read_at (length HEADER) SIZE_BYTES c).

Definition index_length (c : bytes) : option nat :=
  py_int (read_at (length HEADER + SIZE_BYTES) SIZE_BYTES c).

(** The bytes [_restore_dict] hands to [cPickle.loads]. *)
Definition index_blob (c : bytes) : option bytes :=
  match data_end c, index_length c with
  | Some e, Some n => Some (read_at e n c)
  | _, _ => None
  end.

(** An open store with pending entries [c], index [i] and value records
    ending at [e]: every key is a string, the file starts with the magic
    text, the first header field reads [e], and every index entry lies
    between the header and [e]. *)
Record wf (s : MmapDict) (c : gmap pykey value)
  (i : gmap pykey (nat * nat)) (e : nat) : Prop := {
  wf_open : is_closed (base s) = false;
  wf_cache : cache_dict s = Some c;
  wf_cache_keys : forall k, is_Some (c !! k) -> is_str k = true;
  wf_index : index_of s = Some i;
  wf_index_keys : forall k, is_Some (i !! k) -> is_str k = true;
  wf_magic : read_at 0 (length HEADER) (content (file s)) = HEADER;
  wf_end : data_end (content (file s)) = Some e;
  wf_end_lower : length HEADER + SIZE_BYTES * 2 <= e;
  wf_end_upper : e <= length (content (file s));
  wf_ranges : forall k off len,
    i !! k = Some (off, len) ->
    length HEADER + SIZE_BYTES * 2 <= off /\ off + len <= e;
  wf_mmap : mmap s = length (content (file s))
}.

(** The file holds the record of [v] where the index says [key] is. *)
Definition holds (s : MmapDict) (key : pykey) (v : value) : Prop :=
  exists i off len,
    index_of s = Some i /\ i !! key = Some (off, len) /\
    read_at off len (content (file s)) = marshal_dumps v.

(** The store maps [key] to [v]: the entry is pending with that value, or
    it is not pending and the file holds its record. *)
Definition maps_to (s : MmapDict) (key : pykey) (v : value) : Prop :=
  exists c, cache_dict s = Some c /\
    (c !! key = Some v \/ (c !! key = None /\ holds s key v)).

(** The store [_restore_dict] creates on a path that holds nothing. *)
Definition created (b : NoSQL) : MmapDict :=
  {| base := b;
     file := {| content := HEADER ++ fmt_d SIZE_BYTES 104 ++ fmt_d SIZE_BYTES 0;
                position := 104 |};
     mmap := 104;
     indices_dict := Some (Ready ∅);
     cache_dict := Some ∅;
     increased_indices_size := 0 |}.

(** A computation under which the file never shrinks. *)
Definition grows {A} (m : M MmapDict A) : Prop :=
  forall s r s',
    m s = (r, s') ->
    length (content (file s)) <= length (content (file s')).

(** A sequence of assignments and flushes, and the dictionary the same
    assignments build: [d[key] = v] enters under [str(key)]. *)
Inductive call :=
  | SetItem (key : pykey) (v : value)
  | Flush (save_all : bool).

Definition run_call (w : call) : M MmapDict unit :=
  match w with
  | SetItem key v => __setitem__ key v
  | Flush save_all => flush save_all
  end.

Fixpoint run_calls (ws : list call) : M MmapDict unit :=
  match ws with
  | [] => ret tt
  | w :: rest => run_call w ;; run_calls rest
  end.

Fixpoint dict_after (ws : list call) (d : gmap string value)
  : gmap string value :=
  match ws with
  | [] => d
  | SetItem key v :: rest => dict_after rest (<[str key := v]> d)
  | Flush _ :: rest => dict_after rest d
  end.

(** The store [s] holds the dictionary [d]: it is well formed, maps every
    key of [d] to its value, and neither its cache nor its index has a key
    that [d] has not. *)
Definition models (s : MmapDict) (d : gmap string value) : Prop :=
  exists c i e,
    wf s c i e /\
    (forall k v, d !! k = Some v -> maps_to s (KStr k) v) /\
    (forall k, d !! k = None -> c !! KStr k = None /\ i !! KStr k = None).

End Defs.
End Mmap.

(** ** SQLiteDict (utils.py, lines 544-821) *)

Module SQLite.
Section Defs.
Context `{Codec}.

Definition _DEFAULT_TABLE : string := "_default_".

(** What a caller stores: a marshallable value or a numpy array. *)
Inductive pyval :=
| Plain (v : value)
| Array (a : ndarray).

(** [marshal.dumps(v.tolist()) if isinstance(v, np.ndarray)
     else marshal.dumps(v)] *)
Definition dumps (v : pyval) : bytes :=
  match v with
  | Plain v => marshal_dumps v
  | Array a => marshal_dumps (tolist a)
  end.


(** A row of a table [(key text PRIMARY KEY, value text)]. *)
Definition row : Type := string * bytes.

(** The statements the store sends to the engine. *)
Inductive stmt :=
| SelectAny (tb : string)
| CreateTable (tb : string)
| InsertMany (tb : string) (rows : list row)
| SelectIn (tb : string) (keys : list string)
| SelectKey (tb : string) (key : string)
| SelectCount (tb : string)
| SelectAll (tb : string)
| SelectTables
| DeleteIn (tb : string) (key : string)
| UpdateMany (tb : string) (rows : list (bytes * string))
| Truncate (tb : string)
| DropTable (tb : string)
| Pragma (setting : string)
| Commit.

(** The attributes of an instance.  [conn] is the database as the
    connection sees it; [executed] lists the statements sent, latest
    first.  [cache] is a [defaultdict(dict)]: a table without an entry has
    an empty cache. *)
Record SQLiteDict := {
  base : NoSQL;
  cache : gmap string (gmap string pyval);
  conn : gmap string (list row);
  current_table : string;
  executed : list stmt
}.

Definition with_cache (c : gmap string (gmap string pyval)) (s : SQLiteDict)
  : SQLiteDict :=
  {| base := base s; cache := c; conn := conn s;
     current_table := current_table s; executed := executed s |}.

Definition with_conn (d : gmap string (list row)) (s : SQLiteDict)
  : SQLiteDict :=
  {| base := base s; cache := cache s; conn := d;
     current_table := current_table s; executed := executed s |}.

Definition with_current_table (t : string) (s : SQLiteDict) : SQLiteDict :=
  {| base := base s; cache := cache s; conn := conn s;
     current_table := t; executed := executed s |}.

Definition with_executed (l : list stmt) (s : SQLiteDict) : SQLiteDict :=
  {| base := base s; cache := cache s; conn := conn s;
     current_table := current_table s; executed := l |}.

Definition with_base (b : NoSQL) (s : SQLiteDict) : SQLiteDict :=
  {| base := b; cache := cache s; conn := conn s;
     current_table := current_table s; executed := executed s |}.

(** *** The engine *)

(** A statement reaches the engine only on an open connection. *)
Definition execute (q : stmt) : M SQLiteDict unit :=
  fun s =>
    if is_closed (base s) then (Raise ProgrammingError, s)
    else (Ok tt, with_executed (q :: executed s) s).

(** The rows of a table; a missing table is an [OperationalError]. *)
Definition rows_of (tb : string) : M SQLiteDict (list row) :=
  fun s => match conn s !! tb with
           | Some r => (Ok r, s)
           | None => (Raise OperationalError, s)
           end.

Definition set_rows (tb : string) (r : list row) : M SQLiteDict unit :=
  modify (fun s => with_conn (<[tb := r]> (conn s)) s).

Definition has_key (k : string) (r : list row) : bool :=
  bool_decide (k ∈ r.*1).

(** One [INSERT INTO tb VALUES (?, ?)]: the primary key must be new. *)
Definition insert_row (tb : string) (kv : row) : M SQLiteDict unit :=
  r <- rows_of tb ;;
  if has_key kv.1 r then raise IntegrityError
  else set_rows tb (r ++ [kv]).

(** [executemany]: one insert per parameter, in order, stopping at the
    first that fails; the rows already inserted stay in the transaction. *)
Fixpoint insert_rows (tb : string) (kvs : list row) : M SQLiteDict unit :=
  match kvs with
  | [] => ret tt
  | kv :: rest => insert_row tb kv ;; insert_rows tb rest
  end.

Definition executemany_insert (tb : string) (kvs : list row)
  : M SQLiteDict unit :=
  execute (InsertMany tb kvs) ;;
  insert_rows tb kvs.

Definition commit : M SQLiteDict unit := execute Commit.

(** *** Tables (lines 620-674) *)

Definition get_current_table : M SQLiteDict string :=
  fun s => (Ok (current_table s), s).

(** [self.current_cache] *)
Definition current_cache : M SQLiteDict (gmap string pyval) :=
  fun s => (Ok (default ∅ (cache s !! current_table s)), s).

Definition set_current_cache (c : gmap string pyval) : M SQLiteDict unit :=
  modify (fun s => with_cache (<[current_table s := c]> (cache s)) s).

Definition is_table_exist (table_name : string) : M SQLiteDict bool :=
  execute (SelectAny table_name) ;;
  s <- get_state ;;
  ret (bool_decide (is_Some (conn s !! table_name))).

Definition set_table (table_name : option string) : M SQLiteDict unit :=
  let table_name := default _DEFAULT_TABLE table_name in
  b <- is_table_exist table_name ;;
  (if negb b
   then execute (CreateTable table_name) ;;
        set_rows table_name [] ;;
        commit
   else ret tt) ;;
  modify (with_current_table table_name).

Definition get_all_tables : M SQLiteDict (list string) :=
  execute SelectTables ;;
  s <- get_state ;;
  ret (map_to_list (conn s)).*1.

Definition drop_table (table_name : option string) : M SQLiteDict unit :=
  s <- get_state ;;
  if read_only (base s) then ret tt
  else
    table_name <-
      match table_name with
      | None =>
          modify (with_current_table _DEFAULT_TABLE) ;;
          ret (current_table s)
      | Some t => ret t
      end ;;
    if bool_decide (table_name = _DEFAULT_TABLE) then raise ValueError
    else
      execute (DropTable table_name) ;;
      _ <- rows_of table_name ;;
      modify (fun s => with_conn (delete table_name (conn s)) s).

(** *** _flush (lines 600-614) and flush (lines 124-128) *)

(** [[(str(k), marshal.dumps(v)) for k, v in cache.iteritems()]] *)
Definition pending_rows (c : gmap string pyval) : list row :=
  map (fun kv : string * pyval => (kv.1, dumps kv.2)) (map_to_list c).

Definition flush_table (tab : string) : M SQLiteDict unit :=
  set_table (Some tab) ;;
  c <- current_cache ;;
  if 0 <? size c
  then
    executemany_insert tab (pending_rows c) ;;
    commit ;;
    set_current_cache ∅
  else ret tt.

Fixpoint flush_tables (tables : list string) : M SQLiteDict unit :=
  match tables with
  | [] => ret tt
  | tab :: rest => flush_table tab ;; flush_tables rest
  end.

Definition _flush (save_all : bool) : M SQLiteDict unit :=
  curr_tab <- get_current_table ;;
  tables <- (if save_all then get_all_tables else ret [curr_tab]) ;;
  flush_tables tables ;;
  set_table (Some curr_tab).

(** [NoSQL.flush] *)
Definition flush (save_all : bool) : M SQLiteDict unit :=
  s <- get_state ;;
  if read_only (base s) || is_closed (base s) then ret tt
  else _flush save_all.

(** *** The dictionary methods (lines 698-821) *)

(** A subscript: one key, or a tuple, list or array of keys. *)
Inductive subscript :=
| One (key : pykey)
| Many (keys : list pykey).

Inductive fetched :=
| Single (v : pyval)
| Several (vs : list value).

Definition __setitem__ (key : pykey) (v : pyval) : M SQLiteDict unit :=
  s <- get_state ;;
  if read_only (base s) then raise RuntimeError
  else
    let key := str key in
    c <- current_cache ;;
    set_current_cache (<[key := v]> c) ;;
    c <- current_cache ;;
    if (cache_size (base s) <=? Z.of_nat (size c))%Z
    then flush false ;; set_current_cache ∅
    else ret tt.

Fixpoint loads_all (blobs : list bytes) : option (list value) :=
  match blobs with
  | [] => Some []
  | b :: rest =>
      match marshal_loads b, loads_all rest with
      | Some v, Some vs => Some (v :: vs)
      | _, _ => None
      end
  end.

(** [SELECT value FROM tb WHERE key IN (...)] *)
Definition select_in (keys : list string) (r : list row) : list bytes :=
  (filter (fun kv : row => kv.1 ∈ keys) r).*2.

(** [SELECT value FROM tb WHERE key="..." LIMIT 1] *)
Definition select_key (key : string) (r : list row) : option bytes :=
  head (filter (fun kv : row => kv.1 = key) r).*2.

Definition __getitem__ (key : subscript) : M SQLiteDict fetched :=
  match key with
  | Many key =>
      s <- get_state ;;
      execute (SelectIn (current_table s) (map str key)) ;;
      r <- rows_of (current_table s) ;;
      let results := select_in (map str key) r in
      if negb (length results =? length key) then raise KeyError
      else
        match loads_all results with
        | Some vs => ret (Several vs)
        | None => raise ValueError
        end
  | One key =>
      let key := str key in
      c <- current_cache ;;
      match c !! key with
      | Some v => ret (Single v)
      | None =>
          s <- get_state ;;
          execute (SelectKey (current_table s) key) ;;
          r <- rows_of (current_table s) ;;
          match select_key key r with
          | None => raise KeyError
          | Some b =>
              match marshal_loads b with
              | Some v => ret (Single (Plain v))
              | None => raise ValueError
              end
          end
      end
  end.

Definition __contains__ (key : pykey) : M SQLiteDict bool :=
  let key := str key in
  c <- current_cache ;;
  if bool_decide (is_Some (c !! key)) then ret true
  else
    s <- get_state ;;
    execute (SelectKey (current_table s) key) ;;
    r <- rows_of (current_table s) ;;
    ret (bool_decide (is_Some (select_key key r))).

Definition __len__ : M SQLiteDict nat :=
  s <- get_state ;;
  execute (SelectCount (current_table s)) ;;
  r <- rows_of (current_table s) ;;
  c <- current_cache ;;
  ret (length r + size c).

(** [', '.join(keys)] *)
Fixpoint join (keys : list string) : string :=
  match keys with
  | [] => ""
  | [k] => k
  | k :: rest => k +:+ ", " +:+ join rest
  end.

(** The loop of [__delitem__]: cached keys leave the cache, the others are
    collected for the database. *)
Fixpoint split_cached (key : list string) (c : gmap string pyval)
  : gmap string pyval * list string :=
  match key with
  | [] => (c, [])
  | k :: rest =>
      match c !! k with
      | Some _ => split_cached rest (delete k c)
      | None => let (c', db_key) := split_cached rest c in (c', k :: db_key)
      end
  end.

(** The statement is [DELETE FROM tb WHERE key IN ("%s")] with the
    collected keys joined inside the one pair of quotes. *)
Definition __delitem__ (key : subscript) : M SQLiteDict unit :=
  s <- get_state ;;
  if read_only (base s) then ret tt
  else
    let key := match key with
               | One k => [str k]
               | Many ks => map str ks
               end in
    c <- current_cache ;;
    let (c', db_key) := split_cached key c in
    set_current_cache c' ;;
    execute (DeleteIn (current_table s) (join db_key)) ;;
    r <- rows_of (current_table s) ;;
    set_rows (current_table s)
      (filter (fun kv : row => kv.1 ≠ join db_key) r) ;;
    commit.

(** The loop of [update]: cached keys are overwritten in the cache, the
    others are marshalled and collected for the database.  An array is not
    converted here, and marshal refuses it. *)
Fixpoint update_loop (items : list (pykey * pyval))
  : M SQLiteDict (list (bytes * string)) :=
  match items with
  | [] => ret []
  | (key, v) :: rest =>
      let key := str key in
      c <- current_cache ;;
      match c !! key with
      | Some _ =>
          set_current_cache (<[key := v]> c) ;;
          update_loop rest
      | None =>
          match v with
          | Plain v =>
              db_update <- update_loop rest ;;
              ret ((marshal_dumps v, key) :: db_update)
          | Array _ => raise ValueError
          end
      end
  end.

(** The statement is [UPDATE tb SET value=(?) WHERE key=("?")]: it has one
    placeholder and is given two parameters, which the engine refuses. *)
Definition update (items : list (pykey * pyval)) : M SQLiteDict unit :=
  s <- get_state ;;
  if read_only (base s) then ret tt
  else
    db_update <- update_loop items ;;
    execute (UpdateMany (current_table s) db_update) ;;
    match db_update with
    | [] => commit
    | _ :: _ => raise ProgrammingError
    end.

(** [TRUNCATE TABLE] is not a statement of SQLite. *)
Definition clear : M SQLiteDict unit :=
  s <- get_state ;;
  if read_only (base s) then ret tt
  else
    execute (Truncate (current_table s)) ;;
    raise OperationalError.

(** [items()]: the rows of the current table, then the pending entries. *)
Definition items : M SQLiteDict (list (string * pyval)) :=
  s <- get_state ;;
  execute (SelectAll (current_table s)) ;;
  r <- rows_of (current_table s) ;;
  c <- current_cache ;;
  match loads_all r.*2 with
  | Some vs => ret (zip r.*1 (Plain <$> vs) ++ map_to_list c)
  | None => raise ValueError
  end.

(** [_restore_dict] (lines 583-598): a fresh cache and a fresh connection
    on the database [existing] at the path, created empty if there is
    none. *)
Definition _restore_dict (b : NoSQL)
  (existing : option (gmap string (list row))) : res unit * SQLiteDict :=
  (execute (Pragma "main.locking_mode = EXCLUSIVE") ;;
   execute (Pragma "main.synchronous = 0") ;;
   execute (Pragma "journal_mode = MEMORY") ;;
   commit ;;
   set_table (Some _DEFAULT_TABLE))
    {| base := b; cache := ∅; conn := default ∅ existing;
       current_table := _DEFAULT_TABLE; executed := [] |}.

End Defs.
End SQLite.

(** ** TableDict (utils.py, lines 418-541) *)

Module Table.

(** What an attribute of a view holds. *)
Inductive attr :=
| Store
| Text (s : string).

(** A view is its instance dictionary: the class defines no data
    attribute of its own, so a name missing here is an [AttributeError]. *)
Abbreviation TableDict := (gmap string attr).

Section Defs.
Context `{Codec}.

(** [TableDict.__init__], reached through [SQLiteDict.as_table]. *)
Definition as_table (table_name : pykey) : TableDict :=
  <["_name" := Text (str table_name)]> (<["_sqlite" := Store]> ∅).

(** [self.<name>] *)
Definition getattr (self : TableDict) (name : string)
  : M SQLite.SQLiteDict attr :=
  match self !! name with
  | Some a => ret a
  | None => raise AttributeError
  end.

(** [str(table_name)] in [set_table]; a store is no table name. *)
Definition table_name_of (a : attr) : M SQLite.SQLiteDict string :=
  match a with
  | Text s => ret s
  | Store => raise OperationalError
  end.

(** [with self.table_context(): body].  The generator has no [try]: an
    exception in the body skips the restoring [set_table]. *)
Definition table_context {A} (self : TableDict)
  (body : M SQLite.SQLiteDict A) : M SQLite.SQLiteDict A :=
  _ <- getattr self "_sqlite" ;;
  curr_tab <- SQLite.get_current_table ;;
  _ <- getattr self "_sqlite" ;;
  a <- getattr self "_table_name" ;;
  table_name <- table_name_of a ;;
  SQLite.set_table (Some table_name) ;;
  r <- body ;;
  _ <- getattr self "_sqlite" ;;
  SQLite.set_table (Some curr_tab) ;;
  ret r.

Definition flush (self : TableDict) : M SQLite.SQLiteDict unit :=
  table_context self (SQLite.flush false).

Definition __setitem__ (self : TableDict) (key : pykey) (v : SQLite.pyval)
  : M SQLite.SQLiteDict unit :=
  table_context self (SQLite.__setitem__ key v).

Definition __getitem__ (self : TableDict) (key : SQLite.subscript)
  : M SQLite.SQLiteDict SQLite.fetched :=
  table_context self (SQLite.__getitem__ key).

Definition update (self : TableDict) (items : list (pykey * SQLite.pyval))
  : M SQLite.SQLiteDict unit :=
  table_context self (SQLite.update items).

Definition __contains__ (self : TableDict) (key : pykey)
  : M SQLite.SQLiteDict bool :=
  table_context self (SQLite.__contains__ key).

Definition __len__ (self : TableDict) : M SQLite.SQLiteDict nat :=
  table_context self SQLite.__len__.

Definition __delitem__ (self : TableDict) (key : SQLite.subscript)
  : M SQLite.SQLiteDict unit :=
  table_context self (SQLite.__delitem__ key).

Definition iteritems (self : TableDict)
  : M SQLite.SQLiteDict (list (string * SQLite.pyval)) :=
  table_context self SQLite.items.

Definition clear (self : TableDict) : M SQLite.SQLiteDict unit :=
  table_context self SQLite.clear.

(** The dictionary operations of a view. *)
Inductive op :=
| OpGet (key : SQLite.subscript)
| OpSet (key : pykey) (v : SQLite.pyval)
| OpDel (key : SQLite.subscript)
| OpContains (key : pykey)
| OpLen
| OpItems
| OpFlush
| OpUpdate (items : list (pykey * SQLite.pyval))
| OpClear.

Inductive outcome :=
| Fetched (r : SQLite.fetched)
| Truth (b : bool)
| Count (n : nat)
| Items (l : list (string * SQLite.pyval))
| Done.

Definition lift {A} (f : A -> outcome) (m : M SQLite.SQLiteDict A)
  : M SQLite.SQLiteDict outcome :=
  a <- m ;; ret (f a).

Definition run_op (self : TableDict) (o : op) : M SQLite.SQLiteDict outcome :=
  match o with
  | OpGet key => lift Fetched (__getitem__ self key)
  | OpSet key v => lift (fun _ => Done) (__setitem__ self key v)
  | OpDel key => lift (fun _ => Done) (__delitem__ self key)
  | OpContains key => lift Truth (__contains__ self key)
  | OpLen => lift Count (__len__ self)
  | OpItems => lift Items (iteritems self)
  | OpFlush => lift (fun _ => Done) (flush self)
  | OpUpdate items => lift (fun _ => Done) (update self items)
  | OpClear => lift (fun _ => Done) (clear self)
  end.

End Defs.
End Table.

(** ** The instances of a process: NoSQL.__new__ (lines 25-48), __init__
    (lines 50-57) and close (lines 113-122) *)

Module Registry.
Section Defs.
Context `{Codec}.

(** [os.path.abspath], which depends on the working directory. *)
Variable abspath : string -> string.

Inductive subclass :=
| MmapDict
| SQLiteDict.

Definition __name__ (c : subclass) : string :=
  match c with
  | MmapDict => "MmapDict"
  | SQLiteDict => "SQLiteDict"
  end.

(** An object of the heap: as [__new__] leaves it, or with the attributes
    [_restore_dict] adds. *)
Inductive instance :=
| Bare (c : subclass) (b : NoSQL)
| AMmap (m : Mmap.MmapDict)
| ASQLite (d : SQLite.SQLiteDict).

Definition class_of (o : instance) : subclass :=
  match o with
  | Bare c _ => c
  | AMmap _ => MmapDict
  | ASQLite _ => SQLiteDict
  end.

Definition base_of (o : instance) : NoSQL :=
  match o with
  | Bare _ b => b
  | AMmap m => Mmap.base m
  | ASQLite d => SQLite.base d
  end.

(** The process: the files and databases by absolute path, the objects by
    identity, and [NoSQL._INSTANCES], class name to path to object. *)
Record process := {
  files : gmap string bytes;
  databases : gmap string (gmap string (list SQLite.row));
  heap : list instance;
  _INSTANCES : gmap string (gmap string nat)
}.

Definition with_files (f : gmap string bytes) (w : process) : process :=
  {| files := f; databases := databases w; heap := heap w;
     _INSTANCES := _INSTANCES w |}.

Definition with_databases (d : gmap string (gmap string (list SQLite.row)))
  (w : process) : process :=
  {| files := files w; databases := d; heap := heap w;
     _INSTANCES := _INSTANCES w |}.

Definition with_heap (h : list instance) (w : process) : process :=
  {| files := files w; databases := databases w; heap := h;
     _INSTANCES := _INSTANCES w |}.

Definition with_instances (i : gmap string (gmap string nat)) (w : process)
  : process :=
  {| files := files w; databases := databases w; heap := heap w;
     _INSTANCES := i |}.

(** A process that has opened no store, in an empty directory. *)
Definition started : process :=
  {| files := ∅; databases := ∅; heap := []; _INSTANCES := ∅ |}.

Definition instance_of (self : nat) : M process instance :=
  fun w => match heap w !! self with
           | Some o => (Ok o, w)
           | None => (Raise AttributeError, w)
           end.

Definition set_instance (self : nat) (o : instance) : M process unit :=
  modify (fun w => with_heap (<[self := o]> (heap w)) w).

Definition __new__ (cls : subclass) (path : string) (read_only : bool)
  (cache_size : Z) : M process nat :=
  let path := abspath path in
  w <- get_state ;;
  let all_instances := default ∅ (_INSTANCES w !! __name__ cls) in
  match all_instances !! path with
  | Some found => ret found
  | None =>
      let new_instance := length (heap w) in
      modify (fun w =>
        with_instances
          (<[__name__ cls := <[path := new_instance]> all_instances]>
             (_INSTANCES w))
          (with_heap
             (heap w ++
              [Bare cls {| cache_size := cache_size; read_only := read_only;
                           new_args_called := false; path := path;
                           is_closed := false |}])
             w)) ;;
      ret new_instance
  end.

(** [os.path.exists(path) and os.path.isfile(path)] *)
Definition isfile (path : string) (w : process) : bool :=
  bool_decide (is_Some (files w !! abspath path))
  || bool_decide (is_Some (databases w !! abspath path)).

Definition remove (path : string) : M process unit :=
  modify (fun w =>
    with_databases (delete (abspath path) (databases w))
      (with_files (delete (abspath path) (files w)) w)).

(** [self._restore_dict(self.path, self.read_only, self.cache_size)] *)
Definition _restore_dict (self : nat) : M process unit :=
  o <- instance_of self ;;
  w <- get_state ;;
  let b := base_of o in
  match class_of o with
  | MmapDict =>
      match Mmap._restore_dict b (files w !! path b) with
      | Ok m =>
          set_instance self (AMmap m) ;;
          modify (fun w =>
            with_files (<[path b := content (Mmap.file m)]> (files w)) w)
      | Raise e => raise e
      end
  | SQLiteDict =>
      let (r, d) := SQLite._restore_dict b (databases w !! path b) in
      set_instance self (ASQLite d) ;;
      modify (fun w =>
        with_databases (<[path b := SQLite.conn d]> (databases w)) w) ;;
      match r with
      | Ok _ => ret tt
      | Raise e => raise e
      end
  end.

Definition __init__ (self : nat) (path : string) (override : bool)
  : M process unit :=
  w <- get_state ;;
  (if override && isfile path w then remove path else ret tt) ;;
  _restore_dict self.

(** The call [subclass(path, read_only, cache_size, override)]: [__new__],
    then [__init__] on whatever it returned. *)
Definition open (cls : subclass) (path : string) (read_only : bool)
  (cache_size : Z) (override : bool) : M process nat :=
  self <- __new__ cls path read_only cache_size ;;
  __init__ self path override ;;
  ret self.

(** A method of an [MmapDict] run on the object [self]; what it writes to
    its file is what the path then holds. *)
Definition on_mmap {A} (self : nat) (method : M Mmap.MmapDict A)
  : M process A :=
  fun w =>
    match heap w !! self with
    | Some (AMmap m) =>
        let (r, m') := method m in
        (r, with_files
              (<[path (Mmap.base m') := content (Mmap.file m')]> (files w))
              (with_heap (<[self := AMmap m']> (heap w)) w))
    | _ => (Raise AttributeError, w)
    end.

Definition on_sqlite {A} (self : nat) (method : M SQLite.SQLiteDict A)
  : M process A :=
  fun w =>
    match heap w !! self with
    | Some (ASQLite d) =>
        let (r, d') := method d in
        (r, with_databases
              (<[path (SQLite.base d') := SQLite.conn d']> (databases w))
              (with_heap (<[self := ASQLite d']> (heap w)) w))
    | _ => (Raise AttributeError, w)
    end.

Definition set_closed (o : instance) : instance :=
  match o with
  | Bare c b => Bare c (close_base b)
  | AMmap m => AMmap (Mmap.with_base (close_base (Mmap.base m)) m)
  | ASQLite d => ASQLite (SQLite.with_base (close_base (SQLite.base d)) d)
  end.

(** [del NoSQL._INSTANCES[self.__class__.__name__][self.path]] *)
Definition deregister (o : instance) : M process unit :=
  w <- get_state ;;
  let name := __name__ (class_of o) in
  let all_instances := default ∅ (_INSTANCES w !! name) in
  match all_instances !! path (base_of o) with
  | None => raise KeyError
  | Some _ =>
      modify (with_instances
                (<[name := delete (path (base_of o)) all_instances]>
                   (_INSTANCES w)))
  end.

(** [NoSQL.close]: the flag is set before [flush] is called. *)
Definition close (self : nat) : M process unit :=
  o <- instance_of self ;;
  if is_closed (base_of o) then ret tt
  else
    set_instance self (set_closed o) ;;
    (if read_only (base_of o) then ret tt
     else
       match class_of o with
       | MmapDict => on_mmap self (Mmap.flush true)
       | SQLiteDict => on_sqlite self (SQLite.flush true)
       end) ;;
    deregister o ;;
    match class_of o with
    | MmapDict => on_mmap self Mmap._close
    | SQLiteDict => ret tt
    end.

(** What [close] leaves of an open [MmapDict]: the flag set, the index
    and the cache deleted. *)
Definition closed_mmap (m : Mmap.MmapDict) : Mmap.MmapDict :=
  Mmap.with_cache None
    (Mmap.with_indices None (Mmap.with_base (close_base (Mmap.base m)) m)).

End Defs.
End Registry.

(** ** A codec to run the stores on *)

Module Example.

(** Values are byte strings, marshalled behind a one-letter tag; an index
    is pickled as the binary digits of its code; an array is a list of
    character codes. *)
Definition tag_s : ascii := "s"%char.
Definition tag_P : ascii := "P"%char.
Definition bit0 : ascii := "0"%char.
Definition bit1 : ascii := "1"%char.

Definition dumps (v : bytes) : bytes := tag_s :: v.

Definition loads (b : bytes) : option bytes :=
  match b with
  | c :: v => if Ascii.eqb c tag_s then Some v else None
  | [] => None
  end.

Fixpoint bits_of (p : positive) : bytes :=
  match p with
  | xH => []
  | xO q => bit0 :: bits_of q
  | xI q => bit1 :: bits_of q
  end.

Fixpoint of_bits (b : bytes) : option positive :=
  match b with
  | [] => Some xH
  | c :: r =>
      if Ascii.eqb c bit0 then xO <$> of_bits r
      else if Ascii.eqb c bit1 then xI <$> of_bits r
      else None
  end.

Definition pickle (i : gmap pykey (nat * nat)) : bytes :=
  tag_P :: bits_of (encode i).

Definition unpickle (b : bytes) : option (gmap pykey (nat * nat)) :=
  match b with
  | c :: r =>
      if Ascii.eqb c tag_P then
        match of_bits r with
        | Some p => decode p
        | None => None
        end
      else None
  | [] => None
  end.

#[local] Instance codec : Codec := {|
  value := bytes;
  marshal_dumps := dumps;
  marshal_loads := loads;
  pickle_dumps := pickle;
  pickle_loads := unpickle;
  ndarray := list nat;
  tolist := map ascii_of_nat
|}.

Definition text (s : string) : bytes := list_ascii_of_string s.

(** A writable handle on a path that held nothing. *)
Definition writable (cache_size : Z) : NoSQL :=
  {| cache_size := cache_size; read_only := false;
     new_args_called := false; path := "/tmp/store"; is_closed := false |}.

Definition readonly (cache_size : Z) : NoSQL :=
  {| cache_size := cache_size; read_only := true;
     new_args_called := false; path := "/tmp/store"; is_closed := false |}.

(** [MmapDict('/tmp/store')] on an empty directory. *)
Definition fresh_mmap (b : NoSQL) : Mmap.MmapDict :=
  match Mmap._restore_dict b None with
  | Ok m => m
  | Raise _ =>
      {| Mmap.base := b; Mmap.file := {| content := []; position := 0 |};
         Mmap.mmap := 0; Mmap.indices_dict := None;
         Mmap.cache_dict := None; Mmap.increased_indices_size := 0%N |}
  end.

(** [SQLiteDict('/tmp/store')] on an empty directory. *)
Definition fresh_sqlite (b : NoSQL) : SQLite.SQLiteDict :=
  (SQLite._restore_dict b None).2.

Definition one : bytes := text "one".
Definition two : bytes := text "two".

(** A writable [MmapDict] with two pending entries. *)
Definition pending_ab : Mmap.MmapDict :=
  Mmap.with_cache
    (Some (<[KStr "a" := one]> (<[KStr "b" := two]> ∅)))
    (Mmap.created (writable 250)).

(** A [SQLiteDict] on its default table, empty or holding a row for
    ["a"], writable or read-only. *)
Definition sqlite_on (b : NoSQL) (rows : list SQLite.row)
  : SQLite.SQLiteDict :=
  {| SQLite.base := b; SQLite.cache := ∅;
     SQLite.conn := {[SQLite._DEFAULT_TABLE := rows]};
     SQLite.current_table := SQLite._DEFAULT_TABLE;
     SQLite.executed := [] |}.

Definition row_a : SQLite.row := ("a", dumps one).

(** The store of [pending_ab] once flushed with its index saved. *)
Definition flushed_ab : Mmap.MmapDict := (Mmap.flush true pending_ab).2.

(** The store of [pending_ab] when the estimate of the growth of the
    index stands at the threshold. *)
Definition pending_at_threshold : Mmap.MmapDict :=
  Mmap.with_increased Mmap.MAX_INDICES_SIZE pending_ab.

(** A process whose only handle is [m], registered and in step with the
    file at its path. *)
Definition alone (m : Mmap.MmapDict) : Registry.process :=
  {| Registry.files := {[path (Mmap.base m) := content (Mmap.file m)]};
     Registry.databases := ∅;
     Registry.heap := [Registry.AMmap m];
     Registry._INSTANCES :=
       {["MmapDict"%string := {[path (Mmap.base m) := 0]}]} |}.

(** A process that has opened nothing, in a directory where
    [/tmp/store] holds some text. *)
Definition with_old_file : Registry.process :=
  {| Registry.files := {["/tmp/store"%string := text "old"]};
     Registry.databases := ∅;
     Registry.heap := [];
     Registry._INSTANCES := ∅ |}.

(** Unpacking a byte string in two: its two characters, or [ValueError]
    when it has not exactly two. *)
Definition unpack (v : bytes) : res (bytes * bytes) :=
  match v with
  | [x; y] => Ok ([x], [y])
  | _ => Raise ValueError
  end.

(** [d['a'] = 'one'; d.flush(True); d[5] = 'two'; d['a'] = 'two'] *)
Definition calls_a5a : list Mmap.call :=
  [Mmap.SetItem (KStr "a") one; Mmap.Flush true;
   Mmap.SetItem (KInt 5) two; Mmap.SetItem (KStr "a") two].

(** A writable [SQLiteDict] with the default table and a table [t], both
    empty, [t] current, and one entry pending in each. *)
Definition two_tables : SQLite.SQLiteDict :=
  {| SQLite.base := writable 250;
     SQLite.cache :=
       <["t"%string := {["a"%string := SQLite.Plain one]}]>
         {[SQLite._DEFAULT_TABLE := {["b"%string := SQLite.Plain two]}]};
     SQLite.conn := <["t"%string := []]> {[SQLite._DEFAULT_TABLE := []]};
     SQLite.current_table := "t";
     SQLite.executed := [] |}.

End Example.

(** * Facts *)

(** ** The monad *)

Lemma bind_ok {S A B} (m : M S A) (f : A -> M S B) s a s' :
  m s = (Ok a, s') -> bind m f s = f a s'.
Proof. intros E. unfold bind. rewrite E. reflexivity. Qed.

Lemma bind_raise {S A B} (m : M S A) (f : A -> M S B) s e s' :
  m s = (Raise e, s') -> bind m f s = (Raise e, s').
Proof. intros E. unfold bind. rewrite E. reflexivity. Qed.

(** ** Decimal text *)

Lemma dec_fuel_app fuel : forall n acc,
  dec_fuel fuel n acc = dec_fuel fuel n [] ++ acc.
Proof.
  induction fuel as [|f IH]; intros n acc; cbn [dec_fuel]; [reflexivity|].
  destruct (n <? 10); [reflexivity|].
  rewrite (IH _ (_ :: acc)), (IH _ [_]), <- app_assoc. reflexivity.
Qed.

Lemma dec_fuel_irrel f1 : forall f2 n acc,
  n < f1 -> n < f2 -> dec_fuel f1 n acc = dec_fuel f2 n acc.
Proof.
  induction f1 as [|f1 IH]; intros f2 n acc H1 H2; [lia|].
  destruct f2 as [|f2]; [lia|]. cbn [dec_fuel].
  destruct (Nat.ltb_spec n 10) as [Hlt|Hge]; [reflexivity|].
  assert (n / 10 < n) by (apply Nat.div_lt; lia).
  apply IH; lia.
Qed.

Lemma dec_small n : n < 10 -> dec n = [digit n].
Proof.
  intros Hn. unfold dec. cbn [dec_fuel].
  destruct (Nat.ltb_spec n 10); [|lia].
  rewrite Nat.mod_small by lia. reflexivity.
Qed.

Lemma dec_large n : 10 <= n -> dec n = dec (n / 10) ++ [digit (n mod 10)].
Proof.
  intros Hn. unfold dec at 1. cbn [dec_fuel].
  destruct (Nat.ltb_spec n 10); [lia|].
  assert (n / 10 < n) by (apply Nat.div_lt; lia).
  rewrite dec_fuel_app. f_equal.
  apply dec_fuel_irrel; lia.
Qed.

Lemma digit_val_digit d : d < 10 -> digit_val (digit d) = Some d.
Proof.
  intros Hd. do 10 (destruct d as [|d]; [reflexivity|]). lia.
Qed.

Lemma digit_not_space d : d < 10 -> Ascii.eqb (digit d) space = false.
Proof.
  intros Hd. do 10 (destruct d as [|d]; [reflexivity|]). lia.
Qed.

Lemma digits_val_app l1 : forall a l2,
  digits_val a (l1 ++ l2) =
  match digits_val a l1 with
  | Some a' => digits_val a' l2
  | None => None
  end.
Proof.
  induction l1 as [|c l1 IH]; intros a l2; cbn [digits_val app];
    [reflexivity|].
  destruct (digit_val c); [apply IH | reflexivity].
Qed.

Lemma digits_val_dec n : digits_val 0 (dec n) = Some n.
Proof.
  induction n as [n IH] using lt_wf_ind.
  destruct (Nat.lt_ge_cases n 10) as [Hlt|Hge].
  - rewrite dec_small by assumption. cbn [digits_val].
    rewrite digit_val_digit by assumption. reflexivity.
  - rewrite dec_large by assumption.
    assert (n / 10 < n) by (apply Nat.div_lt; lia).
    rewrite digits_val_app, IH by assumption. cbn [digits_val].
    rewrite digit_val_digit by (apply Nat.mod_upper_bound; lia).
    f_equal. pose proof (Nat.div_mod_eq n 10). lia.
Qed.

(** A decimal text starts with a digit. *)
Lemma dec_head n : exists d l, d < 10 /\ dec n = digit d :: l.
Proof.
  induction n as [n IH] using lt_wf_ind.
  destruct (Nat.lt_ge_cases n 10) as [Hlt|Hge].
  - exists n, []. split; [assumption | apply dec_small; assumption].
  - assert (n / 10 < n) by (apply Nat.div_lt; lia).
    destruct (IH _ H) as (d & l & Hd & E).
    exists d, (l ++ [digit (n mod 10)]). split; [assumption|].
    rewrite dec_large, E by assumption. reflexivity.
Qed.

Lemma lstrip_dec n : lstrip (dec n) = dec n.
Proof.
  destruct (dec_head n) as (d & l & Hd & E). rewrite E. cbn [lstrip].
  rewrite digit_not_space by assumption. reflexivity.
Qed.

Lemma lstrip_blanks k l : lstrip (replicate k space ++ l) = lstrip l.
Proof. induction k as [|k IH]; [reflexivity | exact IH]. Qed.

(** [int('%wd' % n) == n] *)
Lemma py_int_fmt_d w n : py_int (fmt_d w n) = Some n.
Proof.
  unfold py_int, fmt_d. rewrite lstrip_blanks, lstrip_dec.
  destruct (dec_head n) as (d & l & Hd & E).
  rewrite <- (digits_val_dec n), E. reflexivity.
Qed.

Lemma length_dec_mono m : forall n, n <= m -> length (dec n) <= length (dec m).
Proof.
  induction m as [m IH] using lt_wf_ind. intros n Hn.
  destruct (Nat.lt_ge_cases n 10) as [Hlt|Hge].
  - rewrite (dec_small n) by assumption.
    destruct (dec_head m) as (d & l & _ & E). rewrite E.
    cbn [length]. lia.
  - rewrite (dec_large n), (dec_large m) by lia.
    rewrite !length_app. cbn [length].
    assert (m / 10 < m) by (apply Nat.div_lt; lia).
    assert (n / 10 <= m / 10) by (apply Nat.Div0.div_le_mono; lia).
    specialize (IH _ H _ H0). lia.
Qed.

Lemma fits_mono n m : n <= m -> Mmap.fits m -> Mmap.fits n.
Proof.
  unfold Mmap.fits. intros Hn Hm. pose proof (length_dec_mono m n Hn). lia.
Qed.

Lemma length_fmt_d n :
  Mmap.fits n -> length (fmt_d Mmap.SIZE_BYTES n) = Mmap.SIZE_BYTES.
Proof.
  unfold Mmap.fits, fmt_d. intros Hn.
  rewrite length_app, length_replicate. lia.
Qed.

(** ** Byte ranges of a file *)

Lemma length_prefix_to p (c : bytes) : length (prefix_to p c) = p.
Proof.
  unfold prefix_to. rewrite length_app, length_take, length_replicate. lia.
Qed.

Lemma prefix_to_le p (c : bytes) : p <= length c -> prefix_to p c = take p c.
Proof.
  intros Hp. unfold prefix_to.
  replace (p - length c) with 0 by lia. apply app_nil_r.
Qed.

Lemma length_write_at p (d c : bytes) :
  length (write_at p d c) = (p + length d) `max` length c.
Proof.
  unfold write_at.
  rewrite !length_app, length_prefix_to, length_drop. lia.
Qed.

(** Two writes in a row are one write of the two texts. *)
Lemma write_at_app p (a b c : bytes) :
  write_at (p + length a) b (write_at p a c) = write_at p (a ++ b) c.
Proof.
  unfold write_at at 1 3.
  assert (Hpre : prefix_to (p + length a) (write_at p a c)
                 = prefix_to p c ++ a).
  { rewrite prefix_to_le by (rewrite length_write_at; lia).
    unfold write_at. rewrite app_assoc.
    rewrite take_app_le
      by (rewrite length_app, length_prefix_to; lia).
    apply take_ge. rewrite length_app, length_prefix_to. lia. }
  rewrite Hpre, <- !app_assoc. do 2 f_equal.
  rewrite length_app. f_equal.
  unfold write_at. rewrite app_assoc.
  rewrite drop_app_ge by (rewrite length_app, length_prefix_to; lia).
  rewrite length_app, length_prefix_to, drop_drop. f_equal. lia.
Qed.

Lemma write_at_nil p (c : bytes) : p <= length c -> write_at p [] c = c.
Proof.
  intros Hp. unfold write_at. rewrite prefix_to_le by assumption.
  cbn [length app]. rewrite Nat.add_0_r. apply take_drop.
Qed.

(** Reading inside what was just written. *)
Lemma read_at_write_at_inside q n p (d c : bytes) :
  p <= q -> q + n <= p + length d ->
  read_at q n (write_at p d c) = read_at (q - p) n d.
Proof.
  intros Hq Hn. unfold read_at, write_at.
  rewrite drop_app_ge by (rewrite length_prefix_to; lia).
  rewrite length_prefix_to.
  rewrite drop_app_le by lia.
  apply take_app_le. rewrite length_drop. lia.
Qed.

(** Reading below a write. *)
Lemma read_at_write_at_before q n p (d c : bytes) :
  q + n <= p -> p <= length c ->
  read_at q n (write_at p d c) = read_at q n c.
Proof.
  intros Hq Hp. unfold read_at, write_at.
  rewrite prefix_to_le by assumption.
  rewrite drop_app_le by (rewrite length_take; lia).
  rewrite take_app_le by (rewrite length_drop, length_take; lia).
  rewrite <- (take_drop p c) at 2.
  rewrite drop_app_le by (rewrite length_take; lia).
  rewrite take_app_le by (rewrite length_drop, length_take; lia).
  reflexivity.
Qed.

(** Reading above a write. *)
Lemma read_at_write_at_after q n p (d c : bytes) :
  p + length d <= q ->
  read_at q n (write_at p d c) = read_at q n c.
Proof.
  intros Hq. unfold read_at, write_at. f_equal.
  rewrite app_assoc.
  rewrite drop_app_ge by (rewrite length_app, length_prefix_to; lia).
  rewrite length_app, length_prefix_to, drop_drop. f_equal. lia.
Qed.

Lemma read_at_app_l q n (a b : bytes) :
  q + n <= length a -> read_at q n (a ++ b) = read_at q n a.
Proof.
  intros Hq. unfold read_at.
  rewrite drop_app_le by lia.
  apply take_app_le. rewrite length_drop. lia.
Qed.

Lemma read_at_app_r q n (a b : bytes) :
  length a <= q -> read_at q n (a ++ b) = read_at (q - length a) n b.
Proof.
  intros Hq. unfold read_at. rewrite drop_app_ge by assumption. reflexivity.
Qed.

Lemma read_at_all (a : bytes) : read_at 0 (length a) a = a.
Proof. unfold read_at. rewrite drop_0. apply take_ge. lia. Qed.

Lemma length_read_at q n (c : bytes) :
  length (read_at q n c) = n `min` (length c - q).
Proof. unfold read_at. rewrite length_take, length_drop. reflexivity. Qed.

(** ** NoSQL: pickling *)

(** X23: [__getstate__] works once after each [__getnewargs__].  Without
    a call of [__getnewargs__] before it, as when pickle runs under a
    protocol older than 2, it raises [RuntimeError] and changes nothing.
    After [__getnewargs__] it returns the path, the read-only flag and the
    cache size and takes the mark back, so that a second [__getstate__]
    raises again. *)
Theorem getstate_needs_getnewargs (b : NoSQL) :
  (new_args_called b = false -> __getstate__ b = (Raise RuntimeError, b)) /\
  (__getnewargs__ ;; __getstate__) b
  = (Ok (path b, read_only b, cache_size b), with_new_args_called false b) /\
  (__getnewargs__ ;; __getstate__ ;; __getstate__) b
  = (Raise RuntimeError, with_new_args_called false b).
Proof.
  split_and!.
  - intros Hn. unfold __getstate__, bind, get_state. rewrite Hn. reflexivity.
  - reflexivity.
  - reflexivity.
Qed.

(** ** MmapDict *)

Module MmapFacts.
Import Mmap.
Section Facts.
Context `{Codec}.

Lemma indices_ok s i :
  index_of s = Some i ->
  indices s = (Ok i, with_indices (Some (Ready i)) s).
Proof.
  unfold index_of, indices. intros E.
  destruct s as [b f m [[j|pk]|] ca inc]; cbn in *; [| |discriminate].
  - injection E as ->. reflexivity.
  - rewrite E. reflexivity.
Qed.

Lemma blob_cons k v items :
  blob ((k, v) :: items) = marshal_dumps v ++ blob items.
Proof. reflexivity. Qed.

Lemma flush_items_ready items : forall p s i,
  indices_dict s = Some (Ready i) ->
  position (file s) = p ->
  p <= length (content (file s)) ->
  (forall kv, kv ∈ items -> is_str kv.1 = true) ->
  flush_items items p s =
  (Ok (p + length (blob items)),
   with_increased (increased_indices_size s + increase items)%N
     (with_file {| content := write_at p (blob items) (content (file s));
                   position := p + length (blob items) |}
        (with_indices (Some (Ready (index_after items p i))) s))).
Proof.
  induction items as [|[k v] items IH]; intros p s i Hi Hp Hle Hstr.
  - destruct s as [b [c q] m idx ca inc]; cbn in *. subst.
    unfold ret, with_increased, with_file, with_indices; cbn.
    rewrite write_at_nil, Nat.add_0_r, N.add_0_r by assumption. reflexivity.
  - assert (Hk : is_str k = true) by (apply (Hstr (k, v)); left).
    destruct k as [k|z]; [clear Hk | discriminate].
    destruct s as [b [c q] m idx ca inc]; cbn in Hi, Hp, Hle. subst.
    cbn [flush_items]. unfold bind at 1. unfold indices at 1. cbn [indices_dict].
    unfold bind at 1, modify at 1. unfold bind at 1, write at 1, modify at 1.
    cbn [py_len]. unfold bind at 1, modify at 1.
    unfold with_indices, with_file, with_increased, file_write.
    cbn [base file mmap indices_dict cache_dict increased_indices_size content position].
    erewrite IH; cbn [base file mmap indices_dict cache_dict increased_indices_size content position]; try reflexivity.
    + unfold with_indices, with_file, with_increased.
      cbn [base file mmap indices_dict cache_dict increased_indices_size content position].
      rewrite blob_cons, length_app, write_at_app. cbn [index_after increase foldr fst snd py_len default].
      rewrite !Nat.add_assoc. do 2 f_equal. fold (increase items). unfold id. lia.
    + rewrite length_write_at. lia.
    + intros kv Hkv. apply Hstr. right. assumption.
Qed.

Lemma flush_items_force items p s i :
  items <> [] -> index_of s = Some i ->
  flush_items items p s =
  flush_items items p (with_indices (Some (Ready i)) s).
Proof.
  intros Hne Hi. destruct items as [|[k v] items]; [congruence|].
  cbn [flush_items].
  rewrite (bind_ok _ _ _ _ _ (indices_ok _ _ Hi)).
  rewrite (bind_ok _ _ _ _ _
             (indices_ok (with_indices (Some (Ready i)) s) i eq_refl)).
  reflexivity.
Qed.

Lemma flush_items_run items p s i :
  index_of s = Some i ->
  position (file s) = p ->
  p <= length (content (file s)) ->
  (forall kv, kv ∈ items -> is_str kv.1 = true) ->
  exists s1,
    flush_items items p s = (Ok (p + length (blob items)), s1) /\
    base s1 = base s /\ cache_dict s1 = cache_dict s /\
    mmap s1 = mmap s /\
    index_of s1 = Some (index_after items p i) /\
    file s1 = {| content := write_at p (blob items) (content (file s));
                 position := p + length (blob items) |} /\
    increased_indices_size s1 = (increased_indices_size s + increase items)%N.
Proof.
  intros Hi Hp Hle Hstr.
  destruct (decide (items = [])) as [->|Hne].
  - exists s. cbn [flush_items blob map concat length index_after increase foldr].
    rewrite write_at_nil, Nat.add_0_r, N.add_0_r by assumption.
    destruct s as [b [c q] m idx ca inc]; cbn in *. subst. repeat split; assumption.
  - rewrite (flush_items_force _ _ _ _ Hne Hi).
    erewrite flush_items_ready; [| reflexivity | exact Hp | exact Hle | exact Hstr ].
    eexists. split; [reflexivity|]. repeat split.
Qed.

Lemma read_int_run s n :
  py_int (read_at (position (file s)) SIZE_BYTES (content (file s))) = Some n ->
  read_int s =
  (Ok n,
   with_file
     {| content := content (file s);
        position := position (file s) +
          length (read_at (position (file s)) SIZE_BYTES (content (file s))) |}
     s).
Proof.
  intros E. unfold read_int, bind, read, file_read. rewrite E. reflexivity.
Qed.

Lemma get_cache_run s c : cache_dict s = Some c -> get_cache s = (Ok c, s).
Proof. intros E. unfold get_cache. rewrite E. reflexivity. Qed.

Lemma save_block_run s i :
  index_of s = Some i ->
  (i0 <- indices ;;
   write (pickle_dumps i0) ;;
   modify (with_increased 0%N) ;;
   ret (length (pickle_dumps i0))) s =
  (Ok (length (pickle_dumps i)),
   with_increased 0%N
     (with_file (file_write (pickle_dumps i) (file s))
        (with_indices (Some (Ready i)) s))).
Proof.
  intros Hi. rewrite (bind_ok _ _ _ _ _ (indices_ok _ _ Hi)). reflexivity.
Qed.

(** The tail of [_flush]: the header, the mapping, the cache. *)
Lemma flush_tail_run s c (max_position indices_length : nat) :
  cache_dict s = Some c ->
  (seek (length HEADER) ;;
   write (fmt_d SIZE_BYTES max_position) ;;
   (if 0 <? indices_length
    then write (fmt_d SIZE_BYTES indices_length)
    else ret tt) ;;
   modify (fun s => with_mmap (length (content (file s))) s) ;;
   _ <- get_cache ;;
   modify (with_cache (Some ∅))) s =
  (Ok tt,
   let hdr := fmt_d SIZE_BYTES max_position ++
              (if 0 <? indices_length
               then fmt_d SIZE_BYTES indices_length else []) in
   let f := {| content := write_at (length HEADER) hdr (content (file s));
               position := length HEADER + length hdr |} in
   with_cache (Some ∅) (with_mmap (length (content f)) (with_file f s))).
Proof.
  intros Hc. destruct s as [b [ct q] m idx ca inc]. cbn in Hc. subst ca.
  destruct (0 <? indices_length).
  - unfold bind, seek, write, modify, get_cache, file_write, file_seek,
      with_file, with_mmap, with_cache.
    cbn [base file mmap indices_dict cache_dict increased_indices_size
         content position].
    rewrite write_at_app, length_app, Nat.add_assoc. reflexivity.
  - unfold bind, seek, write, modify, get_cache, ret, file_write, file_seek,
      with_file, with_mmap, with_cache.
    cbn [base file mmap indices_dict cache_dict increased_indices_size
         content position].
    rewrite app_nil_r. reflexivity.
Qed.

Lemma flush_run s c i e sa :
  wf s c i e -> read_only (base s) = false ->
  let items := map_to_list c in
  let e' := e + length (blob items) in
  let i' := index_after items e i in
  let inc1 := (increased_indices_size s + increase items)%N in
  let save := sa || (MAX_INDICES_SIZE <? inc1)%N in
  let dump := if save then pickle_dumps i' else [] in
  let hdr := fmt_d SIZE_BYTES e' ++
             (if 0 <? length dump then fmt_d SIZE_BYTES (length dump) else []) in
  exists s',
    _flush sa s = (Ok tt, s') /\
    base s' = base s /\
    cache_dict s' = Some ∅ /\
    index_of s' = Some i' /\
    content (file s') =
      write_at (length HEADER) hdr
        (write_at e (blob items ++ dump) (content (file s))) /\
    mmap s' = length (content (file s')) /\
    increased_indices_size s' = (if save then 0 else inc1)%N.
Proof.
  intros [Hopen Hc Hck Hi Hik Hmg He Hel Heu Hr Hm] Hro.
  intros items e' i' inc1 save dump hdr.
  unfold _flush. unfold bind at 1, get_state at 1.
  rewrite Hopen, Hro. cbn [orb].
  unfold bind at 1, seek at 1, modify at 1.
  erewrite bind_ok; [| apply read_int_run; exact He ].
  unfold bind at 1, seek at 1, modify at 1.
  erewrite bind_ok; [| apply get_cache_run; exact Hc ].
  match goal with
  | |- context [bind (flush_items ?it ?p) _ ?st] =>
      destruct (flush_items_run it p st i)
        as (s1 & Hrun & Hb1 & Hc1 & Hm1 & Hi1 & Hf1 & Hinc1);
      [ exact Hi | reflexivity | exact Heu | | ]
  end.
  { intros [k v] Hkv. apply Hck. exists v.
    apply elem_of_map_to_list. exact Hkv. }
  cbn [base file mmap indices_dict cache_dict increased_indices_size
       content position with_file file_seek] in Hb1, Hc1, Hm1, Hf1, Hinc1.
  rewrite (bind_ok _ _ _ _ _ Hrun).
  unfold bind at 1, get_state at 1. rewrite Hinc1.
  fold items inc1 save e' i'. fold i' in Hi1.
  destruct save eqn:Hsave.
  - rewrite (bind_ok _ _ _ _ _ (save_block_run _ _ Hi1)).
    erewrite flush_tail_run by (cbn; rewrite Hc1; exact Hc).
    eexists. split; [reflexivity|].
    cbn [base file mmap indices_dict cache_dict increased_indices_size
         content position with_file with_mmap with_cache with_increased
         with_indices file_write index_of].
    rewrite Hf1. cbn [content position]. rewrite write_at_app.
    repeat split; assumption.
  - unfold bind at 1, ret at 1.
    erewrite flush_tail_run by (rewrite Hc1; exact Hc).
    eexists. split; [reflexivity|].
    cbn [base file mmap indices_dict cache_dict increased_indices_size
         content position with_file with_mmap with_cache with_increased
         with_indices file_write index_of].
    rewrite Hf1. cbn [content position]. subst dump hdr. cbn [length].
    rewrite app_nil_r.
    rewrite !app_nil_r.
    repeat split; assumption.
Qed.

(** *** What the loop of [_flush] leaves in the index *)

Lemma index_after_notin items : forall p i k,
  k ∉ items.*1 -> index_after items p i !! k = i !! k.
Proof.
  induction items as [|[k0 v0] items IH]; intros p i k Hk; [reflexivity|].
  cbn [index_after]. rewrite IH by (intros ?; apply Hk; right; assumption).
  apply lookup_insert_ne. intros ->. apply Hk. left.
Qed.

Lemma index_after_in items : forall p i k v,
  NoDup items.*1 -> (k, v) ∈ items ->
  exists off,
    index_after items p i !! k = Some (off, length (marshal_dumps v)) /\
    p <= off /\
    off + length (marshal_dumps v) <= p + length (blob items) /\
    read_at (off - p) (length (marshal_dumps v)) (blob items)
    = marshal_dumps v.
Proof.
  induction items as [|[k0 v0] items IH]; intros p i k v Hnd Hin.
  - inversion Hin.
  - apply NoDup_cons in Hnd as [Hk0 Hnd].
    rewrite blob_cons, length_app. cbn [index_after].
    apply elem_of_cons in Hin as [Heq|Hin].
    + injection Heq as -> ->. exists p.
      rewrite index_after_notin by exact Hk0.
      rewrite lookup_insert_eq, Nat.sub_diag.
      split_and!; [reflexivity | lia | lia |].
      rewrite read_at_app_l by lia. apply read_at_all.
    + destruct (IH (p + length (marshal_dumps v0))
                  (<[k0 := (p, length (marshal_dumps v0))]> i) k v Hnd Hin)
        as (off & Hl & Hlo & Hhi & Hrd).
      exists off. split_and!; [exact Hl | lia | lia |].
      rewrite read_at_app_r by lia.
      etransitivity; [|exact Hrd]. f_equal. lia.
Qed.

Lemma index_after_keys items p i k :
  is_Some (index_after items p i !! k) ->
  k ∈ items.*1 \/ is_Some (i !! k).
Proof.
  intros Hk. destruct (decide (k ∈ items.*1)) as [Hin|Hout]; [left; exact Hin|].
  right. rewrite index_after_notin in Hk by exact Hout. exact Hk.
Qed.

Lemma map_to_list_fst_elem (c : gmap pykey value) k :
  k ∈ (map_to_list c).*1 <-> is_Some (c !! k).
Proof.
  rewrite list_elem_of_fmap. split.
  - intros ([k' v] & -> & Hin). exists v. apply elem_of_map_to_list. exact Hin.
  - intros [v Hv]. exists (k, v). split; [reflexivity|].
    apply elem_of_map_to_list. exact Hv.
Qed.

(** *** The file never shrinks *)

Lemma grows_ret {A} (a : A) : grows (ret a).
Proof. intros s r s' E. injection E as _ <-. reflexivity. Qed.

Lemma grows_raise {A} e : grows (raise (A := A) e).
Proof. intros s r s' E. injection E as _ <-. reflexivity. Qed.

Lemma grows_bind {A B} (m : M MmapDict A) (f : A -> M MmapDict B) :
  grows m -> (forall a, grows (f a)) -> grows (bind m f).
Proof.
  intros Hm Hf s r s' E. unfold bind in E.
  destruct (m s) as [[a|e] s1] eqn:Em.
  - specialize (Hm _ _ _ Em). specialize (Hf a _ _ _ E). lia.
  - injection E as _ <-. exact (Hm _ _ _ Em).
Qed.

Lemma grows_get_state : grows get_state.
Proof. intros s r s' E. injection E as _ <-. reflexivity. Qed.

Lemma grows_modify (f : MmapDict -> MmapDict) :
  (forall s, length (content (file s)) <= length (content (file (f s)))) ->
  grows (modify f).
Proof. intros Hf s r s' E. injection E as _ <-. apply Hf. Qed.

Lemma grows_get_cache : grows get_cache.
Proof.
  intros s r s' E. unfold get_cache in E.
  destruct (cache_dict s); injection E as _ <-; reflexivity.
Qed.

Lemma grows_indices : grows indices.
Proof.
  intros s r s' E. unfold indices in E.
  destruct (indices_dict s) as [[i|pk]|]; [| |].
  - injection E as _ <-. reflexivity.
  - destruct (pickle_loads pk); injection E as _ <-; reflexivity.
  - injection E as _ <-. reflexivity.
Qed.

Lemma grows_seek p : grows (seek p).
Proof. apply grows_modify. reflexivity. Qed.

Lemma grows_write d : grows (write d).
Proof.
  apply grows_modify. intros s. cbn [with_file file file_write content].
  rewrite length_write_at. lia.
Qed.

Lemma grows_read_int : grows read_int.
Proof.
  apply grows_bind.
  - intros s r s' E. unfold read, file_read in E. injection E as _ <-.
    reflexivity.
  - intros a. destruct (py_int a); [apply grows_ret | apply grows_raise].
Qed.

Lemma grows_flush_items items : forall p, grows (flush_items items p).
Proof.
  induction items as [|[k v] items IH]; intros p; cbn [flush_items].
  - apply grows_ret.
  - apply grows_bind; [apply grows_indices|]. intros i.
    apply grows_bind; [apply grows_modify; reflexivity|]. intros _.
    apply grows_bind; [apply grows_write|]. intros _.
    destruct (py_len k); [|apply grows_raise].
    apply grows_bind; [apply grows_modify; reflexivity|]. intros _.
    apply IH.
Qed.

Lemma grows__flush sa : grows (_flush sa).
Proof.
  unfold _flush.
  apply grows_bind; [apply grows_get_state|]. intros s0.
  destruct (is_closed (base s0) || read_only (base s0)); [apply grows_ret|].
  apply grows_bind; [apply grows_seek|]. intros _.
  apply grows_bind; [apply grows_read_int|]. intros e.
  apply grows_bind; [apply grows_seek|]. intros _.
  apply grows_bind; [apply grows_get_cache|]. intros c.
  apply grows_bind; [apply grows_flush_items|]. intros e'.
  apply grows_bind; [apply grows_get_state|]. intros s1.
  apply grows_bind.
  { destruct (sa || _); [|apply grows_ret].
    apply grows_bind; [apply grows_indices|]. intros i.
    apply grows_bind; [apply grows_write|]. intros _.
    apply grows_bind; [apply grows_modify; reflexivity|]. intros _.
    apply grows_ret. }
  intros n.
  apply grows_bind; [apply grows_seek|]. intros _.
  apply grows_bind; [apply grows_write|]. intros _.
  apply grows_bind.
  { destruct (0 <? n); [apply grows_write | apply grows_ret]. }
  intros _.
  apply grows_bind; [apply grows_modify; reflexivity|]. intros _.
  apply grows_bind; [apply grows_get_cache|]. intros _.
  apply grows_modify. reflexivity.
Qed.

Lemma grows_flush sa : grows (flush sa).
Proof.
  unfold flush.
  apply grows_bind; [apply grows_get_state|]. intros s0.
  destruct (read_only (base s0) || is_closed (base s0));
    [apply grows_ret | apply grows__flush].
Qed.

Lemma grows_setitem k v : grows (__setitem__ k v).
Proof.
  unfold __setitem__.
  apply grows_bind; [apply grows_get_state|]. intros s0.
  destruct (read_only (base s0)); [apply grows_ret|].
  apply grows_bind; [apply grows_get_cache|]. intros c.
  apply grows_bind; [apply grows_modify; reflexivity|]. intros _.
  apply grows_bind; [apply grows_get_cache|]. intros c'.
  destruct (_ <? _)%Z; [apply grows_flush | apply grows_ret].
Qed.


(** *** What a flush leaves *)

Lemma length_HEADER : length HEADER = 8.
Proof. reflexivity. Qed.

Lemma data_end_header (hdr rest : bytes) e' (W : bytes) :
  fits e' ->
  data_end (write_at (length HEADER) (fmt_d SIZE_BYTES e' ++ rest) W)
  = Some e'.
Proof.
  intros Hfit. unfold data_end.
  rewrite read_at_write_at_inside
    by (rewrite ?length_app, ?length_fmt_d by exact Hfit; lia).
  rewrite Nat.sub_diag.
  rewrite read_at_app_l by (rewrite length_fmt_d by exact Hfit; lia).
  rewrite <- (length_fmt_d e') at 1 by exact Hfit.
  rewrite read_at_all. apply py_int_fmt_d.
Qed.

(** A flush of a well-formed store that stays within the header's width
    succeeds and leaves a well-formed store with an empty cache: the pending
    entries are in the index and in the file, and the entries that were
    there still are. *)
Lemma flush_wf s c i e sa :
  wf s c i e -> read_only (base s) = false ->
  fits (length (content (file (_flush sa s).2))) ->
  exists s',
    _flush sa s = (Ok tt, s') /\
    wf s' ∅ (index_after (map_to_list c) e i)
       (e + length (blob (map_to_list c))) /\
    base s' = base s /\
    (forall k v, c !! k = Some v -> holds s' k v) /\
    (forall k v, c !! k = None -> holds s k v -> holds s' k v) /\
    (forall k, is_Some (index_after (map_to_list c) e i !! k)
               <-> is_Some (c !! k) \/ is_Some (i !! k)).
Proof.
  intros Hwf Hro Hfit.
  destruct (flush_run s c i e sa Hwf Hro)
    as (s' & Hrun & Hb & Hc' & Hi' & Hct & Hm' & Hinc').
  destruct Hwf as [Hopen Hc Hck Hi Hik Hmg He Hel Heu Hr Hm].
  rewrite Hrun in Hfit. cbn [snd] in Hfit.
  set (items := map_to_list c) in *.
  set (e' := e + length (blob items)) in *.
  set (i' := index_after items e i) in *.
  set (dump := if sa || _ then pickle_dumps i' else []) in *.
  set (W := write_at e (blob items ++ dump) (content (file s))) in *.
  assert (HW : length W = (e + length (blob items) + length dump)
                            `max` length (content (file s))).
  { subst W. rewrite length_write_at, length_app. lia. }
  assert (Hfe : fits e').
  { eapply fits_mono; [|exact Hfit]. rewrite Hct, length_write_at. lia. }
  assert (Hfd : fits (length dump)).
  { eapply fits_mono; [|exact Hfit]. rewrite Hct, length_write_at. lia. }
  assert (Hhdr : length (fmt_d SIZE_BYTES e' ++
                   (if 0 <? length dump
                    then fmt_d SIZE_BYTES (length dump) else []))
                 <= SIZE_BYTES * 2).
  { rewrite length_app, length_fmt_d by exact Hfe.
    destruct (0 <? length dump);
      [rewrite length_fmt_d by exact Hfd | cbn [length]]; lia. }
  rewrite length_HEADER in *.
  assert (Hnd : NoDup items.*1) by apply NoDup_fst_map_to_list.
  assert (Hnew : forall k v, c !! k = Some v ->
            exists off,
              i' !! k = Some (off, length (marshal_dumps v)) /\
              e <= off /\ off + length (marshal_dumps v) <= e' /\
              read_at off (length (marshal_dumps v)) (content (file s'))
              = marshal_dumps v).
  { intros k v Hkv.
    destruct (index_after_in items e i k v Hnd) as (off & Hl & Hlo & Hhi & Hrd).
    { apply elem_of_map_to_list. exact Hkv. }
    exists off. split_and!; [exact Hl | exact Hlo | exact Hhi |].
    rewrite Hct, ?length_HEADER.
    rewrite read_at_write_at_after by lia.
    fold W. subst W.
    rewrite read_at_write_at_inside by (rewrite ?length_app; lia).
    rewrite read_at_app_l by lia. exact Hrd. }
  exists s'. split_and!.
  - exact Hrun.
  - constructor.
    + rewrite Hb. exact Hopen.
    + exact Hc'.
    + intros k [v Hv]. rewrite lookup_empty in Hv. discriminate.
    + exact Hi'.
    + intros k Hk. apply index_after_keys in Hk as [Hk|Hk].
      * apply Hck. apply map_to_list_fst_elem. exact Hk.
      * apply Hik. exact Hk.
    + rewrite Hct, ?length_HEADER.
      rewrite read_at_write_at_before by lia.
      fold W. subst W.
      rewrite read_at_write_at_before by lia. exact Hmg.
    + rewrite Hct. apply data_end_header; [exact [] | exact Hfe].
    + rewrite ?length_HEADER. lia.
    + rewrite Hct, length_write_at. lia.
    + intros k off len Hk. rewrite ?length_HEADER.
      destruct (c !! k) as [v|] eqn:Hck'.
      * destruct (Hnew k v Hck') as (off' & Hl & Hlo & Hhi & _).
        rewrite Hl in Hk. injection Hk as <- <-. lia.
      * subst i'. rewrite index_after_notin in Hk.
        -- apply Hr in Hk. rewrite ?length_HEADER in Hk. lia.
        -- subst items. rewrite map_to_list_fst_elem, Hck'. intros [? ?]. discriminate.
    + exact Hm'.
  - exact Hb.
  - intros k v Hkv. destruct (Hnew k v Hkv) as (off & Hl & _ & _ & Hrd).
    exists i', off, (length (marshal_dumps v)). split_and!; assumption.
  - intros k v Hkv (i0 & off & len & Hi0 & Hl & Hrd).
    rewrite Hi in Hi0. injection Hi0 as <-.
    exists i', off, len. split_and!; [exact Hi' | |].
    + subst i'. rewrite index_after_notin; [exact Hl|].
      subst items. rewrite map_to_list_fst_elem, Hkv. intros [? ?]. discriminate.
    + apply Hr in Hl. rewrite ?length_HEADER in Hl.
      rewrite Hct, ?length_HEADER.
      rewrite read_at_write_at_after by lia.
      fold W. subst W.
      rewrite read_at_write_at_before by lia. exact Hrd.
  - intros k. split.
    + intros Hk. apply index_after_keys in Hk as [Hk|Hk]; [left|right; exact Hk].
      apply map_to_list_fst_elem. exact Hk.
    + intros [[v Hv]|Hk].
      * destruct (Hnew k v Hv) as (off & Hl & _). rewrite Hl. eexists. reflexivity.
      * destruct (c !! k) as [v|] eqn:Hck'.
        -- destruct (Hnew k v Hck') as (off & Hl & _). rewrite Hl.
           eexists. reflexivity.
        -- subst i'. rewrite index_after_notin; [exact Hk|].
           subst items. rewrite map_to_list_fst_elem, Hck'. intros [? ?]. discriminate.
Qed.

(** *** The dictionary methods on a well-formed store *)

Lemma fits_before {A} (m : M MmapDict A) s :
  grows m ->
  fits (length (content (file (m s).2))) ->
  fits (length (content (file s))).
Proof.
  intros Hg Hfit. destruct (m s) as [r s'] eqn:E.
  eapply fits_mono; [exact (Hg _ _ _ E) | exact Hfit].
Qed.

Lemma flush_is__flush sa s :
  read_only (base s) = false -> is_closed (base s) = false ->
  flush sa s = _flush sa s.
Proof.
  intros Hro Hop. unfold flush, bind at 1, get_state.
  rewrite Hro, Hop. reflexivity.
Qed.

Lemma wf_set_cache s c i e k v :
  wf s c i e ->
  wf (with_cache (Some (<[KStr k := v]> c)) s) (<[KStr k := v]> c) i e.
Proof.
  intros [Hopen Hc Hck Hi Hik Hmg He Hel Heu Hr Hm].
  constructor; try assumption; [reflexivity|].
  intros k' Hk'. destruct (decide (KStr k = k')) as [<-|Hne]; [reflexivity|].
  rewrite lookup_insert_ne in Hk' by exact Hne. apply Hck. exact Hk'.
Qed.

Lemma wf_force s c i e :
  wf s c i e -> wf (with_indices (Some (Ready i)) s) c i e.
Proof.
  intros [Hopen Hc Hck Hi Hik Hmg He Hel Heu Hr Hm].
  constructor; try assumption. reflexivity.
Qed.

Lemma setitem_run s c k v :
  read_only (base s) = false -> cache_dict s = Some c ->
  __setitem__ k v s =
  let c' := <[KStr (str k) := v]> c in
  let s1 := with_cache (Some c') s in
  if (cache_size (base s) <? Z.of_nat (size c'))%Z
  then flush false s1
  else (Ok tt, s1).
Proof.
  intros Hro Hc. unfold __setitem__. unfold bind at 1, get_state at 1.
  rewrite Hro.
  rewrite (bind_ok _ _ _ _ _ (get_cache_run _ _ Hc)).
  unfold bind at 1, modify at 1.
  erewrite bind_ok; [| apply get_cache_run; reflexivity ].
  cbn zeta. destruct (_ <? _)%Z; reflexivity.
Qed.

Lemma setitem_read_only s k v :
  read_only (base s) = true -> __setitem__ k v s = (Ok tt, s).
Proof.
  intros Hro. unfold __setitem__, bind, get_state. rewrite Hro. reflexivity.
Qed.

Lemma getitem_cached s c k v :
  cache_dict s = Some c -> c !! k = Some v ->
  __getitem__ k s = (Ok v, s).
Proof.
  intros Hc Hk. unfold __getitem__.
  rewrite (bind_ok _ _ _ _ _ (get_cache_run _ _ Hc)), Hk. reflexivity.
Qed.

Lemma getitem_missing s c i k :
  cache_dict s = Some c -> index_of s = Some i ->
  c !! k = None -> i !! k = None ->
  __getitem__ k s = (Raise KeyError, with_indices (Some (Ready i)) s).
Proof.
  intros Hc Hi Hck Hik. unfold __getitem__.
  rewrite (bind_ok _ _ _ _ _ (get_cache_run _ _ Hc)), Hck.
  rewrite (bind_ok _ _ _ _ _ (indices_ok _ _ Hi)), Hik. reflexivity.
Qed.

Lemma getitem_stored s c i e k v :
  wf s c i e -> c !! k = None -> holds s k v -> supported v ->
  __getitem__ k s = (Ok v, with_indices (Some (Ready i)) s).
Proof.
  intros Hwf Hck (i0 & off & len & Hi0 & Hl & Hrd) Hv.
  destruct Hwf as [Hopen Hc Hck' Hi Hik Hmg He Hel Heu Hr Hm].
  rewrite Hi in Hi0. injection Hi0 as <-.
  unfold __getitem__.
  rewrite (bind_ok _ _ _ _ _ (get_cache_run _ _ Hc)), Hck.
  rewrite (bind_ok _ _ _ _ _ (indices_ok _ _ Hi)), Hl.
  apply Hr in Hl.
  unfold bind, mmap_read. cbn [with_indices mmap file].
  rewrite Hm.
  destruct (Nat.ltb_spec (length (content (file s))) off) as [Hlt|_]; [lia|].
  rewrite take_ge by lia. rewrite Hrd. unfold loads.
  rewrite Hv. reflexivity.
Qed.

Lemma contains_run s c i k :
  cache_dict s = Some c -> index_of s = Some i ->
  (__contains__ k s).1 =
  Ok (bool_decide (is_Some (i !! k)) || bool_decide (is_Some (c !! k))).
Proof.
  intros Hc Hi. unfold __contains__.
  rewrite (bind_ok _ _ _ _ _ (indices_ok _ _ Hi)).
  destruct (bool_decide (is_Some (i !! k))); [reflexivity|].
  erewrite bind_ok; [| apply get_cache_run; exact Hc ]. reflexivity.
Qed.

Lemma wf_no_int_key s c i e z :
  wf s c i e -> c !! KInt z = None /\ i !! KInt z = None.
Proof.
  intros Hwf. split.
  - destruct (c !! KInt z) eqn:E; [|reflexivity].
    assert (Hs : is_str (KInt z) = true)
      by (apply (wf_cache_keys _ _ _ _ Hwf); rewrite E; eexists; reflexivity).
    discriminate.
  - destruct (i !! KInt z) eqn:E; [|reflexivity].
    assert (Hs : is_str (KInt z) = true)
      by (apply (wf_index_keys _ _ _ _ Hwf); rewrite E; eexists; reflexivity).
    discriminate.
Qed.

(** [set; flush] on a well-formed writable store that stays within the
    header's width: it succeeds, the cache is empty, and the entry is in
    the file under the string of its key. *)
Lemma set_flush_wf s c i e k v :
  wf s c i e -> read_only (base s) = false ->
  fits (length (content (file
          ((__setitem__ k v ;; flush false) s).2))) ->
  exists s' i' e',
    (__setitem__ k v ;; flush false) s = (Ok tt, s') /\
    wf s' ∅ i' e' /\
    holds s' (KStr (str k)) v.
Proof.
  intros Hwf Hro Hfit.
  pose proof (wf_set_cache _ _ _ _ (str k) v Hwf) as Hwf1.
  pose proof (wf_open _ _ _ _ Hwf) as Hop.
  set (c' := <[KStr (str k) := v]> c) in *.
  set (s1 := with_cache (Some c') s) in *.
  assert (Hset := setitem_run s c k v Hro (wf_cache _ _ _ _ Hwf)).
  cbn zeta in Hset. fold c' s1 in Hset.
  assert (Hkc' : c' !! KStr (str k) = Some v) by apply lookup_insert_eq.
  destruct (cache_size (base s) <? Z.of_nat (size c'))%Z.
  - (* the flush is triggered by [set] *)
    rewrite (flush_is__flush _ s1) in Hset by assumption.
    assert (Hfit1 : fits (length (content (file (_flush false s1).2)))).
    { unfold bind in Hfit. rewrite Hset in Hfit.
      destruct (_flush false s1) as [[[]|ex] s2] eqn:E2; cbn [snd] in *;
        [|exact Hfit].
      exact (fits_before (flush false) s2 (grows_flush false) Hfit). }
    destruct (flush_wf s1 c' i e false Hwf1 Hro Hfit1)
      as (s2 & Hrun2 & Hwf2 & Hb2 & Hnew2 & _ & _).
    rewrite Hrun2 in Hset.
    rewrite (bind_ok _ _ _ _ _ Hset) in Hfit |- *.
    pose proof (wf_open _ _ _ _ Hwf2) as Hop2.
    assert (Hro2 : read_only (base s2) = false) by (rewrite Hb2; exact Hro).
    rewrite (flush_is__flush _ s2) in Hfit |- * by assumption.
    destruct (flush_wf s2 ∅ _ _ false Hwf2 Hro2 Hfit)
      as (s3 & Hrun3 & Hwf3 & _ & _ & Hold3 & _).
    eexists s3, _, _. split_and!; [exact Hrun3 | exact Hwf3 |].
    apply Hold3; [apply lookup_empty|]. apply Hnew2. exact Hkc'.
  - rewrite (bind_ok _ _ _ _ _ Hset) in Hfit |- *.
    rewrite (flush_is__flush _ s1) in Hfit |- * by assumption.
    destruct (flush_wf s1 c' i e false Hwf1 Hro Hfit)
      as (s2 & Hrun2 & Hwf2 & _ & Hnew2 & _ & _).
    eexists s2, _, _. split_and!; [exact Hrun2 | exact Hwf2 |].
    apply Hnew2. exact Hkc'.
Qed.


(** *** A store created on an empty path *)

Lemma restore_new b :
  read_only b = false -> _restore_dict b None = Ok (created b).
Proof. intros Hro. unfold _restore_dict. rewrite Hro. reflexivity. Qed.

Lemma created_wf b :
  is_closed b = false -> wf (created b) ∅ ∅ 104.
Proof.
  intros Hop. constructor.
  - exact Hop.
  - reflexivity.
  - intros k [v Hv]. rewrite lookup_empty in Hv. discriminate.
  - reflexivity.
  - intros k [v Hv]. rewrite lookup_empty in Hv. discriminate.
  - reflexivity.
  - vm_compute. reflexivity.
  - vm_compute. apply le_n.
  - vm_compute. apply le_n.
  - intros k off len Hk. rewrite lookup_empty in Hk. discriminate.
  - reflexivity.
Qed.

(** *** Reopening a file *)

Lemma restore_existing b (ct : bytes) e n :
  read_at 0 (length HEADER) ct = HEADER ->
  data_end ct = Some e ->
  index_length ct = Some n ->
  length HEADER + SIZE_BYTES * 2 <= length ct ->
  _restore_dict b (Some ct) =
  Ok {| base := b;
        file := {| content := ct;
                   position := e + length (read_at e n ct) |};
        mmap := length ct;
        indices_dict := Some (Deferred (read_at e n ct));
        cache_dict := Some ∅;
        increased_indices_size := 0 |}.
Proof.
  intros Hmg He Hn Hlen. unfold data_end, index_length in *.
  rewrite length_HEADER in *.
  destruct ct as [|c0 ct']; [cbn in Hlen; lia|].
  unfold _restore_dict.
  set (ct := c0 :: ct') in *.
  unfold file_read at 1. cbn [position content].
  rewrite length_HEADER, Hmg. rewrite bool_decide_eq_true_2 by reflexivity.
  cbn [negb]. rewrite length_HEADER.
  unfold file_read at 1. cbn [position content]. change (0 + 8) with 8.
  rewrite He.
  unfold file_read at 1. cbn [position content].
  assert (Hl1 : length (read_at 8 SIZE_BYTES ct) = SIZE_BYTES).
  { rewrite length_read_at. unfold SIZE_BYTES in *. lia. }
  rewrite Hl1, Hn.
  unfold file_read, file_seek. cbn [position content]. reflexivity.
Qed.

(** *** A flush that does not save the index *)

Lemma flush_nosave s c i e n :
  wf s c i e -> read_only (base s) = false ->
  index_length (content (file s)) = Some n ->
  (increased_indices_size s + increase (map_to_list c)
   <= MAX_INDICES_SIZE)%N ->
  fits (length (content (file (_flush false s).2))) ->
  exists s',
    _flush false s = (Ok tt, s') /\
    index_length (content (file s')) = Some n /\
    increased_indices_size s' =
      (increased_indices_size s + increase (map_to_list c))%N /\
    (forall q m,
       e + length (blob (map_to_list c)) <= q ->
       read_at q m (content (file s')) = read_at q m (content (file s))).
Proof.
  intros Hwf Hro Hn Hinc Hfit.
  destruct (flush_run s c i e false Hwf Hro)
    as (s' & Hrun & _ & _ & _ & Hct & _ & Hinc').
  destruct Hwf as [Hopen Hc Hck Hi Hik Hmg He Hel Heu Hr Hm].
  rewrite Hrun in Hfit. cbn [snd] in Hfit.
  assert (Hsave : (MAX_INDICES_SIZE <?
                   increased_indices_size s + increase (map_to_list c))%N
                  = false) by (apply N.ltb_ge; exact Hinc).
  rewrite Hsave in Hct, Hinc'. cbn [orb length] in Hct, Hinc'.
  change (0 <? 0) with false in Hct. cbn iota in Hct.
  rewrite !app_nil_r in Hct.
  set (e' := e + length (blob (map_to_list c))) in *.
  assert (Hfe : fits e').
  { eapply fits_mono; [|exact Hfit].
    rewrite Hct, !length_write_at. lia. }
  pose proof (length_fmt_d e' Hfe) as Hlen.
  rewrite length_HEADER in *. unfold SIZE_BYTES in *.
  exists s'. split_and!; [exact Hrun | | exact Hinc' |].
  - unfold index_length. rewrite length_HEADER, Hct.
    rewrite read_at_write_at_after by (unfold SIZE_BYTES; lia).
    rewrite read_at_write_at_before by (unfold SIZE_BYTES; lia).
    exact Hn.
  - intros q m Hq. rewrite Hct.
    rewrite read_at_write_at_after by lia.
    apply read_at_write_at_after. fold e'. lia.
Qed.

Lemma increase_singleton k v :
  increase (map_to_list (<[KStr k := v]> (∅ : gmap pykey value)))
  = (8 + 8 + N.of_nat (String.length k) + 0)%N.
Proof. rewrite insert_empty, map_to_list_singleton. reflexivity. Qed.

Lemma indices_deferred_bad s blob :
  indices_dict s = Some (Deferred blob) -> pickle_loads blob = None ->
  indices s = (Raise UnpicklingError, s).
Proof. intros E Hb. unfold indices. rewrite E, Hb. reflexivity. Qed.

(** What [_restore_dict] finds after a flush that did not save the
    index: the header, the new end of the records, the old length of the
    index, and the bytes of the old file past the new end. *)
Lemma restore_after_nosave b s2 i2 e2 n (old : bytes) :
  wf s2 ∅ i2 e2 ->
  index_length (content (file s2)) = Some n ->
  (forall q m, e2 <= q -> read_at q m (content (file s2)) = read_at q m old) ->
  exists s3,
    _restore_dict b (Some (content (file s2))) = Ok s3 /\
    indices_dict s3 = Some (Deferred (read_at e2 n old)).
Proof.
  intros Hwf Hn Htail.
  destruct Hwf as [Hopen Hc Hck Hi Hik Hmg He Hel Heu Hr Hm].
  eexists. split.
  - apply (restore_existing b _ e2 n); [exact Hmg | exact He | exact Hn | lia].
  - cbn [indices_dict]. rewrite Htail by lia. reflexivity.
Qed.

(** [set; flush] below the threshold of the index: the second header field
    and the bytes past the new end of the records are those of the old
    file. *)
Lemma set_flush_nosave s c i e n k v :
  wf s c i e -> read_only (base s) = false ->
  index_length (content (file s)) = Some n ->
  (increased_indices_size s +
   increase (map_to_list (<[KStr (str k) := v]> c)) <= MAX_INDICES_SIZE)%N ->
  fits (length (content (file
          ((__setitem__ k v ;; flush false) s).2))) ->
  exists s' i' e',
    (__setitem__ k v ;; flush false) s = (Ok tt, s') /\
    wf s' ∅ i' e' /\
    holds s' (KStr (str k)) v /\
    index_length (content (file s')) = Some n /\
    (forall q m, e' <= q ->
       read_at q m (content (file s')) = read_at q m (content (file s))).
Proof.
  intros Hwf Hro Hn Hinc Hfit.
  pose proof (wf_set_cache _ _ _ _ (str k) v Hwf) as Hwf1.
  pose proof (wf_open _ _ _ _ Hwf) as Hop.
  set (c' := <[KStr (str k) := v]> c) in *.
  set (s1 := with_cache (Some c') s) in *.
  assert (Hset := setitem_run s c k v Hro (wf_cache _ _ _ _ Hwf)).
  cbn zeta in Hset. fold c' s1 in Hset.
  assert (Hkc' : c' !! KStr (str k) = Some v) by apply lookup_insert_eq.
  destruct (cache_size (base s) <? Z.of_nat (size c'))%Z.
  - rewrite (flush_is__flush _ s1) in Hset by assumption.
    assert (Hfit1 : fits (length (content (file (_flush false s1).2)))).
    { unfold bind in Hfit. rewrite Hset in Hfit.
      destruct (_flush false s1) as [[[]|ex] s2] eqn:E2; cbn [snd] in *;
        [|exact Hfit].
      exact (fits_before (flush false) s2 (grows_flush false) Hfit). }
    destruct (flush_wf s1 c' i e false Hwf1 Hro Hfit1)
      as (s2 & Hrun2 & Hwf2 & Hb2 & Hnew2 & _ & _).
    destruct (flush_nosave s1 c' i e n Hwf1 Hro Hn Hinc Hfit1)
      as (s2' & Hrun2' & Hn2 & Hinc2 & Htail2).
    rewrite Hrun2 in Hrun2'. injection Hrun2' as <-.
    rewrite Hrun2 in Hset.
    rewrite (bind_ok _ _ _ _ _ Hset) in Hfit |- *.
    pose proof (wf_open _ _ _ _ Hwf2) as Hop2.
    assert (Hro2 : read_only (base s2) = false) by (rewrite Hb2; exact Hro).
    rewrite (flush_is__flush _ s2) in Hfit |- * by assumption.
    destruct (flush_wf s2 ∅ _ _ false Hwf2 Hro2 Hfit)
      as (s3 & Hrun3 & Hwf3 & _ & _ & Hold3 & _).
    destruct (flush_nosave s2 ∅ _ _ n Hwf2 Hro2 Hn2) as
      (s3' & Hrun3' & Hn3 & _ & Htail3).
    { rewrite Hinc2, map_to_list_empty. cbn [increase foldr].
      rewrite N.add_0_r. exact Hinc. }
    { exact Hfit. }
    rewrite Hrun3 in Hrun3'. injection Hrun3' as <-.
    eexists s3, _, _. split_and!; [exact Hrun3 | exact Hwf3 | | exact Hn3 |].
    + apply Hold3; [apply lookup_empty|]. apply Hnew2. exact Hkc'.
    + intros q m Hq. rewrite Htail3 by exact Hq.
      apply Htail2. rewrite map_to_list_empty in Hq. cbn [blob map concat length] in Hq.
      lia.
  - rewrite (bind_ok _ _ _ _ _ Hset) in Hfit |- *.
    rewrite (flush_is__flush _ s1) in Hfit |- * by assumption.
    destruct (flush_wf s1 c' i e false Hwf1 Hro Hfit)
      as (s2 & Hrun2 & Hwf2 & _ & Hnew2 & _ & _).
    destruct (flush_nosave s1 c' i e n Hwf1 Hro Hn Hinc Hfit)
      as (s2' & Hrun2' & Hn2 & Hinc2 & Htail2).
    rewrite Hrun2 in Hrun2'. injection Hrun2' as <-.
    eexists s2, _, _. split_and!; [exact Hrun2 | exact Hwf2 | | exact Hn2 |].
    + apply Hnew2. exact Hkc'.
    + exact Htail2.
Qed.

(** *** The capacity of the cache *)

Lemma set_triggers_flush s c i e k v :
  wf s c i e -> read_only (base s) = false ->
  let c' := <[KStr (str k) := v]> c in
  ((cache_size (base s) < Z.of_nat (size c'))%Z ->
   __setitem__ k v s = _flush false (with_cache (Some c') s) /\
   (fits (length (content (file (__setitem__ k v s).2))) ->
    exists s',
      __setitem__ k v s = (Ok tt, s') /\
      cache_dict s' = Some ∅ /\
      forall k' v', c' !! k' = Some v' -> holds s' k' v')) /\
  ((Z.of_nat (size c') <= cache_size (base s))%Z ->
   __setitem__ k v s = (Ok tt, with_cache (Some c') s)).
Proof.
  intros Hwf Hro c'.
  pose proof (setitem_run s c k v Hro (wf_cache _ _ _ _ Hwf)) as Hset.
  cbn zeta in Hset. fold c' in Hset.
  pose proof (wf_set_cache _ _ _ _ (str k) v Hwf) as Hwf1. fold c' in Hwf1.
  split; intros Hsize.
  - destruct (Z.ltb_spec (cache_size (base s)) (Z.of_nat (size c')));
      [|lia].
    rewrite flush_is__flush in Hset
      by (try exact Hro; exact (wf_open _ _ _ _ Hwf)).
    split; [exact Hset|]. rewrite Hset. intros Hfit.
    destruct (flush_wf _ c' i e false Hwf1 Hro Hfit)
      as (s' & Hrun & Hwf' & _ & Hnew & _).
    exists s'. split_and!; [exact Hrun | exact (wf_cache _ _ _ _ Hwf') |].
    exact Hnew.
  - destruct (Z.ltb_spec (cache_size (base s)) (Z.of_nat (size c')));
      [lia|]. exact Hset.
Qed.

(** *** Deleting *)

Lemma delitem_read_only s key :
  read_only (base s) = true -> __delitem__ key s = (Ok tt, s).
Proof.
  intros Hro. unfold __delitem__, bind, get_state. rewrite Hro. reflexivity.
Qed.

Lemma delitem_index s c i key e :
  read_only (base s) = false -> cache_dict s = Some c ->
  index_of s = Some i -> c !! key = None -> i !! key = Some e ->
  __delitem__ key s =
  (Ok tt, with_indices (Some (Ready (delete key i))) s).
Proof.
  intros Hro Hc Hi Hck Hik. unfold __delitem__.
  unfold bind at 1, get_state at 1. rewrite Hro.
  rewrite (bind_ok _ _ _ _ _ (get_cache_run _ _ Hc)), Hck.
  rewrite bool_decide_eq_false_2 by (intros [? ?]; discriminate).
  rewrite (bind_ok _ _ _ _ _ (indices_ok _ _ Hi)), Hik. reflexivity.
Qed.

(** C5 (the code departs from the claim): on a writable store, deleting a
    key that is pending in the write-cache removes the whole [_cache_dict]
    attribute, not that key's entry: another pending entry, readable
    before, is gone and reading it raises [AttributeError]. *)
Theorem C5_delete_drops_the_cache s c key v k' v' :
  read_only (base s) = false ->
  cache_dict s = Some c ->
  c !! key = Some v -> c !! k' = Some v' -> key <> k' ->
  __getitem__ k' s = (Ok v', s) /\
  __delitem__ key s = (Ok tt, with_cache None s) /\
  (__delitem__ key ;; __getitem__ k') s
  = (Raise AttributeError, with_cache None s).
Proof.
  intros Hro Hc Hk Hk' Hne.
  assert (Hdel : __delitem__ key s = (Ok tt, with_cache None s)).
  { unfold __delitem__. unfold bind at 1, get_state at 1. rewrite Hro.
    rewrite (bind_ok _ _ _ _ _ (get_cache_run _ _ Hc)), Hk.
    rewrite bool_decide_eq_true_2 by (eexists; reflexivity). reflexivity. }
  split_and!.
  - exact (getitem_cached s c k' v' Hc Hk').
  - exact Hdel.
  - rewrite (bind_ok _ _ _ _ _ Hdel). reflexivity.
Qed.

(** C3 (the code departs from the claim): on a store just created, [set]
    and a [flush] that does not save the index succeed and the record is in
    the file, but the header then gives the new end of the records with the
    old index length, zero: the index read back from the file is the empty
    byte string, which [cPickle.loads] refuses, so reopening the file gives
    a store whose index cannot be loaded. *)
Theorem C3_flush_without_index b k v :
  read_only b = false -> is_closed b = false ->
  pickle_loads [] = None ->
  (8 + 8 + N.of_nat (String.length k) <= MAX_INDICES_SIZE)%N ->
  fits (length (content (file
          ((__setitem__ (KStr k) v ;; flush false) (created b)).2))) ->
  exists s2 s3,
    _restore_dict b None = Ok (created b) /\
    (__setitem__ (KStr k) v ;; flush false) (created b) = (Ok tt, s2) /\
    holds s2 (KStr k) v /\
    index_blob (content (file s2)) = Some [] /\
    _restore_dict b (Some (content (file s2))) = Ok s3 /\
    indices s3 = (Raise UnpicklingError, s3).
Proof.
  intros Hro Hop Hnil Hinc Hfit.
  pose proof (created_wf b Hop) as Hwf.
  destruct (set_flush_nosave (created b) ∅ ∅ 104 0 (KStr k) v Hwf Hro)
    as (s2 & i2 & e2 & Hrun & Hwf2 & Hh & Hn2 & Htail).
  { vm_compute. reflexivity. }
  { cbn [str]. rewrite increase_singleton.
    cbn [created increased_indices_size]. lia. }
  { exact Hfit. }
  destruct (restore_after_nosave b s2 i2 e2 0 _ Hwf2 Hn2 Htail)
    as (s3 & Hres & Hidx).
  exists s2, s3. split_and!.
  - apply restore_new. exact Hro.
  - exact Hrun.
  - exact Hh.
  - unfold index_blob. rewrite (wf_end _ _ _ _ Hwf2), Hn2. reflexivity.
  - exact Hres.
  - apply (indices_deferred_bad s3 []); [exact Hidx | exact Hnil].
Qed.

(** C10: a store whose keys are strings coerces an integer key on [set]
    only.  While the entry is pending it sits in the cache under
    [str(k)], and [get] with the integer raises [KeyError]; once flushed,
    [get] and [in] with the integer still miss, and the string of the key
    retrieves the value. *)
Theorem C10_key_coerced_on_set_only s c i e z v :
  wf s c i e -> read_only (base s) = false -> supported v ->
  let k := KInt z in
  let c' := <[KStr (str k) := v]> c in
  ((Z.of_nat (size c') <= cache_size (base s))%Z ->
   exists s1,
     __setitem__ k v s = (Ok tt, s1) /\
     cache_dict s1 = Some c' /\
     (__getitem__ k s1).1 = Raise KeyError /\
     (__getitem__ (KStr (str k)) s1).1 = Ok v) /\
  (fits (length (content (file
           ((__setitem__ k v ;; flush false) s).2))) ->
   exists s2,
     (__setitem__ k v ;; flush false) s = (Ok tt, s2) /\
     (__getitem__ k s2).1 = Raise KeyError /\
     (__contains__ k s2).1 = Ok false /\
     (__getitem__ (KStr (str k)) s2).1 = Ok v /\
     (__contains__ (KStr (str k)) s2).1 = Ok true).
Proof.
  intros Hwf Hro Hv k c'. split.
  - intros Hsize.
    destruct (set_triggers_flush s c i e k v Hwf Hro) as [_ Hno].
    specialize (Hno Hsize). fold c' in Hno.
    pose proof (wf_set_cache _ _ _ _ (str k) v Hwf) as Hwf1. fold c' in Hwf1.
    destruct (wf_no_int_key _ _ _ _ z Hwf1) as [Hc1 Hi1].
    eexists. split_and!; [exact Hno | reflexivity | |].
    + erewrite getitem_missing;
        [reflexivity | reflexivity | exact (wf_index _ _ _ _ Hwf1)
        | exact Hc1 | exact Hi1].
    + erewrite getitem_cached;
        [reflexivity | reflexivity | apply lookup_insert_eq].
  - intros Hfit.
    destruct (set_flush_wf s c i e k v Hwf Hro Hfit)
      as (s2 & i2 & e2 & Hrun & Hwf2 & Hh).
    destruct (wf_no_int_key _ _ _ _ z Hwf2) as [Hc2 Hi2].
    pose proof (wf_cache _ _ _ _ Hwf2) as Hcache.
    pose proof (wf_index _ _ _ _ Hwf2) as Hindex.
    exists s2. split_and!.
    + exact Hrun.
    + erewrite getitem_missing;
        [reflexivity | exact Hcache | exact Hindex | exact Hc2 | exact Hi2].
    + rewrite (contains_run s2 ∅ i2 k Hcache Hindex).
      fold k in Hi2. rewrite Hi2, lookup_empty.
      rewrite !bool_decide_eq_false_2 by (intros [? ?]; discriminate).
      reflexivity.
    + erewrite getitem_stored;
        [reflexivity | exact Hwf2 | apply lookup_empty | exact Hh | exact Hv].
    + rewrite (contains_run s2 ∅ i2 _ Hcache Hindex).
      destruct Hh as (i0 & off & len & Hi0 & Hl & _).
      rewrite Hindex in Hi0. injection Hi0 as <-. rewrite Hl.
      rewrite bool_decide_eq_true_2 by (eexists; reflexivity). reflexivity.
Qed.

Lemma elem_of_map_keys {A} (m : gmap pykey A) k :
  k ∈ (map_to_list m).*1 <-> is_Some (m !! k).
Proof.
  rewrite list_elem_of_fmap. split.
  - intros ([k' v] & -> & Hin). exists v. apply elem_of_map_to_list. exact Hin.
  - intros [v Hv]. exists (k, v). split; [reflexivity|].
    apply elem_of_map_to_list. exact Hv.
Qed.
(** *** What the store maps a key to *)

Lemma holds_with_cache s ca k v :
  holds (with_cache ca s) k v <-> holds s k v.
Proof. reflexivity. Qed.

Lemma maps_to_pending s c k v :
  cache_dict s = Some c -> c !! k = Some v -> maps_to s k v.
Proof. intros Hc Hk. exists c. split; [exact Hc | left; exact Hk]. Qed.

Lemma maps_to_stored s c k v :
  cache_dict s = Some c -> c !! k = None -> holds s k v -> maps_to s k v.
Proof.
  intros Hc Hk Hh. exists c. split; [exact Hc | right; split; assumption].
Qed.

Lemma maps_to_get s c i e k v :
  wf s c i e -> maps_to s k v -> supported v ->
  (__getitem__ k s).1 = Ok v.
Proof.
  intros Hwf (c0 & Hc0 & Hk) Hv.
  rewrite (wf_cache _ _ _ _ Hwf) in Hc0. injection Hc0 as <-.
  destruct Hk as [Hk|[Hk Hh]].
  - rewrite (getitem_cached s c k v (wf_cache _ _ _ _ Hwf) Hk). reflexivity.
  - rewrite (getitem_stored s c i e k v Hwf Hk Hh Hv). reflexivity.
Qed.

(** A flush moves the pending entries to the file and leaves every entry
    of the store mapped to the value it had. *)
Lemma flush_maps_to s c i e sa :
  wf s c i e -> read_only (base s) = false ->
  fits (length (content (file (_flush sa s).2))) ->
  exists s',
    _flush sa s = (Ok tt, s') /\
    wf s' ∅ (index_after (map_to_list c) e i)
       (e + length (blob (map_to_list c))) /\
    base s' = base s /\
    (forall k v, maps_to s k v -> maps_to s' k v).
Proof.
  intros Hwf Hro Hfit.
  destruct (flush_wf s c i e sa Hwf Hro Hfit)
    as (s' & Hrun & Hwf' & Hb & Hnew & Hold & _).
  exists s'. split_and!; [exact Hrun | exact Hwf' | exact Hb |].
  intros k v (c0 & Hc0 & Hk).
  rewrite (wf_cache _ _ _ _ Hwf) in Hc0. injection Hc0 as <-.
  apply (maps_to_stored s' ∅); [exact (wf_cache _ _ _ _ Hwf') | apply lookup_empty |].
  destruct Hk as [Hk|[Hk Hh]]; [apply Hnew; exact Hk | apply Hold; assumption].
Qed.

Lemma flush_any_maps_to s c i e sa :
  wf s c i e -> read_only (base s) = false ->
  fits (length (content (file (flush sa s).2))) ->
  exists s',
    flush sa s = (Ok tt, s') /\
    wf s' ∅ (index_after (map_to_list c) e i)
       (e + length (blob (map_to_list c))) /\
    base s' = base s /\
    (forall k v, maps_to s k v -> maps_to s' k v).
Proof.
  intros Hwf Hro.
  rewrite (flush_is__flush sa s Hro (wf_open _ _ _ _ Hwf)).
  apply flush_maps_to; assumption.
Qed.

(** X1: on a writable open store whose file stays within the width of the
    header fields, a flush changes no entry: a key that was pending with a
    supported value, or that was stored and not pending, reads back the same
    value before and after the flush, whether or not the index is saved. *)
Theorem flush_keeps_every_entry s c i e sa k v :
  wf s c i e -> read_only (base s) = false ->
  fits (length (content (file (flush sa s).2))) ->
  maps_to s k v -> supported v ->
  (__getitem__ k s).1 = Ok v /\
  ((flush sa ;; __getitem__ k) s).1 = Ok v.
Proof.
  intros Hwf Hro Hfit Hk Hv. split.
  - exact (maps_to_get s c i e k v Hwf Hk Hv).
  - destruct (flush_any_maps_to s c i e sa Hwf Hro Hfit)
      as (s' & Hrun & Hwf' & _ & Hkeep).
    rewrite (bind_ok _ _ _ _ _ Hrun).
    exact (maps_to_get s' _ _ _ k v Hwf' (Hkeep k v Hk) Hv).
Qed.
(** [set] on a well-formed writable store: it succeeds, the store stays
    well formed, the key's string is mapped to the value and every other
    key is mapped as before. *)
Lemma setitem_wf s c i e kk v' :
  wf s c i e -> read_only (base s) = false ->
  fits (length (content (file (__setitem__ kk v' s).2))) ->
  exists s1 c1 i1 e1,
    __setitem__ kk v' s = (Ok tt, s1) /\
    wf s1 c1 i1 e1 /\
    base s1 = base s /\
    maps_to s1 (KStr (str kk)) v' /\
    (forall k v, k <> KStr (str kk) -> maps_to s k v -> maps_to s1 k v).
Proof.
  intros Hwf Hro Hfit.
  pose proof (wf_set_cache _ _ _ _ (str kk) v' Hwf) as Hwf1.
  pose proof (wf_open _ _ _ _ Hwf) as Hop.
  pose proof (wf_cache _ _ _ _ Hwf) as Hc.
  set (c' := <[KStr (str kk) := v']> c) in *.
  set (s1 := with_cache (Some c') s) in *.
  assert (Hset := setitem_run s c kk v' Hro Hc).
  cbn zeta in Hset. fold c' s1 in Hset.
  assert (Hown : maps_to s1 (KStr (str kk)) v').
  { apply (maps_to_pending s1 c'); [reflexivity | apply lookup_insert_eq]. }
  assert (Hframe : forall k v, k <> KStr (str kk) ->
                     maps_to s k v -> maps_to s1 k v).
  { intros k v Hne (c0 & Hc0 & Hk). rewrite Hc in Hc0. injection Hc0 as <-.
    exists c'. split; [reflexivity|]. unfold c'.
    rewrite lookup_insert_ne by congruence.
    destruct Hk as [Hk|[Hk Hh]]; [left; exact Hk | right; split; assumption]. }
  rewrite Hset in Hfit |- *.
  destruct (cache_size (base s) <? Z.of_nat (size c'))%Z.
  - destruct (flush_any_maps_to s1 c' i e false Hwf1 Hro Hfit)
      as (s2 & Hrun & Hwf2 & Hb2 & Hkeep).
    exists s2, ∅. eexists _, _.
    split_and!; [exact Hrun | exact Hwf2 | exact Hb2 | |].
    + apply Hkeep. exact Hown.
    + intros k v Hne Hk. apply Hkeep. apply Hframe; assumption.
  - exists s1, c', i, e.
    split_and!; [reflexivity | exact Hwf1 | reflexivity | exact Hown | exact Hframe].
Qed.

(** X2: on a writable open store whose file stays within the width of the
    header fields, [set] is read back at once and touches no other key:
    after [d[kk] = v'] the string of [kk] reads [v'], and a key other than
    that string reads the value it had, whether or not the [set] ran a
    flush. *)
Theorem set_then_get s c i e kk v' :
  wf s c i e -> read_only (base s) = false ->
  fits (length (content (file (__setitem__ kk v' s).2))) ->
  (supported v' ->
   ((__setitem__ kk v' ;; __getitem__ (KStr (str kk))) s).1 = Ok v') /\
  (forall k v,
     k <> KStr (str kk) -> maps_to s k v -> supported v ->
     ((__setitem__ kk v' ;; __getitem__ k) s).1 = Ok v).
Proof.
  intros Hwf Hro Hfit.
  destruct (setitem_wf s c i e kk v' Hwf Hro Hfit)
    as (s1 & c1 & i1 & e1 & Hrun & Hwf1 & _ & Hown & Hframe).
  split.
  - intros Hv'. rewrite (bind_ok _ _ _ _ _ Hrun).
    exact (maps_to_get s1 c1 i1 e1 _ v' Hwf1 Hown Hv').
  - intros k v Hne Hk Hv. rewrite (bind_ok _ _ _ _ _ Hrun).
    exact (maps_to_get s1 c1 i1 e1 k v Hwf1 (Hframe k v Hne Hk) Hv).
Qed.
(** *** Saving the index and reopening the file *)

Lemma index_length_header (a b rest : bytes) (W : bytes) n :
  length a = SIZE_BYTES -> fits n ->
  index_length (write_at (length HEADER) (a ++ fmt_d SIZE_BYTES n) W)
  = Some n.
Proof.
  intros Ha Hfit. unfold index_length.
  rewrite read_at_write_at_inside
    by (rewrite ?length_app, ?length_fmt_d by exact Hfit; lia).
  replace (length HEADER + SIZE_BYTES - length HEADER) with (length a) by lia.
  rewrite read_at_app_r by lia. rewrite Nat.sub_diag.
  rewrite <- (length_fmt_d n) at 1 by exact Hfit.
  rewrite read_at_all. apply py_int_fmt_d.
Qed.

(** After a flush that saves the index, asked to or because the estimate
    of its growth has passed the threshold, the header points at the
    pickled index and the estimate is back to zero. *)
Lemma flush_saved_when s c i e sa :
  wf s c i e -> read_only (base s) = false ->
  sa || (MAX_INDICES_SIZE <?
         increased_indices_size s + increase (map_to_list c))%N = true ->
  fits (length (content (file (_flush sa s).2))) ->
  pickle_dumps (index_after (map_to_list c) e i) <> [] ->
  index_blob (content (file (_flush sa s).2))
  = Some (pickle_dumps (index_after (map_to_list c) e i)) /\
  increased_indices_size (_flush sa s).2 = 0%N.
Proof.
  intros Hwf Hro Hsave Hfit Hne.
  destruct (flush_run s c i e sa Hwf Hro)
    as (s' & Hrun & _ & _ & _ & Hct & _ & Hinc).
  destruct Hwf as [Hopen Hc Hck Hi Hik Hmg He Hel Heu Hr Hm].
  rewrite Hrun in Hfit |- *. cbn [snd] in Hfit |- *.
  rewrite Hsave in Hct, Hinc. split; [|exact Hinc].
  set (items := map_to_list c) in *.
  set (e' := e + length (blob items)) in *.
  set (dump := pickle_dumps (index_after items e i)) in *.
  set (W := write_at e (blob items ++ dump) (content (file s))) in *.
  assert (Hpos : (0 <? length dump) = true).
  { apply Nat.ltb_lt. destruct dump; [congruence | cbn; lia]. }
  rewrite Hpos in Hct.
  assert (HW : length W = (e + length (blob items) + length dump)
                            `max` length (content (file s))).
  { subst W. rewrite length_write_at, length_app. lia. }
  assert (Hfe : fits e').
  { eapply fits_mono; [|exact Hfit]. rewrite Hct, length_write_at. lia. }
  assert (Hfd : fits (length dump)).
  { eapply fits_mono; [|exact Hfit]. rewrite Hct, length_write_at. lia. }
  pose proof (length_fmt_d e' Hfe) as Hl1.
  pose proof (length_fmt_d (length dump) Hfd) as Hl2.
  rewrite length_HEADER in *.
  unfold index_blob.
  rewrite Hct.
  rewrite (data_end_header [] _ e' W Hfe).
  rewrite <- length_HEADER.
  rewrite (index_length_header _ [] [] W (length dump) Hl1 Hfd).
  f_equal. rewrite length_HEADER.
  assert (Hhdr : length (fmt_d SIZE_BYTES e' ++
                           fmt_d SIZE_BYTES (length dump)) = SIZE_BYTES * 2).
  { rewrite length_app, Hl1, Hl2. lia. }
  rewrite read_at_write_at_after by (rewrite Hhdr; lia).
  subst W. rewrite read_at_write_at_inside by (rewrite ?length_app; lia).
  rewrite read_at_app_r by lia.
  replace (e' - e - length (blob items)) with 0 by lia.
  apply read_at_all.
Qed.

Lemma flush_saved s c i e :
  wf s c i e -> read_only (base s) = false ->
  fits (length (content (file (_flush true s).2))) ->
  pickle_dumps (index_after (map_to_list c) e i) <> [] ->
  index_blob (content (file (_flush true s).2))
  = Some (pickle_dumps (index_after (map_to_list c) e i)).
Proof.
  intros Hwf Hro Hfit Hne.
  exact (proj1 (flush_saved_when s c i e true Hwf Hro eq_refl Hfit Hne)).
Qed.
(** Reopening a file whose header points at a pickled index that
    [cPickle.loads] reads back: the store found is the one that was saved. *)
Lemma reopen_saved b' s' i' e' :
  wf s' ∅ i' e' ->
  index_blob (content (file s')) = Some (pickle_dumps i') ->
  pickle_loads (pickle_dumps i') = Some i' ->
  is_closed b' = false ->
  exists s3,
    _restore_dict b' (Some (content (file s'))) = Ok s3 /\
    wf s3 ∅ i' e' /\
    base s3 = b' /\
    content (file s3) = content (file s') /\
    (forall k v, maps_to s' k v -> maps_to s3 k v).
Proof.
  intros Hwf Hblob Hload Hop.
  destruct Hwf as [Hopen Hc Hck Hi Hik Hmg He Hel Heu Hr Hm].
  unfold index_blob in Hblob. rewrite He in Hblob.
  destruct (index_length (content (file s'))) as [n|] eqn:Hn; [|discriminate].
  injection Hblob as Hblob.
  pose proof (restore_existing b' (content (file s')) e' n Hmg He Hn
                ltac:(lia)) as Hres.
  eexists. split; [exact Hres|].
  assert (Hidx : index_of
            {| base := b';
               file := {| content := content (file s');
                          position := e' + length (read_at e' n (content (file s'))) |};
               mmap := length (content (file s'));
               indices_dict := Some (Deferred (read_at e' n (content (file s'))));
               cache_dict := Some ∅;
               increased_indices_size := 0 |} = Some i').
  { cbn [index_of indices_dict]. rewrite Hblob. exact Hload. }
  split_and!.
  - constructor; try assumption; reflexivity.
  - reflexivity.
  - reflexivity.
  - intros k v (c0 & Hc0 & Hk). rewrite Hc in Hc0. injection Hc0 as <-.
    destruct Hk as [Hk|[_ Hh]]; [rewrite lookup_empty in Hk; discriminate|].
    eapply maps_to_stored; [reflexivity | apply lookup_empty |].
    destruct Hh as (i0 & off & len & Hi0 & Hl & Hrd).
    rewrite Hi in Hi0. injection Hi0 as <-.
    exists i', off, len. split_and!; [exact Hidx | exact Hl | exact Hrd].
Qed.

(** X3: on a writable open store whose file stays within the width of the
    header fields, [flush(save_all=True)] makes the entries durable: opening
    the file it leaves, with any open handle, gives a store in which every
    key that was pending with a supported value, or stored and not pending,
    reads the value it had.  [cPickle] is assumed to read back the index it
    dumps and never to dump the empty string. *)
Theorem saved_entries_survive_reopening s c i e b' :
  wf s c i e -> read_only (base s) = false -> is_closed b' = false ->
  (forall j, pickle_loads (pickle_dumps j) = Some j) ->
  (forall j, pickle_dumps j <> []) ->
  fits (length (content (file (flush true s).2))) ->
  exists s' s3,
    flush true s = (Ok tt, s') /\
    _restore_dict b' (Some (content (file s'))) = Ok s3 /\
    forall k v, maps_to s k v -> supported v -> (__getitem__ k s3).1 = Ok v.
Proof.
  intros Hwf Hro Hop Hload Hne Hfit.
  pose proof (flush_is__flush true s Hro (wf_open _ _ _ _ Hwf)) as Hfl.
  rewrite Hfl in Hfit.
  pose proof (flush_saved s c i e Hwf Hro Hfit (Hne _)) as Hblob.
  destruct (flush_maps_to s c i e true Hwf Hro Hfit)
    as (s' & Hrun & Hwf' & _ & Hkeep).
  rewrite Hrun in Hblob. cbn [snd] in Hblob.
  destruct (reopen_saved b' s' _ _ Hwf' Hblob (Hload _) Hop)
    as (s3 & Hres & Hwf3 & _ & _ & Hkeep3).
  exists s', s3. split_and!; [rewrite Hfl; exact Hrun | exact Hres |].
  intros k v Hk Hv.
  exact (maps_to_get s3 _ _ _ k v Hwf3 (Hkeep3 k v (Hkeep k v Hk)) Hv).
Qed.
(** *** Membership, deletion, listing *)

Lemma contains_false s c i k :
  cache_dict s = Some c -> index_of s = Some i ->
  ((__contains__ k s).1 = Ok false <-> c !! k = None /\ i !! k = None).
Proof.
  intros Hc Hi. rewrite (contains_run s c i k Hc Hi). split.
  - intros E. injection E as E. apply orb_false_elim in E as [Ei Ec].
    apply bool_decide_eq_false in Ei, Ec.
    split; apply eq_None_not_Some; assumption.
  - intros [Ec Ei]. rewrite Ec, Ei.
    rewrite !bool_decide_eq_false_2 by (intros [? ?]; discriminate).
    reflexivity.
Qed.

Lemma contains_true s c i k :
  cache_dict s = Some c -> index_of s = Some i ->
  ((__contains__ k s).1 = Ok true <-> is_Some (i !! k) \/ is_Some (c !! k)).
Proof.
  intros Hc Hi. rewrite (contains_run s c i k Hc Hi). split.
  - intros E. injection E as E. apply orb_true_iff in E as [E|E];
      apply bool_decide_eq_true in E; [left | right]; exact E.
  - intros [E|E].
    + rewrite (bool_decide_eq_true_2 _ E). reflexivity.
    + rewrite (bool_decide_eq_true_2 _ E), orb_true_r. reflexivity.
Qed.

(** An indexed key never gives [KeyError]: its record is read and handed
    to [marshal.loads]. *)
Lemma getitem_indexed s c i e k off len :
  wf s c i e -> c !! k = None -> i !! k = Some (off, len) ->
  (__getitem__ k s).1 =
  match marshal_loads (read_at off len (content (file s))) with
  | Some v => Ok v
  | None => Raise ValueError
  end.
Proof.
  intros Hwf Hck Hl.
  destruct Hwf as [Hopen Hc Hck' Hi Hik Hmg He Hel Heu Hr Hm].
  unfold __getitem__.
  rewrite (bind_ok _ _ _ _ _ (get_cache_run _ _ Hc)), Hck.
  rewrite (bind_ok _ _ _ _ _ (indices_ok _ _ Hi)), Hl.
  apply Hr in Hl.
  unfold bind, mmap_read. cbn [with_indices mmap file].
  rewrite Hm.
  destruct (Nat.ltb_spec (length (content (file s))) off) as [Hlt|_]; [lia|].
  rewrite take_ge by lia. unfold loads.
  destruct (marshal_loads _); reflexivity.
Qed.

(** X4: on a well-formed open store, [key in d] and [d[key]] agree:
    [in] answers [False] exactly when the lookup raises [KeyError], and it
    always answers. *)
Theorem contains_agrees_with_get s c i e k :
  wf s c i e ->
  ((__contains__ k s).1 = Ok false <-> (__getitem__ k s).1 = Raise KeyError) /\
  ((__contains__ k s).1 = Ok true <-> (__getitem__ k s).1 <> Raise KeyError).
Proof.
  intros Hwf.
  pose proof (wf_cache _ _ _ _ Hwf) as Hc.
  pose proof (wf_index _ _ _ _ Hwf) as Hi.
  assert (Hget : (__getitem__ k s).1 = Raise KeyError <->
                 c !! k = None /\ i !! k = None).
  { split.
    - intros E. destruct (c !! k) as [v|] eqn:Hck.
      + rewrite (getitem_cached s c k v Hc Hck) in E. discriminate.
      + split; [reflexivity|]. destruct (i !! k) as [[off len]|] eqn:Hik;
          [|reflexivity].
        rewrite (getitem_indexed s c i e k off len Hwf Hck Hik) in E.
        destruct (marshal_loads _); discriminate.
    - intros [Hck Hik].
      rewrite (getitem_missing s c i k Hc Hi Hck Hik). reflexivity. }
  split.
  - rewrite Hget. apply contains_false; assumption.
  - rewrite Hget, (contains_true s c i k Hc Hi). split.
    + intros [[p Hp]|[v Hv]] [Ec Ei]; congruence.
    + intros Hn. destruct (c !! k) eqn:Hck; [right; eexists; reflexivity|].
      destruct (i !! k) eqn:Hik; [left; eexists; reflexivity|].
      exfalso. apply Hn. split; reflexivity.
Qed.

(** X5: on a writable open store, deleting a key that is stored and not
    pending removes it from the index and leaves the file as it is: the key
    is no longer found, and every other key is mapped as before.  Deleting
    a key that is neither pending nor stored raises [KeyError]. *)
Theorem delete_of_a_stored_key s c i e k :
  wf s c i e -> read_only (base s) = false -> c !! k = None ->
  (is_Some (i !! k) ->
   exists s',
     __delitem__ k s = (Ok tt, s') /\
     wf s' c (delete k i) e /\
     content (file s') = content (file s) /\
     (__contains__ k s').1 = Ok false /\
     (__getitem__ k s').1 = Raise KeyError /\
     (forall k0 v0, k0 <> k -> maps_to s k0 v0 -> maps_to s' k0 v0)) /\
  (i !! k = None -> (__delitem__ k s).1 = Raise KeyError).
Proof.
  intros Hwf Hro Hck.
  pose proof (wf_cache _ _ _ _ Hwf) as Hc.
  pose proof (wf_index _ _ _ _ Hwf) as Hi.
  split.
  - intros [p Hp].
    set (s' := with_indices (Some (Ready (delete k i))) s).
    assert (Hwf' : wf s' c (delete k i) e).
    { destruct Hwf as [Hopen _ Hck' _ Hik Hmg He Hel Heu Hr Hm].
      constructor; try assumption; try reflexivity.
      - intros k0 [p0 Hk0]. apply lookup_delete_Some in Hk0 as [_ Hk0].
        apply Hik. eexists. exact Hk0.
      - intros k0 off len Hk0. apply lookup_delete_Some in Hk0 as [_ Hk0].
        exact (Hr _ _ _ Hk0). }
    exists s'. split_and!.
    + exact (delitem_index s c i k p Hro Hc Hi Hck Hp).
    + exact Hwf'.
    + reflexivity.
    + apply (contains_false s' c (delete k i));
        [exact (wf_cache _ _ _ _ Hwf') | exact (wf_index _ _ _ _ Hwf') |].
      split; [exact Hck | apply lookup_delete_eq].
    + rewrite (getitem_missing s' c (delete k i) k);
        [reflexivity | exact (wf_cache _ _ _ _ Hwf')
        | exact (wf_index _ _ _ _ Hwf') | exact Hck
        | apply lookup_delete_eq].
    + intros k0 v0 Hne (c0 & Hc0 & Hk0).
      rewrite Hc in Hc0. injection Hc0 as <-.
      exists c. split; [exact (wf_cache _ _ _ _ Hwf')|].
      destruct Hk0 as [Hk0|[Hk0 Hh]]; [left; exact Hk0 | right].
      split; [exact Hk0|].
      destruct Hh as (i0 & off & len & Hi0 & Hl & Hrd).
      rewrite Hi in Hi0. injection Hi0 as <-.
      exists (delete k i), off, len. split_and!; [reflexivity | | exact Hrd].
      rewrite lookup_delete_ne by congruence. exact Hl.
  - intros Hik. unfold __delitem__.
    unfold bind at 1, get_state at 1. rewrite Hro.
    rewrite (bind_ok _ _ _ _ _ (get_cache_run _ _ Hc)), Hck.
    rewrite bool_decide_eq_false_2 by (intros [? ?]; discriminate).
    rewrite (bind_ok _ _ _ _ _ (indices_ok _ _ Hi)), Hik. reflexivity.
Qed.
(** X6: a deletion is durable once the index is saved: on a writable open
    store, deleting a key that is stored and not pending and then calling
    [flush(save_all=True)] leaves a file in which, when it is opened again,
    the key is not found.  [cPickle] is assumed to read back the index it
    dumps and never to dump the empty string. *)
Theorem deleted_key_stays_deleted s c i e k b' :
  wf s c i e -> read_only (base s) = false ->
  c !! k = None -> is_Some (i !! k) ->
  is_closed b' = false ->
  (forall j, pickle_loads (pickle_dumps j) = Some j) ->
  (forall j, pickle_dumps j <> []) ->
  fits (length (content (file ((__delitem__ k ;; flush true) s).2))) ->
  exists s' s3,
    (__delitem__ k ;; flush true) s = (Ok tt, s') /\
    _restore_dict b' (Some (content (file s'))) = Ok s3 /\
    (__getitem__ k s3).1 = Raise KeyError /\
    (__contains__ k s3).1 = Ok false.
Proof.
  intros Hwf Hro Hck [p Hp] Hop Hload Hne Hfit.
  pose proof (wf_cache _ _ _ _ Hwf) as Hc.
  pose proof (wf_index _ _ _ _ Hwf) as Hi.
  pose proof (delitem_index s c i k p Hro Hc Hi Hck Hp) as Hdel.
  set (s1 := with_indices (Some (Ready (delete k i))) s) in *.
  assert (Hwf1 : wf s1 c (delete k i) e).
  { destruct Hwf as [Hopen _ Hck' _ Hik Hmg He Hel Heu Hr Hm].
    constructor; try assumption; try reflexivity.
    - intros k0 [p0 Hk0]. apply lookup_delete_Some in Hk0 as [_ Hk0].
      apply Hik. eexists. exact Hk0.
    - intros k0 off len Hk0. apply lookup_delete_Some in Hk0 as [_ Hk0].
      exact (Hr _ _ _ Hk0). }
  assert (Hro1 : read_only (base s1) = false) by exact Hro.
  rewrite (bind_ok _ _ _ _ _ Hdel) in Hfit |- *.
  rewrite (flush_is__flush true s1 Hro1 (wf_open _ _ _ _ Hwf1)) in Hfit |- *.
  pose proof (flush_saved s1 c _ e Hwf1 Hro1 Hfit (Hne _)) as Hblob.
  destruct (flush_maps_to s1 c _ e true Hwf1 Hro1 Hfit)
    as (s' & Hrun & Hwf' & _ & _).
  rewrite Hrun in Hblob. cbn [snd] in Hblob.
  destruct (reopen_saved b' s' _ _ Hwf' Hblob (Hload _) Hop)
    as (s3 & Hres & Hwf3 & _ & _ & _).
  assert (Hgone : index_after (map_to_list c) e (delete k i) !! k = None).
  { rewrite index_after_notin; [apply lookup_delete_eq|].
    rewrite map_to_list_fst_elem, Hck. intros [? ?]. discriminate. }
  exists s', s3. split_and!; [exact Hrun | exact Hres | |].
  - rewrite (getitem_missing s3 ∅ _ k (wf_cache _ _ _ _ Hwf3)
               (wf_index _ _ _ _ Hwf3) (lookup_empty k) Hgone).
    reflexivity.
  - apply (contains_false s3 ∅ _ k (wf_cache _ _ _ _ Hwf3)
             (wf_index _ _ _ _ Hwf3)).
    split; [apply lookup_empty | exact Hgone].
Qed.

(** *** keys, len and values *)

Lemma keys_run s c i :
  cache_dict s = Some c -> index_of s = Some i ->
  keys s = (Ok ((map_to_list i).*1 ++ (map_to_list c).*1),
            with_indices (Some (Ready i)) s).
Proof.
  intros Hc Hi. unfold keys.
  rewrite (bind_ok _ _ _ _ _ (indices_ok _ _ Hi)).
  erewrite bind_ok; [| apply get_cache_run; exact Hc ]. reflexivity.
Qed.

Lemma len_run s c i :
  cache_dict s = Some c -> index_of s = Some i ->
  __len__ s = (Ok (size i + size c), with_indices (Some (Ready i)) s).
Proof.
  intros Hc Hi. unfold __len__.
  rewrite (bind_ok _ _ _ _ _ (indices_ok _ _ Hi)).
  erewrite bind_ok; [| apply get_cache_run; exact Hc ]. reflexivity.
Qed.

(** X7: on an open store, [keys()] lists the stored keys and then the
    pending ones, [len] is the length of that list, and a key is in the
    list exactly when [in] answers [True].  A key that is both stored and
    pending, as after a [set] of a key flushed earlier, is listed twice and
    counted twice: the list has no repetition exactly when no stored key is
    pending. *)
Theorem keys_len_and_contains s c i :
  cache_dict s = Some c -> index_of s = Some i ->
  exists l,
    (keys s).1 = Ok l /\
    (__len__ s).1 = Ok (length l) /\
    (forall k, k ∈ l <-> (__contains__ k s).1 = Ok true) /\
    (NoDup l <-> forall k, is_Some (i !! k) -> c !! k = None).
Proof.
  intros Hc Hi. eexists. split_and!.
  - rewrite (keys_run s c i Hc Hi). reflexivity.
  - rewrite (len_run s c i Hc Hi). cbn [fst].
    rewrite length_app, !length_fmap, !length_map_to_list. reflexivity.
  - intros k. rewrite (contains_true s c i k Hc Hi), elem_of_app.
    rewrite !elem_of_map_keys. reflexivity.
  - rewrite NoDup_app. split.
    + intros (_ & Hdis & _) k Hk.
      apply eq_None_not_Some. intros Hk'.
      apply (Hdis k); apply elem_of_map_keys; assumption.
    + intros Hdis. split_and!; [apply NoDup_fst_map_to_list | |
                                apply NoDup_fst_map_to_list].
      intros k Hk Hk'. apply elem_of_map_keys in Hk, Hk'.
      rewrite (Hdis k Hk) in Hk'. destruct Hk'. discriminate.
Qed.
Lemma load_records_run s c i e :
  wf s c i e ->
  forall entries vs,
    (forall kp, kp ∈ entries -> i !! kp.1 = Some kp.2) ->
    Forall2 (fun (kp : pykey * (nat * nat)) v =>
               holds s kp.1 v /\ supported v) entries vs ->
    load_records entries (with_indices (Some (Ready i)) s)
    = (Ok vs, with_indices (Some (Ready i)) s).
Proof.
  intros Hwf entries vs Hin Hall.
  induction Hall as [|[k [off len]] v entries vs [Hh Hv] _ IH];
    [reflexivity|].
  destruct Hh as (i0 & off0 & len0 & Hi0 & Hl & Hrd).
  rewrite (wf_index _ _ _ _ Hwf) in Hi0. injection Hi0 as <-.
  pose proof (Hin (k, (off, len)) ltac:(left)) as Hk.
  cbn [fst snd] in *. rewrite Hk in Hl. injection Hl as <- <-.
  pose proof (wf_ranges _ _ _ _ Hwf _ _ _ Hk) as [_ Hhi].
  pose proof (wf_end_upper _ _ _ _ Hwf) as Heu.
  pose proof (wf_mmap _ _ _ _ Hwf) as Hm.
  cbn [load_records].
  unfold bind at 1, mmap_read at 1. cbn [with_indices mmap file].
  rewrite Hm.
  destruct (Nat.ltb_spec (length (content (file s))) off) as [Hlt|_]; [lia|].
  rewrite take_ge by lia. rewrite Hrd.
  unfold bind at 1, loads at 1. rewrite Hv. unfold ret at 1.
  rewrite (bind_ok _ _ _ _ _
             (IH (fun kp Hkp => Hin kp ltac:(right; exact Hkp)))).
  reflexivity.
Qed.

(** X8: on a well-formed open store whose stored records all unmarshal to
    supported values, [values()] returns the stored values in the order of
    the index and then the pending values.  A key that is both stored and
    pending contributes its stored value as well as its pending one. *)
Theorem values_lists_stored_then_pending s c i e vs :
  wf s c i e ->
  Forall2 (fun (kp : pykey * (nat * nat)) v =>
             holds s kp.1 v /\ supported v) (map_to_list i) vs ->
  (values s).1 = Ok (vs ++ (map_to_list c).*2).
Proof.
  intros Hwf Hall.
  pose proof (wf_cache _ _ _ _ Hwf) as Hc.
  pose proof (wf_index _ _ _ _ Hwf) as Hi.
  unfold values.
  rewrite (bind_ok _ _ _ _ _ (indices_ok _ _ Hi)).
  erewrite bind_ok.
  2:{ apply (load_records_run s c i e Hwf); [|exact Hall].
      intros [k p] Hkp. apply elem_of_map_to_list. exact Hkp. }
  erewrite bind_ok; [| apply get_cache_run; exact Hc ]. reflexivity.
Qed.
(** *** What [_restore_dict] accepts *)



(** The length of the file a flush leaves. *)
Lemma flush_length s c i e sa :
  wf s c i e -> read_only (base s) = false ->
  let items := map_to_list c in
  let inc1 := (increased_indices_size s + increase items)%N in
  let dump := if sa || (MAX_INDICES_SIZE <? inc1)%N
              then pickle_dumps (index_after items e i) else [] in
  let n := (e + length (blob items) + length dump)
             `max` length (content (file s)) in
  fits n ->
  length (content (file (_flush sa s).2)) = n.
Proof.
  intros Hwf Hro items inc1 dump n Hfit.
  destruct (flush_run s c i e sa Hwf Hro)
    as (s' & Hrun & _ & _ & _ & Hct & _ & _).
  destruct Hwf as [Hopen Hc Hck Hi Hik Hmg He Hel Heu Hr Hm].
  rewrite Hrun. cbn [snd]. rewrite Hct.
  fold items inc1. fold dump.
  set (e' := e + length (blob items)).
  assert (Hfe : fits e') by (eapply fits_mono; [|exact Hfit]; lia).
  assert (Hfd : fits (length dump)) by (eapply fits_mono; [|exact Hfit]; lia).
  assert (Hhdr : length (fmt_d SIZE_BYTES e' ++
                   (if 0 <? length dump
                    then fmt_d SIZE_BYTES (length dump) else []))
                 <= SIZE_BYTES * 2).
  { rewrite length_app, length_fmt_d by exact Hfe.
    destruct (0 <? length dump);
      [rewrite length_fmt_d by exact Hfd | cbn [length]]; lia. }
  rewrite !length_write_at, !length_app, length_HEADER in *.
  subst n e'. lia.
Qed.
(** [flush(save_all=True)] and then a fresh [_restore_dict] on the file:
    the store found maps every key as the store that was flushed. *)
Lemma flush_all_reopen s c i e b' :
  wf s c i e -> read_only (base s) = false -> is_closed b' = false ->
  (forall j, pickle_loads (pickle_dumps j) = Some j) ->
  (forall j, pickle_dumps j <> []) ->
  fits (length (content (file (flush true s).2))) ->
  exists s' s3 i' e',
    flush true s = (Ok tt, s') /\
    wf s' ∅ i' e' /\ base s' = base s /\
    _restore_dict b' (Some (content (file s'))) = Ok s3 /\
    wf s3 ∅ i' e' /\ base s3 = b' /\
    content (file s3) = content (file s') /\
    (forall k v, maps_to s k v -> maps_to s3 k v).
Proof.
  intros Hwf Hro Hop Hload Hne Hfit.
  pose proof (flush_is__flush true s Hro (wf_open _ _ _ _ Hwf)) as Hfl.
  rewrite Hfl in Hfit.
  pose proof (flush_saved s c i e Hwf Hro Hfit (Hne _)) as Hblob.
  destruct (flush_maps_to s c i e true Hwf Hro Hfit)
    as (s' & Hrun & Hwf' & Hb' & Hkeep).
  rewrite Hrun in Hblob. cbn [snd] in Hblob.
  destruct (reopen_saved b' s' _ _ Hwf' Hblob (Hload _) Hop)
    as (s3 & Hres & Hwf3 & Hb3 & Hct3 & Hkeep3).
  exists s', s3. eexists _, _.
  split_and!; [rewrite Hfl; exact Hrun | exact Hwf' | exact Hb' | exact Hres
              | exact Hwf3 | exact Hb3 | exact Hct3 |].
  intros k v Hk. apply Hkeep3, Hkeep, Hk.
Qed.

Lemma length_created b : length (content (file (created b))) = 104.
Proof. vm_compute. reflexivity. Qed.

(** One pending entry on a store just created: the size of the file that
    [flush(save_all=True)] leaves. *)
Lemma fits_one_entry b k v :
  read_only b = false -> is_closed b = false ->
  fits (104 + length (marshal_dumps v) +
        length (pickle_dumps {[KStr k := (104, length (marshal_dumps v))]})) ->
  fits (length (content (file
          (flush true (with_cache (Some {[KStr k := v]}) (created b))).2))).
Proof.
  intros Hro Hop Hfit.
  set (s := with_cache (Some {[KStr k := v]}) (created b)).
  assert (Hwf : wf s {[KStr k := v]} ∅ 104).
  { apply (wf_set_cache (created b) ∅ ∅ 104 k v). apply created_wf. exact Hop. }
  rewrite (flush_is__flush true s Hro Hop).
  rewrite (flush_length s _ _ _ true Hwf Hro);
    rewrite map_to_list_singleton; cbn [orb index_after blob map concat snd];
    rewrite app_nil_r;
    change (length (content (file s))) with (length (content (file (created b))));
    rewrite length_created;
    (replace ((104 + length (marshal_dumps v) +
               length (pickle_dumps
                         (<[KStr k := (104, length (marshal_dumps v))]> ∅)))
                `max` 104)
       with (104 + length (marshal_dumps v) +
             length (pickle_dumps
                       (<[KStr k := (104, length (marshal_dumps v))]> ∅)))
       by lia);
    exact Hfit.
Qed.

(** *** The automatic save of the index *)

(** X24: a plain [flush()] saves the index by itself once the estimate of
    its growth, sixteen bytes and the length of the key for every entry
    flushed since the last save, has passed 25 megabytes: on a writable open
    store whose file stays within the width of the header fields, such a
    flush resets the estimate and leaves a file that, opened again, gives
    back every entry of the store.  [cPickle] is assumed to read back the
    index it dumps and never to dump the empty string. *)
Theorem index_saved_past_the_threshold s c i e b' :
  wf s c i e -> read_only (base s) = false -> is_closed b' = false ->
  (MAX_INDICES_SIZE <
   increased_indices_size s + increase (map_to_list c))%N ->
  (forall j, pickle_loads (pickle_dumps j) = Some j) ->
  (forall j, pickle_dumps j <> []) ->
  fits (length (content (file (flush false s).2))) ->
  exists s' s3,
    flush false s = (Ok tt, s') /\
    increased_indices_size s' = 0%N /\
    _restore_dict b' (Some (content (file s'))) = Ok s3 /\
    forall k v, maps_to s k v -> supported v -> (__getitem__ k s3).1 = Ok v.
Proof.
  intros Hwf Hro Hop Hinc Hload Hne Hfit.
  pose proof (flush_is__flush false s Hro (wf_open _ _ _ _ Hwf)) as Hfl.
  rewrite Hfl in Hfit.
  assert (Hsave : false || (MAX_INDICES_SIZE <?
                   increased_indices_size s + increase (map_to_list c))%N
                  = true) by (apply N.ltb_lt; exact Hinc).
  destruct (flush_saved_when s c i e false Hwf Hro Hsave Hfit (Hne _))
    as [Hblob Hzero].
  destruct (flush_maps_to s c i e false Hwf Hro Hfit)
    as (s' & Hrun & Hwf' & _ & Hkeep).
  rewrite Hrun in Hblob, Hzero. cbn [snd] in Hblob, Hzero.
  destruct (reopen_saved b' s' _ _ Hwf' Hblob (Hload _) Hop)
    as (s3 & Hres & Hwf3 & _ & _ & Hkeep3).
  exists s', s3.
  split_and!; [rewrite Hfl; exact Hrun | exact Hzero | exact Hres |].
  intros k v Hk Hv.
  exact (maps_to_get s3 _ _ _ k v Hwf3 (Hkeep3 k v (Hkeep k v Hk)) Hv).
Qed.

(** *** items *)

Lemma unpack_values_run unpack (vals : list value) (s : MmapDict) :
  (exists hs,
     unpack_values unpack vals s = (Ok hs, s) /\
     Forall2 (fun x h => exists a b, unpack x = Ok (a, b) /\ h = Halves a b)
       vals hs) \/
  (exists x e,
     x ∈ vals /\ unpack x = Raise e /\
     unpack_values unpack vals s = (Raise e, s)).
Proof.
  induction vals as [|x vals IH]; cbn [unpack_values].
  - left. exists []. split; [reflexivity | constructor].
  - destruct (unpack x) as [[a b]|e] eqn:Hx.
    + destruct IH as [(hs & Hrun & Hall)|(y & e & Hy & He & Hrun)].
      * left. exists (Halves a b :: hs).
        rewrite (bind_ok _ _ _ _ _ Hrun). split; [reflexivity|].
        constructor; [|exact Hall]. exists a, b. split; [exact Hx|reflexivity].
      * right. exists y, e. split_and!; [right; exact Hy | exact He |].
        rewrite (bind_raise _ _ _ _ _ Hrun). reflexivity.
    + right. exists x, e. split_and!; [left | exact Hx | reflexivity].
Qed.

(** X27: [items()] of a well-formed open store whose stored records all
    unmarshal.  The stored entries come first, each name with its value.
    The pending entries are not listed as key and value: each pending value
    is itself unpacked in two, and the key under which it is pending is
    lost.  So with nothing pending [items()] is the list of the stored
    entries, a pending value that does not unpack in two makes [items()]
    raise, and where [items()] returns, the pending part of its result is
    the halves of the pending values. *)
Theorem items_unpacks_the_pending_values unpack s c i e vs :
  wf s c i e ->
  Forall2 (fun (kp : pykey * (nat * nat)) v =>
             holds s kp.1 v /\ supported v) (map_to_list i) vs ->
  let stored := zip_with Entry (map_to_list i).*1 vs in
  (c = ∅ -> (items unpack s).1 = Ok stored) /\
  ((exists k x e', c !! k = Some x /\ unpack x = Raise e') ->
   exists e', (items unpack s).1 = Raise e') /\
  (forall l, (items unpack s).1 = Ok l ->
     exists hs,
       l = stored ++ hs /\
       Forall2 (fun x h => exists a b, unpack x = Ok (a, b) /\ h = Halves a b)
         (map_to_list c).*2 hs).
Proof.
  intros Hwf Hall stored.
  pose proof (wf_cache _ _ _ _ Hwf) as Hc.
  pose proof (wf_index _ _ _ _ Hwf) as Hi.
  assert (Hrun : items unpack s =
                 (l <- unpack_values unpack (map_to_list c).*2 ;;
                  ret (stored ++ l)) (with_indices (Some (Ready i)) s)).
  { unfold items.
    rewrite (bind_ok _ _ _ _ _ (indices_ok _ _ Hi)).
    erewrite bind_ok.
    2:{ apply (load_records_run s c i e Hwf); [|exact Hall].
        intros [k p] Hkp. apply elem_of_map_to_list. exact Hkp. }
    erewrite bind_ok; [| apply get_cache_run; exact Hc ]. reflexivity. }
  rewrite Hrun.
  destruct (unpack_values_run unpack (map_to_list c).*2
              (with_indices (Some (Ready i)) s))
    as [(hs & Hu & Hhs)|(x & e' & Hx & He & Hu)].
  - rewrite (bind_ok _ _ _ _ _ Hu). cbn [ret fst]. split_and!.
    + intros ->. rewrite map_to_list_empty in Hhs. inversion Hhs.
      rewrite app_nil_r. reflexivity.
    + intros (k & x & e' & Hk & Hx). exfalso.
      assert (Hin : x ∈ (map_to_list c).*2).
      { apply list_elem_of_fmap. exists (k, x). split; [reflexivity|].
        apply elem_of_map_to_list. exact Hk. }
      destruct (proj1 (list_elem_of_lookup _ _) Hin) as [n Hn].
      destruct (Forall2_lookup_l _ _ _ _ _ Hhs Hn) as (h & _ & a & b & E & _).
      congruence.
    + intros l [= <-]. exists hs. split; [reflexivity | exact Hhs].
  - rewrite (bind_raise _ _ _ _ _ Hu). cbn [fst]. split_and!.
    + intros ->. rewrite map_to_list_empty in Hx. inversion Hx.
    + intros _. exists e'. reflexivity.
    + intros l [=].
Qed.

(** *** The store as a dictionary *)

Lemma models_created b : is_closed b = false -> models (created b) ∅.
Proof.
  intros Hop. exists ∅, ∅, 104. split_and!.
  - exact (created_wf b Hop).
  - intros k v Hk. rewrite lookup_empty in Hk. discriminate.
  - intros k _. split; apply lookup_empty.
Qed.

Lemma models_set_cache s c d k v :
  models s d -> cache_dict s = Some c ->
  models (with_cache (Some (<[KStr k := v]> c)) s) (<[k := v]> d).
Proof.
  intros (c0 & i & e & Hwf & Hin & Hout) Hc.
  rewrite (wf_cache _ _ _ _ Hwf) in Hc. injection Hc as ->.
  exists (<[KStr k := v]> c), i, e. split_and!.
  - exact (wf_set_cache s c i e k v Hwf).
  - intros k' v' Hk'. destruct (decide (k = k')) as [<-|Hne].
    + rewrite lookup_insert_eq in Hk'. injection Hk' as <-.
      eapply maps_to_pending; [reflexivity | apply lookup_insert_eq].
    + rewrite lookup_insert_ne in Hk' by exact Hne.
      destruct (Hin k' v' Hk') as (c1 & Hc1 & Hcase).
      rewrite (wf_cache _ _ _ _ Hwf) in Hc1. injection Hc1 as <-.
      exists (<[KStr k := v]> c). split; [reflexivity|].
      rewrite lookup_insert_ne by congruence. exact Hcase.
  - intros k' Hk'. apply lookup_insert_None in Hk' as [Hk' Hne].
    rewrite lookup_insert_ne by congruence. exact (Hout k' Hk').
Qed.

Lemma models_flush s d sa :
  models s d -> read_only (base s) = false ->
  fits (length (content (file (flush sa s).2))) ->
  exists s',
    flush sa s = (Ok tt, s') /\ models s' d /\ base s' = base s.
Proof.
  intros (c & i & e & Hwf & Hin & Hout) Hro.
  rewrite (flush_is__flush sa s Hro (wf_open _ _ _ _ Hwf)). intros Hfit.
  destruct (flush_wf s c i e sa Hwf Hro Hfit)
    as (s' & Hrun & Hwf' & Hb & _ & _ & Hdom).
  destruct (flush_maps_to s c i e sa Hwf Hro Hfit)
    as (s2 & Hrun2 & _ & _ & Hkeep).
  rewrite Hrun in Hrun2. injection Hrun2 as <-.
  exists s'. split_and!; [exact Hrun | | exact Hb].
  eexists _, _, _. split_and!; [exact Hwf' | |].
  - intros k v Hk. apply Hkeep, Hin, Hk.
  - intros k Hk. split; [apply lookup_empty|].
    apply eq_None_not_Some. intros Hs. apply Hdom in Hs.
    destruct (Hout k Hk) as [Hc Hi].
    rewrite Hc, Hi in Hs. destruct Hs as [[? ?]|[? ?]]; discriminate.
Qed.

Lemma models_setitem s d kk v :
  models s d -> read_only (base s) = false ->
  fits (length (content (file (__setitem__ kk v s).2))) ->
  exists s',
    __setitem__ kk v s = (Ok tt, s') /\
    models s' (<[str kk := v]> d) /\ base s' = base s.
Proof.
  intros Hm Hro.
  pose proof Hm as (c & i & e & Hwf & _).
  pose proof (wf_cache _ _ _ _ Hwf) as Hc.
  pose proof (models_set_cache s c d (str kk) v Hm Hc) as Hm1.
  rewrite (setitem_run s c kk v Hro Hc). cbn zeta.
  destruct (_ <? _)%Z.
  - intros Hfit.
    destruct (models_flush _ _ false Hm1 Hro Hfit) as (s' & Hrun & Hm' & Hb).
    exists s'. split_and!; [exact Hrun | exact Hm' | exact Hb].
  - intros _. eexists. split_and!; [reflexivity | exact Hm1 | reflexivity].
Qed.

Lemma grows_run_calls ws : grows (run_calls ws).
Proof.
  induction ws as [|w ws IH]; cbn [run_calls]; [apply grows_ret|].
  apply grows_bind; [|intros _; exact IH].
  destruct w; [apply grows_setitem | apply grows_flush].
Qed.

Lemma models_run_calls ws : forall s d,
  models s d -> read_only (base s) = false ->
  fits (length (content (file (run_calls ws s).2))) ->
  exists s',
    run_calls ws s = (Ok tt, s') /\ models s' (dict_after ws d).
Proof.
  induction ws as [|w ws IH]; intros s d Hm Hro Hfit.
  - exists s. split; [reflexivity | exact Hm].
  - cbn [run_calls] in *.
    assert (Hstep : exists s1 d1,
              run_call w s = (Ok tt, s1) /\ models s1 d1 /\
              base s1 = base s /\ dict_after (w :: ws) d = dict_after ws d1).
    { assert (Hfit1 : fits (length (content (file (run_call w s).2)))).
      { unfold bind in Hfit. destruct (run_call w s) as [[[]|e1] s1] eqn:E;
          [|exact Hfit].
        exact (fits_before _ _ (grows_run_calls ws) Hfit). }
      destruct w as [kk v|sa]; cbn [run_call dict_after] in *.
      - destruct (models_setitem s d kk v Hm Hro Hfit1)
          as (s1 & Hrun & Hm1 & Hb).
        exists s1, (<[str kk := v]> d). split_and!; auto.
      - destruct (models_flush s d sa Hm Hro Hfit1)
          as (s1 & Hrun & Hm1 & Hb).
        exists s1, d. split_and!; auto. }
    destruct Hstep as (s1 & d1 & Hrun & Hm1 & Hb & Hd).
    rewrite (bind_ok _ _ _ _ _ Hrun) in Hfit |- *. rewrite Hd.
    apply IH; [exact Hm1 | rewrite Hb; exact Hro | exact Hfit].
Qed.

(** X28: a writable store just created, after any sequence of assignments
    and flushes whose file stays within the width of the header fields,
    answers as the dictionary built by the same assignments: every call of
    the sequence returns, a key reads back the last value assigned to
    [str(key)] when that value survives marshal, and a key never assigned
    is not contained and raises [KeyError]. *)
Theorem store_answers_as_a_dictionary b ws :
  is_closed b = false -> read_only b = false ->
  fits (length (content (file (run_calls ws (created b)).2))) ->
  let d := dict_after ws ∅ in
  exists s',
    _restore_dict b None = Ok (created b) /\
    run_calls ws (created b) = (Ok tt, s') /\
    (forall k v, d !! k = Some v -> supported v ->
       (__getitem__ (KStr k) s').1 = Ok v /\
       (__contains__ (KStr k) s').1 = Ok true) /\
    (forall k, d !! k = None ->
       (__getitem__ (KStr k) s').1 = Raise KeyError /\
       (__contains__ (KStr k) s').1 = Ok false).
Proof.
  intros Hop Hro Hfit d.
  destruct (models_run_calls ws (created b) ∅ (models_created b Hop) Hro Hfit)
    as (s' & Hrun & c & i & e & Hwf & Hin & Hout).
  pose proof (wf_cache _ _ _ _ Hwf) as Hc.
  pose proof (wf_index _ _ _ _ Hwf) as Hi.
  exists s'. split_and!; [exact (restore_new b Hro) | exact Hrun | |].
  - intros k v Hk Hv. split.
    + exact (maps_to_get s' c i e _ v Hwf (Hin k v Hk) Hv).
    + apply (contains_true s' c i _ Hc Hi).
      destruct (Hin k v Hk) as (c0 & Hc0 & Hcase).
      rewrite Hc in Hc0. injection Hc0 as <-.
      destruct Hcase as [Hp|[_ (i0 & off & len & Hi0 & Hl & _)]].
      * right. eexists; exact Hp.
      * rewrite Hi in Hi0. injection Hi0 as <-. left. eexists; exact Hl.
  - intros k Hk. destruct (Hout k Hk) as [Hck Hik]. split.
    + rewrite (getitem_missing s' c i _ Hc Hi Hck Hik). reflexivity.
    + apply (contains_false s' c i _ Hc Hi). split; assumption.
Qed.

End Facts.
End MmapFacts.

(** ** SQLiteDict *)

Module SQLiteFacts.
Import SQLite.
Section Facts.
Context `{Codec}.

(** *** The engine *)

Lemma execute_open q b ca co ct ex :
  is_closed b = false ->
  execute q (Build_SQLiteDict b ca co ct ex)
  = (Ok tt, Build_SQLiteDict b ca co ct (q :: ex)).
Proof. intros Hop. unfold execute. cbn. rewrite Hop. reflexivity. Qed.

Lemma is_table_exist_run b ca co ct ex t :
  is_closed b = false ->
  is_table_exist t (Build_SQLiteDict b ca co ct ex)
  = (Ok (bool_decide (is_Some (co !! t))),
     Build_SQLiteDict b ca co ct (SelectAny t :: ex)).
Proof.
  intros Hop. unfold is_table_exist.
  rewrite (bind_ok _ _ _ _ _ (execute_open _ _ _ _ _ _ Hop)).
  reflexivity.
Qed.

Lemma set_table_existing b ca co ct ex t r :
  is_closed b = false -> co !! t = Some r ->
  set_table (Some t) (Build_SQLiteDict b ca co ct ex)
  = (Ok tt, Build_SQLiteDict b ca co t (SelectAny t :: ex)).
Proof.
  intros Hop Ht. unfold set_table.
  change (default _DEFAULT_TABLE (Some t)) with t.
  rewrite (bind_ok _ _ _ _ _ (is_table_exist_run _ _ _ _ _ _ Hop)).
  rewrite Ht. rewrite bool_decide_eq_true_2 by (eexists; reflexivity).
  reflexivity.
Qed.

Lemma insert_row_run b ca co ct ex t r kv :
  co !! t = Some r ->
  insert_row t kv (Build_SQLiteDict b ca co ct ex) =
  if has_key kv.1 r
  then (Raise IntegrityError, Build_SQLiteDict b ca co ct ex)
  else (Ok tt, Build_SQLiteDict b ca (<[t := r ++ [kv]]> co) ct ex).
Proof.
  intros Ht. unfold insert_row, bind, rows_of. cbn [conn]. rewrite Ht.
  destruct (has_key kv.1 r); reflexivity.
Qed.

Lemma insert_rows_ok kvs : forall b ca co ct ex t r,
  co !! t = Some r ->
  NoDup kvs.*1 ->
  (forall k, k ∈ kvs.*1 -> k ∉ r.*1) ->
  insert_rows t kvs (Build_SQLiteDict b ca co ct ex)
  = (Ok tt, Build_SQLiteDict b ca (<[t := r ++ kvs]> co) ct ex).
Proof.
  induction kvs as [|[k v] kvs IH]; intros b ca co ct ex t r Ht Hnd Hfresh.
  - cbn [insert_rows]. unfold ret. rewrite app_nil_r.
    rewrite insert_id by exact Ht. reflexivity.
  - cbn [insert_rows]. unfold bind.
    rewrite (insert_row_run _ _ _ _ _ _ _ _ Ht).
    unfold has_key. cbn [fst].
    rewrite bool_decide_eq_false_2 by (apply Hfresh; left).
    apply NoDup_cons in Hnd as [Hk Hnd].
    erewrite IH; [| apply lookup_insert_eq | exact Hnd |].
    + rewrite insert_insert_eq, <- app_assoc. reflexivity.
    + intros k' Hk'. rewrite fmap_app, elem_of_app. intros [Hin|Hin].
      * revert Hin. apply Hfresh. right. exact Hk'.
      * apply list_elem_of_singleton in Hin. subst k'. apply Hk. exact Hk'.
Qed.

Lemma insert_rows_conflict kvs : forall b ca co ct ex t r k,
  co !! t = Some r ->
  k ∈ kvs.*1 -> k ∈ r.*1 ->
  exists r',
    insert_rows t kvs (Build_SQLiteDict b ca co ct ex)
    = (Raise IntegrityError,
       Build_SQLiteDict b ca (<[t := r ++ r']> co) ct ex).
Proof.
  induction kvs as [|[k0 v0] kvs IH]; intros b ca co ct ex t r k Ht Hin Hr.
  - inversion Hin.
  - cbn [insert_rows]. unfold bind.
    rewrite (insert_row_run _ _ _ _ _ _ _ _ Ht).
    unfold has_key. cbn [fst].
    destruct (decide (k0 ∈ r.*1)) as [Hk0|Hk0].
    + rewrite bool_decide_eq_true_2 by exact Hk0.
      exists []. rewrite app_nil_r, insert_id by exact Ht. reflexivity.
    + rewrite bool_decide_eq_false_2 by exact Hk0.
      assert (Hin' : k ∈ kvs.*1).
      { cbn in Hin. apply elem_of_cons in Hin as [->|Hin];
          [contradiction | exact Hin]. }
      destruct (IH b ca (<[t := r ++ [(k0, v0)]]> co) ct ex t
                  (r ++ [(k0, v0)]) k) as (r' & Hrun).
      * apply lookup_insert_eq.
      * exact Hin'.
      * rewrite fmap_app, elem_of_app. left. exact Hr.
      * exists ((k0, v0) :: r'). cbv beta iota.
        etransitivity; [exact Hrun|].
        rewrite insert_insert_eq, <- app_assoc. reflexivity.
Qed.

(** *** The pending rows *)

Lemma pending_rows_keys (c : gmap string pyval) :
  (pending_rows c).*1 = (map_to_list c).*1.
Proof.
  unfold pending_rows. rewrite <- list_fmap_compose. reflexivity.
Qed.

Lemma elem_of_pending_keys (c : gmap string pyval) k :
  k ∈ (pending_rows c).*1 <-> is_Some (c !! k).
Proof.
  rewrite pending_rows_keys, list_elem_of_fmap. split.
  - intros ([k' v] & -> & Hin). exists v. apply elem_of_map_to_list. exact Hin.
  - intros [v Hv]. exists (k, v). split; [reflexivity|].
    apply elem_of_map_to_list. exact Hv.
Qed.

Lemma NoDup_pending_keys (c : gmap string pyval) :
  NoDup (pending_rows c).*1.
Proof. rewrite pending_rows_keys. apply NoDup_fst_map_to_list. Qed.


Lemma pending_rows_empty : pending_rows ∅ = [].
Proof. unfold pending_rows. rewrite map_to_list_empty. reflexivity. Qed.

(** *** Selecting by key *)




Lemma select_key_app_old k (r r' : list row) :
  k ∈ r.*1 -> select_key k (r ++ r') = select_key k r.
Proof.
  intros Hk. unfold select_key. rewrite filter_app, fmap_app.
  apply list_elem_of_fmap in Hk as ([k0 b] & -> & Hin).
  assert (Hf : (k0, b) ∈ filter (fun kv : row => kv.1 = (k0, b).1) r)
    by (apply list_elem_of_filter; split; [reflexivity | exact Hin]).
  destruct (filter (fun kv : row => kv.1 = (k0, b).1) r) as [|x l];
    [inversion Hf | reflexivity].
Qed.

(** *** flush *)

Lemma sql_flush_is__flush sa s :
  read_only (base s) = false -> is_closed (base s) = false ->
  flush sa s = _flush sa s.
Proof.
  intros Hro Hop. unfold flush, bind at 1, get_state.
  rewrite Hro, Hop. reflexivity.
Qed.

Lemma flush_table_empty b ca co ct ex t r :
  is_closed b = false -> co !! t = Some r ->
  default ∅ (ca !! t) = ∅ ->
  flush_table t (Build_SQLiteDict b ca co ct ex)
  = (Ok tt, Build_SQLiteDict b ca co t (SelectAny t :: ex)).
Proof.
  intros Hop Ht Hc. unfold flush_table.
  rewrite (bind_ok _ _ _ _ _ (set_table_existing _ _ _ _ _ _ _ Hop Ht)).
  unfold bind, current_cache. cbn [cache current_table].
  rewrite Hc, map_size_empty. reflexivity.
Qed.

Lemma size_pos_is_Some (c : gmap string pyval) k :
  is_Some (c !! k) -> (0 <? size c) = true.
Proof.
  intros [v Hv]. apply Nat.ltb_lt.
  destruct (decide (size c = 0)) as [Hz|Hnz]; [|lia].
  apply map_size_empty_iff in Hz. subst c. rewrite lookup_empty in Hv.
  discriminate.
Qed.

Lemma executemany_insert_ok b ca co ct ex t r kvs :
  is_closed b = false -> co !! t = Some r ->
  NoDup kvs.*1 -> (forall k, k ∈ kvs.*1 -> k ∉ r.*1) ->
  executemany_insert t kvs (Build_SQLiteDict b ca co ct ex)
  = (Ok tt,
     Build_SQLiteDict b ca (<[t := r ++ kvs]> co) ct (InsertMany t kvs :: ex)).
Proof.
  intros Hop Ht Hnd Hfresh. unfold executemany_insert.
  rewrite (bind_ok _ _ _ _ _ (execute_open _ _ _ _ _ _ Hop)).
  apply insert_rows_ok; assumption.
Qed.

Lemma executemany_insert_conflict b ca co ct ex t r kvs k :
  is_closed b = false -> co !! t = Some r ->
  k ∈ kvs.*1 -> k ∈ r.*1 ->
  exists r',
    executemany_insert t kvs (Build_SQLiteDict b ca co ct ex)
    = (Raise IntegrityError,
       Build_SQLiteDict b ca (<[t := r ++ r']> co) ct (InsertMany t kvs :: ex)).
Proof.
  intros Hop Ht Hk Hr. unfold executemany_insert.
  rewrite (bind_ok _ _ _ _ _ (execute_open _ _ _ _ _ _ Hop)).
  eapply insert_rows_conflict; eassumption.
Qed.

Lemma flush_table_ok b ca co ct ex t r c :
  is_closed b = false -> co !! t = Some r ->
  default ∅ (ca !! t) = c -> (0 <? size c) = true ->
  (forall k, is_Some (c !! k) -> k ∉ r.*1) ->
  flush_table t (Build_SQLiteDict b ca co ct ex)
  = (Ok tt,
     Build_SQLiteDict b (<[t := ∅]> ca) (<[t := r ++ pending_rows c]> co) t
       (Commit :: InsertMany t (pending_rows c) :: SelectAny t :: ex)).
Proof.
  intros Hop Ht Hc Hsz Hfresh. unfold flush_table.
  rewrite (bind_ok _ _ _ _ _ (set_table_existing _ _ _ _ _ _ _ Hop Ht)).
  unfold bind at 1, current_cache at 1. cbn [cache current_table].
  rewrite Hc, Hsz.
  erewrite bind_ok.
  2:{ apply (executemany_insert_ok _ _ _ _ _ _ r); [exact Hop | exact Ht | |].
      - apply NoDup_pending_keys.
      - intros k Hk. apply Hfresh. apply elem_of_pending_keys. exact Hk. }
  unfold commit.
  rewrite (bind_ok _ _ _ _ _ (execute_open _ _ _ _ _ _ Hop)).
  reflexivity.
Qed.

Lemma flush_table_conflict b ca co ct ex t r c k :
  is_closed b = false -> co !! t = Some r ->
  default ∅ (ca !! t) = c ->
  is_Some (c !! k) -> k ∈ r.*1 ->
  exists r',
    flush_table t (Build_SQLiteDict b ca co ct ex)
    = (Raise IntegrityError,
       Build_SQLiteDict b ca (<[t := r ++ r']> co) t
         (InsertMany t (pending_rows c) :: SelectAny t :: ex)).
Proof.
  intros Hop Ht Hc Hk Hr. unfold flush_table.
  rewrite (bind_ok _ _ _ _ _ (set_table_existing _ _ _ _ _ _ _ Hop Ht)).
  unfold bind at 1, current_cache at 1. cbn [cache current_table].
  rewrite Hc, (size_pos_is_Some c k Hk).
  destruct (executemany_insert_conflict b ca co t (SelectAny t :: ex) t r
              (pending_rows c) k Hop Ht)
    as (r' & Hrun); [apply elem_of_pending_keys; exact Hk | exact Hr |].
  exists r'. apply bind_raise. exact Hrun.
Qed.

Lemma flush_ok b ca co ct ex r c :
  read_only b = false -> is_closed b = false -> co !! ct = Some r ->
  default ∅ (ca !! ct) = c -> (0 <? size c) = true ->
  (forall k, is_Some (c !! k) -> k ∉ r.*1) ->
  flush false (Build_SQLiteDict b ca co ct ex)
  = (Ok tt,
     Build_SQLiteDict b (<[ct := ∅]> ca) (<[ct := r ++ pending_rows c]> co) ct
       (SelectAny ct :: Commit :: InsertMany ct (pending_rows c)
        :: SelectAny ct :: ex)).
Proof.
  intros Hro Hop Ht Hc Hsz Hfresh.
  rewrite sql_flush_is__flush by assumption.
  unfold _flush. unfold bind at 1, get_current_table at 1.
  cbn [current_table]. unfold bind at 1, ret at 1.
  cbn [flush_tables].
  erewrite bind_ok.
  2:{ erewrite bind_ok; [reflexivity|].
      apply (flush_table_ok _ _ _ _ _ _ r c); assumption. }
  apply (set_table_existing _ _ _ _ _ _ (r ++ pending_rows c) Hop).
  apply lookup_insert_eq.
Qed.


Lemma flush_conflict b ca co ct ex r c k :
  read_only b = false -> is_closed b = false -> co !! ct = Some r ->
  default ∅ (ca !! ct) = c ->
  is_Some (c !! k) -> k ∈ r.*1 ->
  exists r',
    flush false (Build_SQLiteDict b ca co ct ex)
    = (Raise IntegrityError,
       Build_SQLiteDict b ca (<[ct := r ++ r']> co) ct
         (InsertMany ct (pending_rows c) :: SelectAny ct :: ex)).
Proof.
  intros Hro Hop Ht Hc Hk Hr.
  rewrite sql_flush_is__flush by assumption.
  destruct (flush_table_conflict b ca co ct ex ct r c k Hop Ht Hc Hk Hr)
    as (r' & Hrun).
  exists r'.
  unfold _flush. unfold bind at 1, get_current_table at 1.
  cbn [current_table]. unfold bind at 1, ret at 1.
  cbn [flush_tables].
  apply bind_raise. apply bind_raise. exact Hrun.
Qed.

(** *** The dictionary methods *)

Lemma sql_setitem_run b (ca : gmap string (gmap string pyval))
  (co : gmap string (list row)) ct ex k v :
  read_only b = false ->
  __setitem__ k v (Build_SQLiteDict b ca co ct ex) =
  let c' := <[str k := v]> (default ∅ (ca !! ct)) in
  let s1 := Build_SQLiteDict b (<[ct := c']> ca) co ct ex in
  if (cache_size b <=? Z.of_nat (size c'))%Z
  then (flush false ;; set_current_cache ∅) s1
  else (Ok tt, s1).
Proof.
  intros Hro. unfold __setitem__. unfold bind at 1, get_state at 1.
  cbn [base]. rewrite Hro.
  unfold bind at 1, current_cache at 1. cbn [cache current_table].
  unfold bind at 1, set_current_cache at 1, modify at 1, with_cache.
  cbn [base cache conn current_table executed].
  unfold bind at 1, current_cache at 1. cbn [cache current_table].
  rewrite lookup_insert_eq. cbn [default from_option id].
  cbn zeta. destruct (_ <=? _)%Z; reflexivity.
Qed.

Lemma sql_getitem_cached b (ca : gmap string (gmap string pyval))
  (co : gmap string (list row)) ct ex k v :
  default ∅ (ca !! ct) !! str k = Some v ->
  __getitem__ (One k) (Build_SQLiteDict b ca co ct ex)
  = (Ok (Single v), Build_SQLiteDict b ca co ct ex).
Proof.
  intros Hk. unfold __getitem__, bind, current_cache.
  cbn [cache current_table]. rewrite Hk. reflexivity.
Qed.





(** *** The capacity of the cache *)

Lemma sql_set_triggers_flush b (ca : gmap string (gmap string pyval))
  (co : gmap string (list row)) ct ex k v :
  read_only b = false ->
  let c' := <[str k := v]> (default ∅ (ca !! ct)) in
  let s1 := Build_SQLiteDict b (<[ct := c']> ca) co ct ex in
  ((cache_size b <= Z.of_nat (size c'))%Z ->
   __setitem__ k v (Build_SQLiteDict b ca co ct ex)
   = (flush false ;; set_current_cache ∅) s1 /\
   forall r,
     is_closed b = false -> co !! ct = Some r ->
     (forall k', is_Some (c' !! k') -> k' ∉ r.*1) ->
     exists ex',
       __setitem__ k v (Build_SQLiteDict b ca co ct ex)
       = (Ok tt,
          Build_SQLiteDict b (<[ct := ∅]> (<[ct := ∅]> (<[ct := c']> ca)))
            (<[ct := r ++ pending_rows c']> co) ct ex')) /\
  ((Z.of_nat (size c') < cache_size b)%Z ->
   __setitem__ k v (Build_SQLiteDict b ca co ct ex) = (Ok tt, s1)).
Proof.
  intros Hro c' s1.
  pose proof (sql_setitem_run b ca co ct ex k v Hro) as Hset.
  cbn zeta in Hset. fold c' s1 in Hset.
  split; intros Hsize.
  - destruct (Z.leb_spec (cache_size b) (Z.of_nat (size c'))); [|lia].
    split; [exact Hset|].
    intros r Hop Ht Hfresh. rewrite Hset.
    assert (Hsz : (0 <? size c') = true).
    { apply (size_pos_is_Some c' (str k)). unfold c'.
      rewrite lookup_insert_eq. eexists. reflexivity. }
    pose proof (flush_ok b (<[ct := c']> ca) co ct ex r c' Hro Hop Ht
                  ltac:(rewrite lookup_insert_eq; reflexivity) Hsz Hfresh)
      as Hfl.
    fold s1 in Hfl. rewrite (bind_ok _ _ _ _ _ Hfl).
    eexists. reflexivity.
  - destruct (Z.leb_spec (cache_size b) (Z.of_nat (size c'))); [lia|].
    exact Hset.
Qed.

(** *** Several keys at once *)



(** *** A read-only handle *)

(** C4 (amended): on a read-only handle [delete], [update] and [clear] do
    nothing and do not raise, and [set] raises [RuntimeError]; none of the
    four changes the cache, the database or anything else of the handle. *)
Theorem C4_read_only_writes s k v key items :
  read_only (base s) = true ->
  __setitem__ k v s = (Raise RuntimeError, s) /\
  __delitem__ key s = (Ok tt, s) /\
  update items s = (Ok tt, s) /\
  clear s = (Ok tt, s).
Proof.
  intros Hro. split_and!.
  - unfold __setitem__, bind, get_state. rewrite Hro. reflexivity.
  - unfold __delitem__, bind, get_state. rewrite Hro. reflexivity.
  - unfold update, bind, get_state. rewrite Hro. reflexivity.
  - unfold clear, bind, get_state. rewrite Hro. reflexivity.
Qed.

(** *** A key that is already a row *)

(** C9: when the key is already a row of the current table, [set] then
    [flush] on a writable open handle raises [IntegrityError]: the insert
    is a plain one.  The cache of the table is not cleared, it still holds
    the new value under the key, and the rows that were in the table are
    all still there, so the stored value of the key is the old one. *)
Theorem C9_flush_of_existing_key_raises b
  (ca : gmap string (gmap string pyval)) (co : gmap string (list row))
  ct ex (r : list row) k v :
  read_only b = false -> is_closed b = false ->
  co !! ct = Some r -> str k ∈ r.*1 ->
  let c' := <[str k := v]> (default ∅ (ca !! ct)) in
  exists r' ex',
    (__setitem__ k v ;; flush false) (Build_SQLiteDict b ca co ct ex)
    = (Raise IntegrityError,
       Build_SQLiteDict b (<[ct := c']> ca) (<[ct := r ++ r']> co) ct ex') /\
    c' !! str k = Some v /\
    select_key (str k) (r ++ r') = select_key (str k) r.
Proof.
  intros Hro Hop Ht Hr c'.
  pose proof (sql_setitem_run b ca co ct ex k v Hro) as Hset.
  cbn zeta in Hset. fold c' in Hset.
  assert (Hkc' : c' !! str k = Some v) by apply lookup_insert_eq.
  destruct (flush_conflict b (<[ct := c']> ca) co ct ex r c' (str k)
              Hro Hop Ht) as (r' & Hfl).
  { rewrite lookup_insert_eq. reflexivity. }
  { rewrite Hkc'. eexists. reflexivity. }
  { exact Hr. }
  exists r'. eexists. split_and!.
  - destruct (cache_size b <=? Z.of_nat (size c'))%Z.
    + apply bind_raise. rewrite Hset. apply bind_raise. exact Hfl.
    + rewrite (bind_ok _ _ _ _ _ Hset). exact Hfl.
  - exact Hkc'.
  - apply select_key_app_old. exact Hr.
Qed.

(** *** Arrays *)


(** *** Flushing every table *)

(** One table of the loop of [_flush], its cache empty or not. *)
Lemma flush_table_run b ca co ct ex t r :
  is_closed b = false -> co !! t = Some r ->
  (forall k, is_Some (default ∅ (ca !! t) !! k) -> k ∉ r.*1) ->
  exists ca' ex',
    flush_table t (Build_SQLiteDict b ca co ct ex)
    = (Ok tt,
       Build_SQLiteDict b ca'
         (<[t := r ++ pending_rows (default ∅ (ca !! t))]> co) t ex') /\
    default ∅ (ca' !! t) = ∅ /\
    (forall t', t' <> t -> ca' !! t' = ca !! t').
Proof.
  intros Hop Ht Hfresh.
  destruct (0 <? size (default ∅ (ca !! t))) eqn:Hsz.
  - eexists _, _. split_and!.
    + apply (flush_table_ok _ _ _ _ _ _ r (default ∅ (ca !! t)));
        [exact Hop | exact Ht | reflexivity | exact Hsz | exact Hfresh].
    + rewrite lookup_insert_eq. reflexivity.
    + intros t' Hne. apply lookup_insert_ne. congruence.
  - assert (Hempty : default ∅ (ca !! t) = ∅).
    { apply map_size_empty_iff. apply Nat.ltb_ge in Hsz. lia. }
    eexists _, _. split_and!.
    + rewrite (flush_table_empty _ _ _ _ _ _ r Hop Ht Hempty).
      rewrite Hempty, pending_rows_empty, app_nil_r.
      rewrite (insert_id co t r Ht). reflexivity.
    + exact Hempty.
    + reflexivity.
Qed.

Lemma flush_tables_run tables : forall b ca co ct ex,
  is_closed b = false -> NoDup tables ->
  (forall t, t ∈ tables -> is_Some (co !! t)) ->
  (forall t r k, t ∈ tables -> co !! t = Some r ->
     is_Some (default ∅ (ca !! t) !! k) -> k ∉ r.*1) ->
  exists ca' co' ct' ex',
    flush_tables tables (Build_SQLiteDict b ca co ct ex)
    = (Ok tt, Build_SQLiteDict b ca' co' ct' ex') /\
    (forall t r, t ∈ tables -> co !! t = Some r ->
       co' !! t = Some (r ++ pending_rows (default ∅ (ca !! t))) /\
       default ∅ (ca' !! t) = ∅) /\
    (forall t, t ∉ tables -> co' !! t = co !! t /\ ca' !! t = ca !! t).
Proof.
  induction tables as [|t rest IH]; intros b ca co ct ex Hop Hnd Hex Hfresh.
  - exists ca, co, ct, ex. split_and!; [reflexivity | | ].
    + intros t r Ht. inversion Ht.
    + intros t _. split; reflexivity.
  - apply NoDup_cons in Hnd as [Ht Hnd].
    destruct (Hex t ltac:(left)) as [r Hr].
    destruct (flush_table_run b ca co ct ex t r Hop Hr)
      as (ca1 & ex1 & Hrun1 & Hca1 & Hframe1).
    { intros k Hk. exact (Hfresh t r k ltac:(left) Hr Hk). }
    set (co1 := <[t := r ++ pending_rows (default ∅ (ca !! t))]> co) in *.
    assert (Hother : forall t', t' ∈ rest -> t' <> t)
      by (intros t' Hin ->; contradiction).
    destruct (IH b ca1 co1 t ex1 Hop Hnd) as (ca' & co' & ct' & ex' & Hrun & Hin & Hout).
    { intros t' Hin. unfold co1.
      rewrite lookup_insert_ne by (apply not_eq_sym, Hother, Hin).
      apply Hex. right. exact Hin. }
    { intros t' r' k Hin Hr' Hk. unfold co1 in Hr'.
      rewrite lookup_insert_ne in Hr' by (apply not_eq_sym, Hother, Hin).
      rewrite (Hframe1 t' (Hother t' Hin)) in Hk.
      exact (Hfresh t' r' k ltac:(right; exact Hin) Hr' Hk). }
    exists ca', co', ct', ex'. split_and!.
    + cbn [flush_tables]. rewrite (bind_ok _ _ _ _ _ Hrun1). exact Hrun.
    + intros t' r' Hin' Hr'. apply elem_of_cons in Hin' as [->|Hin'].
      * destruct (Hout t Ht) as [Hco Hca]. rewrite Hco, Hca.
        rewrite Hr in Hr'. injection Hr' as <-.
        split; [apply lookup_insert_eq | exact Hca1].
      * destruct (Hin t' r' Hin') as [Hco Hca].
        { unfold co1. rewrite lookup_insert_ne by (apply not_eq_sym, Hother, Hin').
          exact Hr'. }
        rewrite Hco, Hca, (Hframe1 t' (Hother t' Hin')). split; reflexivity.
    + intros t' Hnin. apply not_elem_of_cons in Hnin as [Hne Hnin].
      destruct (Hout t' Hnin) as [Hco Hca]. rewrite Hco, Hca. unfold co1.
      rewrite lookup_insert_ne by congruence.
      split; [reflexivity | apply Hframe1; exact Hne].
Qed.

(** X15: [flush(save_all=True)] on a writable open handle flushes every
    table of the database, not only the current one: when no table has a
    row for a key pending in its cache, the call succeeds, every table
    gains the rows of its pending entries at its end and has an empty
    cache afterwards, no table appears or disappears, and the current table
    is the one it was. *)
Theorem flush_all_flushes_every_table b
  (ca : gmap string (gmap string pyval)) (co : gmap string (list row))
  ct ex :
  read_only b = false -> is_closed b = false -> is_Some (co !! ct) ->
  (forall t r k, co !! t = Some r ->
     is_Some (default ∅ (ca !! t) !! k) -> k ∉ r.*1) ->
  exists ca' co' ex',
    flush true (Build_SQLiteDict b ca co ct ex)
    = (Ok tt, Build_SQLiteDict b ca' co' ct ex') /\
    (forall t r, co !! t = Some r ->
       co' !! t = Some (r ++ pending_rows (default ∅ (ca !! t))) /\
       default ∅ (ca' !! t) = ∅) /\
    (forall t, co !! t = None -> co' !! t = None /\ ca' !! t = ca !! t).
Proof.
  intros Hro Hop [r0 Hct] Hfresh.
  rewrite sql_flush_is__flush by assumption.
  unfold _flush. unfold bind at 1, get_current_table at 1.
  cbn [current_table].
  unfold get_all_tables.
  rewrite (bind_ok _ _ _ _ _
             (bind_ok _ _ _ _ _ (execute_open SelectTables b ca co ct ex Hop))).
  cbn [conn].
  assert (Hdom : forall t, t ∈ (map_to_list co).*1 <-> is_Some (co !! t)).
  { intros t. rewrite list_elem_of_fmap. split.
    - intros ([t' r] & -> & Hin). exists r. apply elem_of_map_to_list. exact Hin.
    - intros [r Hr]. exists (t, r). split; [reflexivity|].
      apply elem_of_map_to_list. exact Hr. }
  destruct (flush_tables_run (map_to_list co).*1 b ca co ct
              (SelectTables :: ex) Hop)
    as (ca' & co' & ct' & ex' & Hrun & Hin & Hout).
  { apply NoDup_fst_map_to_list. }
  { intros t Ht. apply Hdom. exact Ht. }
  { intros t r k _ Hr Hk. exact (Hfresh t r k Hr Hk). }
  rewrite (bind_ok _ _ _ _ _ Hrun).
  destruct (Hin ct r0 (proj2 (Hdom ct) (ex_intro _ r0 Hct)) Hct) as [Hct' _].
  exists ca', co'. eexists. split_and!.
  - exact (set_table_existing b ca' co' ct' ex' ct _ Hop Hct').
  - intros t r Hr. apply Hin; [|exact Hr]. apply Hdom. eexists. exact Hr.
  - intros t Hnone.
    destruct (Hout t) as [Hco Hca].
    { rewrite Hdom, Hnone. intros [? ?]. discriminate. }
    rewrite Hco, Hca. split; [exact Hnone | reflexivity].
Qed.
(** *** Dropping a table *)

Lemma set_table_new b ca co ct ex t :
  is_closed b = false -> co !! t = None ->
  set_table (Some t) (Build_SQLiteDict b ca co ct ex)
  = (Ok tt,
     Build_SQLiteDict b ca (<[t := []]> co) t
       (Commit :: CreateTable t :: SelectAny t :: ex)).
Proof.
  intros Hop Ht. unfold set_table.
  change (default _DEFAULT_TABLE (Some t)) with t.
  rewrite (bind_ok _ _ _ _ _ (is_table_exist_run _ _ _ _ _ _ Hop)).
  rewrite Ht. rewrite bool_decide_eq_false_2 by (intros [? ?]; discriminate).
  cbn [negb].
  unfold bind, commit, execute, set_rows, modify, with_conn,
    with_current_table, with_executed.
  cbn [base cache conn current_table executed]. rewrite Hop.
  cbn [base cache conn current_table executed]. rewrite Hop.
  reflexivity.
Qed.

(** X16: [drop_table] never touches the write-cache.  On a writable open
    handle, dropping by name a table other than the default one removes the
    table from the database and leaves its pending entries in the cache and
    the current table as it was: if the dropped table was the current one,
    [len] then raises [OperationalError], and selecting the table again
    creates it empty with the old pending entries still readable.  The
    default table is refused with [ValueError] and nothing changes. *)
Theorem drop_table_keeps_the_cache b
  (ca : gmap string (gmap string pyval)) (co : gmap string (list row))
  ct ex t (r : list row) :
  read_only b = false -> is_closed b = false ->
  t <> _DEFAULT_TABLE -> co !! t = Some r ->
  let s := Build_SQLiteDict b ca co ct ex in
  let s' := Build_SQLiteDict b ca (delete t co) ct (DropTable t :: ex) in
  drop_table (Some t) s = (Ok tt, s') /\
  (ct = t -> (__len__ s').1 = Raise OperationalError) /\
  (forall k v,
     default ∅ (ca !! t) !! str k = Some v ->
     ((set_table (Some t) ;; __getitem__ (One k)) s').1 = Ok (Single v)) /\
  drop_table (Some _DEFAULT_TABLE) s = (Raise ValueError, s).
Proof.
  intros Hro Hop Hne Ht s s'. split_and!.
  - unfold drop_table, s. unfold bind at 1, get_state at 1.
    cbn [base]. rewrite Hro.
    unfold bind at 1, ret at 1.
    rewrite bool_decide_eq_false_2 by exact Hne.
    rewrite (bind_ok _ _ _ _ _ (execute_open _ _ _ _ _ _ Hop)).
    unfold bind, rows_of. cbn [conn]. rewrite Ht. reflexivity.
  - intros ->. unfold __len__, s'. unfold bind at 1, get_state at 1.
    cbn [current_table].
    rewrite (bind_ok _ _ _ _ _ (execute_open _ _ _ _ _ _ Hop)).
    unfold bind, rows_of. cbn [conn]. rewrite lookup_delete_eq. reflexivity.
  - intros k v Hk. unfold s'.
    rewrite (bind_ok _ _ _ _ _
               (set_table_new b ca (delete t co) ct _ t Hop
                  (lookup_delete_eq co t))).
    rewrite (sql_getitem_cached _ _ _ _ _ k v Hk). reflexivity.
  - unfold drop_table, s. unfold bind at 1, get_state at 1.
    cbn [base]. rewrite Hro.
    unfold bind at 1, ret at 1.
    rewrite bool_decide_eq_true_2 by reflexivity. reflexivity.
Qed.
(** *** Membership and deletion *)








(** *** update *)



(** *** Selecting a table *)

Lemma set_table_run b (ca : gmap string (gmap string pyval))
  (co : gmap string (list row)) ct ex t :
  is_closed b = false ->
  exists co' ex',
    set_table (Some t) (Build_SQLiteDict b ca co ct ex)
    = (Ok tt, Build_SQLiteDict b ca co' t ex') /\
    co' !! t = Some (default [] (co !! t)) /\
    (forall t', t' <> t -> co' !! t' = co !! t').
Proof.
  intros Hop. destruct (co !! t) as [r|] eqn:Ht.
  - exists co. eexists. split_and!.
    + exact (set_table_existing b ca co ct ex t r Hop Ht).
    + exact Ht.
    + reflexivity.
  - exists (<[t := []]> co). eexists. split_and!.
    + exact (set_table_new b ca co ct ex t Hop Ht).
    + apply lookup_insert_eq.
    + intros t' Hne. apply lookup_insert_ne. congruence.
Qed.


(** *** Opening a database *)

Lemma sqlite_restore_run b (existing : option (gmap string (list row))) :
  is_closed b = false ->
  exists co' ex',
    _restore_dict b existing
    = (Ok tt, Build_SQLiteDict b ∅ co' _DEFAULT_TABLE ex') /\
    co' !! _DEFAULT_TABLE
    = Some (default [] (default ∅ existing !! _DEFAULT_TABLE)) /\
    (forall t, t <> _DEFAULT_TABLE -> co' !! t = default ∅ existing !! t).
Proof.
  intros Hop. unfold _restore_dict.
  rewrite (bind_ok _ _ _ _ _ (execute_open _ _ _ _ _ _ Hop)).
  rewrite (bind_ok _ _ _ _ _ (execute_open _ _ _ _ _ _ Hop)).
  rewrite (bind_ok _ _ _ _ _ (execute_open _ _ _ _ _ _ Hop)).
  unfold commit.
  rewrite (bind_ok _ _ _ _ _ (execute_open _ _ _ _ _ _ Hop)).
  match goal with
  | |- context [set_table _ (Build_SQLiteDict _ ?ca ?co ?ct ?ex)] =>
      destruct (set_table_run b ca co ct ex _DEFAULT_TABLE Hop)
        as (co' & ex' & Hrun & Hdef & Hframe)
  end.
  exists co', ex'. split_and!; [exact Hrun | exact Hdef | exact Hframe].
Qed.

(** X21: opening a database never changes a table that exists.  On a
    handle that is not closed, [_restore_dict] succeeds whether the handle
    is read-only or not; the cache is empty, the current table is the
    default one, which is created empty if the database did not have it
    (also on a path that held no database), and every other table is as it
    was. *)
Theorem sqlite_open_keeps_the_tables b
  (existing : option (gmap string (list row))) :
  is_closed b = false ->
  exists d,
    _restore_dict b existing = (Ok tt, d) /\
    base d = b /\ cache d = ∅ /\ current_table d = _DEFAULT_TABLE /\
    conn d !! _DEFAULT_TABLE
    = Some (default [] (default ∅ existing !! _DEFAULT_TABLE)) /\
    (forall t, t <> _DEFAULT_TABLE ->
       conn d !! t = default ∅ existing !! t).
Proof.
  intros Hop.
  destruct (sqlite_restore_run b existing Hop)
    as (co' & ex' & Hrun & Hdef & Hframe).
  eexists. split; [exact Hrun|].
  split_and!; [reflexivity | reflexivity | reflexivity | exact Hdef
              | exact Hframe].
Qed.

(** *** The order of a fetch of several keys *)



(** *** items, len and clear *)






End Facts.
End SQLiteFacts.

(** ** TableDict *)

Module TableFacts.
Import Table.
Section Facts.
Context `{Codec}.

Lemma as_table_sqlite name : as_table name !! "_sqlite"%string = Some Store.
Proof.
  unfold as_table. rewrite lookup_insert_ne by discriminate.
  apply lookup_insert_eq.
Qed.

Lemma as_table_name name :
  as_table name !! "_name"%string = Some (Text (str name)).
Proof. unfold as_table. apply lookup_insert_eq. Qed.

(** [__init__] stores the name as [_name]; there is no [_table_name]. *)
Lemma as_table_no_table_name name :
  as_table name !! "_table_name"%string = None.
Proof.
  unfold as_table. rewrite !lookup_insert_ne by discriminate.
  apply lookup_empty.
Qed.

Lemma table_context_raises {A} name (body : M SQLite.SQLiteDict A) s :
  table_context (as_table name) body s = (Raise AttributeError, s).
Proof.
  unfold table_context, getattr, bind.
  rewrite as_table_sqlite, as_table_no_table_name. reflexivity.
Qed.

(** C8 (the code departs from the claim): every dictionary operation on a
    view obtained from [as_table] raises [AttributeError] on entering
    [table_context], whatever the store and the table: the operation is not
    performed, no statement is sent, and the store is left exactly as it
    was. *)
Theorem C8_view_operations_raise name o s :
  run_op (as_table name) o s = (Raise AttributeError, s).
Proof.
  destruct o; unfold run_op, lift;
    apply bind_raise; apply table_context_raises.
Qed.

End Facts.
End TableFacts.

(** ** The instances of a process *)

Module RegistryFacts.
Import Registry.
Section Facts.
Context `{Codec}.
Variable abspath : string -> string.

(** A path that is registered: [__new__] returns the registered object
    and changes nothing, whatever the other arguments. *)
Lemma new_registered cls p ro cs w all_instances self :
  _INSTANCES w !! __name__ cls = Some all_instances ->
  all_instances !! abspath p = Some self ->
  __new__ abspath cls p ro cs w = (Ok self, w).
Proof.
  intros Hc Hp. unfold __new__, bind, get_state.
  rewrite Hc. cbn [default from_option id]. unfold id. rewrite Hp.
  reflexivity.
Qed.

(** A path that is not: a new object is registered. *)
Lemma new_fresh cls p ro cs w :
  default ∅ (_INSTANCES w !! __name__ cls) !! abspath p = None ->
  __new__ abspath cls p ro cs w =
  (Ok (length (heap w)),
   with_instances
     (<[__name__ cls :=
          <[abspath p := length (heap w)]>
            (default ∅ (_INSTANCES w !! __name__ cls))]> (_INSTANCES w))
     (with_heap
        (heap w ++
         [Bare cls {| cache_size := cs; read_only := ro;
                      new_args_called := false; path := abspath p;
                      is_closed := false |}])
        w)).
Proof.
  intros Hp. unfold __new__, bind, get_state. rewrite Hp. reflexivity.
Qed.

Lemma started_not_registered cls p :
  default ∅ (_INSTANCES started !! __name__ cls) !! abspath p = None.
Proof. reflexivity. Qed.

Lemma init_mmap self p w o m :
  heap w !! self = Some o -> class_of o = MmapDict ->
  Mmap._restore_dict (base_of o) (files w !! path (base_of o)) = Ok m ->
  __init__ abspath self p false w =
  (Ok tt,
   with_files (<[path (base_of o) := content (Mmap.file m)]> (files w))
     (with_heap (<[self := AMmap m]> (heap w)) w)).
Proof.
  intros Ho Hc Hm. unfold __init__, bind at 1, get_state at 1.
  cbn [andb]. unfold bind at 1, ret at 1.
  unfold _restore_dict, bind at 1, instance_of. rewrite Ho.
  unfold bind at 1, get_state at 1. rewrite Hc, Hm. reflexivity.
Qed.

Lemma open_run cls p ro cs ov w self w1 w2 :
  __new__ abspath cls p ro cs w = (Ok self, w1) ->
  __init__ abspath self p ov w1 = (Ok tt, w2) ->
  open abspath cls p ro cs ov w = (Ok self, w2).
Proof.
  intros Hn Hi. unfold open.
  rewrite (bind_ok _ _ _ _ _ Hn), (bind_ok _ _ _ _ _ Hi). reflexivity.
Qed.

Lemma on_mmap_run {A} self (method : M Mmap.MmapDict A) w m r m' :
  heap w !! self = Some (AMmap m) -> method m = (r, m') ->
  on_mmap self method w =
  (r, with_files
        (<[path (Mmap.base m') := content (Mmap.file m')]> (files w))
        (with_heap (<[self := AMmap m']> (heap w)) w)).
Proof.
  intros Ho Hm. unfold on_mmap. rewrite Ho, Hm. reflexivity.
Qed.

(** [__init__] with [override] on a path that exists removes the file
    before the state is rebuilt, on a second open as on a first. *)
Lemma init_override self p w :
  isfile abspath p w = true ->
  __init__ abspath self p true w =
  (remove abspath p ;; _restore_dict self) w.
Proof.
  intros Hf. unfold __init__, bind at 1, get_state at 1.
  cbn [andb]. rewrite Hf. reflexivity.
Qed.

(** C2 (the code departs from the claim): a second open of a path returns
    the object of the first open, with its attributes [read_only] and
    [cache_size] as they were, but [__init__] runs again on it and
    [_restore_dict] rebuilds its state from the file: an entry that was
    pending in its write-cache is gone. *)
Theorem C2_second_open_resets_the_handle p k v ro' cs' :
  exists w2 m2 w3 m3,
    (self <- open abspath MmapDict p false 250 false ;;
     on_mmap self (Mmap.__setitem__ (KStr k) v) ;;
     ret self) started = (Ok 0, w2) /\
    heap w2 = [AMmap m2] /\
    Mmap.cache_dict m2 = Some {[KStr k := v]} /\
    open abspath MmapDict p ro' cs' false w2 = (Ok 0, w3) /\
    heap w3 = [AMmap m3] /\
    Mmap.base m3 = Mmap.base m2 /\
    Mmap.cache_dict m3 = Some ∅.
Proof.
  set (b := {| cache_size := 250; read_only := false;
               new_args_called := false; path := abspath p;
               is_closed := false |}).
  set (m1 := Mmap.created b).
  set (m2 := Mmap.with_cache (Some {[KStr k := v]}) m1).
  assert (Hopen1 : exists w1,
            open abspath MmapDict p false 250 false started = (Ok 0, w1) /\
            heap w1 = [AMmap m1] /\
            files w1 = {[abspath p := content (Mmap.file m1)]} /\
            _INSTANCES w1 = {["MmapDict"%string := {[abspath p := 0]}]}).
  { eexists. split.
    - eapply open_run.
      + apply new_fresh. apply started_not_registered.
      + eapply init_mmap; [reflexivity | reflexivity |].
        apply MmapFacts.restore_new. reflexivity.
    - split_and!; reflexivity. }
  destruct Hopen1 as (w1 & Hopen1 & Hheap1 & Hfiles1 & Hinst1).
  assert (Hset : Mmap.__setitem__ (KStr k) v m1 = (Ok tt, m2)).
  { rewrite (MmapFacts.setitem_run m1 ∅ (KStr k) v) by reflexivity.
    cbn zeta. rewrite insert_empty, map_size_singleton. reflexivity. }
  assert (Hrun1 : exists w2,
            (self <- open abspath MmapDict p false 250 false ;;
             on_mmap self (Mmap.__setitem__ (KStr k) v) ;;
             ret self) started = (Ok 0, w2) /\
            heap w2 = [AMmap m2] /\
            files w2 = {[abspath p := content (Mmap.file m1)]} /\
            _INSTANCES w2 = {["MmapDict"%string := {[abspath p := 0]}]}).
  { eexists. split.
    - rewrite (bind_ok _ _ _ _ _ Hopen1).
      erewrite bind_ok; [reflexivity|].
      eapply on_mmap_run; [rewrite Hheap1; reflexivity | exact Hset].
    - cbn [heap files _INSTANCES with_files with_heap].
      rewrite Hheap1, Hfiles1, Hinst1. split_and!; [reflexivity | | reflexivity].
      apply insert_id. apply lookup_singleton_eq. }
  destruct Hrun1 as (w2 & Hrun1 & Hheap2 & Hfiles2 & Hinst2).
  exists w2, m2. eexists. eexists. split_and!.
  - exact Hrun1.
  - exact Hheap2.
  - reflexivity.
  - eapply open_run.
    + eapply new_registered.
      * rewrite Hinst2. apply lookup_singleton_eq.
      * apply lookup_singleton_eq.
    + eapply init_mmap.
      * rewrite Hheap2. reflexivity.
      * reflexivity.
      * rewrite Hfiles2. cbn [base_of Mmap.base m2 Mmap.with_cache m1 Mmap.created path b].
        rewrite lookup_singleton_eq.
        apply (MmapFacts.restore_existing b _ 104 0); vm_compute; reflexivity || lia.
  - cbn [heap with_files with_heap]. rewrite Hheap2. reflexivity.
  - reflexivity.
  - reflexivity.
Qed.
(** *** Closing *)

Lemma mmap_flush_closed sa m :
  is_closed (Mmap.base m) = true -> Mmap.flush sa m = (Ok tt, m).
Proof.
  intros Hcl. unfold Mmap.flush, bind, get_state. rewrite Hcl, orb_true_r.
  reflexivity.
Qed.

Lemma mmap_close_run m idx c :
  Mmap.indices_dict m = Some idx -> Mmap.cache_dict m = Some c ->
  Mmap._close m
  = (Ok tt, Mmap.with_cache None (Mmap.with_indices None m)).
Proof.
  intros Hi Hc. unfold Mmap._close, bind at 1, get_state at 1. rewrite Hi.
  unfold bind at 1, modify at 1.
  erewrite bind_ok; [| apply MmapFacts.get_cache_run; exact Hc ].
  reflexivity.
Qed.

Lemma close_mmap_run self w m idx c all_instances reg :
  heap w !! self = Some (AMmap m) ->
  is_closed (Mmap.base m) = false ->
  Mmap.indices_dict m = Some idx -> Mmap.cache_dict m = Some c ->
  _INSTANCES w !! "MmapDict"%string = Some all_instances ->
  all_instances !! path (Mmap.base m) = Some reg ->
  close self w =
  (Ok tt,
   {| files := <[path (Mmap.base m) := content (Mmap.file m)]> (files w);
      databases := databases w;
      heap := <[self := AMmap (closed_mmap m)]> (heap w);
      _INSTANCES := <["MmapDict"%string :=
                        delete (path (Mmap.base m)) all_instances]>
                      (_INSTANCES w) |}).
Proof.
  intros Ho Hop Hi Hc Hreg Hp.
  assert (Hlt : self < length (heap w)) by (eapply lookup_lt_Some; exact Ho).
  set (mc := Mmap.with_base (close_base (Mmap.base m)) m).
  unfold close. unfold bind at 1, instance_of at 1. rewrite Ho.
  cbn [base_of class_of]. rewrite Hop.
  unfold bind at 1, set_instance at 1, modify at 1. cbn [set_closed].
  fold mc.
  destruct w as [fi db hp inst]. cbn [heap files databases _INSTANCES] in *.
  unfold with_heap. cbn [heap files databases _INSTANCES].
  assert (Hflush :
    (if read_only (Mmap.base m) then ret tt
     else on_mmap self (Mmap.flush true))
      {| files := fi; databases := db;
         heap := <[self := AMmap mc]> hp; _INSTANCES := inst |}
    = (Ok tt,
       {| files := if read_only (Mmap.base m) then fi
                   else <[path (Mmap.base m) := content (Mmap.file m)]> fi;
          databases := db;
          heap := <[self := AMmap mc]> hp; _INSTANCES := inst |})).
  { destruct (read_only (Mmap.base m)); [reflexivity|].
    erewrite on_mmap_run.
    2:{ cbn [heap]. apply list_lookup_insert_eq. exact Hlt. }
    2:{ apply mmap_flush_closed. reflexivity. }
    unfold with_files, with_heap. cbn [heap files databases _INSTANCES].
    rewrite list_insert_insert_eq. reflexivity. }
  rewrite (bind_ok _ _ _ _ _ Hflush).
  unfold bind at 1, deregister at 1, bind at 1, get_state at 1.
  cbn [class_of __name__ _INSTANCES base_of]. rewrite Hreg.
  cbn [default from_option]. unfold id. rewrite Hp.
  unfold modify at 1, with_instances.
  cbn [heap files databases _INSTANCES].
  erewrite on_mmap_run.
  2:{ cbn [heap]. apply list_lookup_insert_eq. exact Hlt. }
  2:{ apply (mmap_close_run mc idx c); assumption. }
  unfold with_files, with_heap. cbn [heap files databases _INSTANCES].
  rewrite list_insert_insert_eq.
  f_equal. f_equal.
  destruct (read_only (Mmap.base m)); [reflexivity|].
  apply insert_insert_eq.
Qed.
(** X10: [close] never writes the pending entries.  On an open registered
    [MmapDict] whose path holds the file of the handle, [close] succeeds and
    leaves every file as it was, whatever is pending in the write-cache and
    whether or not the handle is read-only: the flag [_is_closed] is set
    before [flush] is called, and [flush] returns at once on a closed
    handle.  The handle is removed from [_INSTANCES], every later lookup
    on it raises [AttributeError], and a second [close] does nothing. *)
Theorem close_never_flushes self w m idx c all_instances reg :
  heap w !! self = Some (AMmap m) ->
  is_closed (Mmap.base m) = false ->
  Mmap.indices_dict m = Some idx -> Mmap.cache_dict m = Some c ->
  _INSTANCES w !! "MmapDict"%string = Some all_instances ->
  all_instances !! path (Mmap.base m) = Some reg ->
  files w !! path (Mmap.base m) = Some (content (Mmap.file m)) ->
  exists w',
    close self w = (Ok tt, w') /\
    files w' = files w /\
    default ∅ (_INSTANCES w' !! "MmapDict"%string) !! path (Mmap.base m)
    = None /\
    (forall k,
       on_mmap self (Mmap.__getitem__ k) w' = (Raise AttributeError, w')) /\
    close self w' = (Ok tt, w').
Proof.
  intros Ho Hop Hi Hc Hreg Hp Hfile.
  assert (Hlt : self < length (heap w)) by (eapply lookup_lt_Some; exact Ho).
  eexists. split; [exact (close_mmap_run self w m idx c _ _ Ho Hop Hi Hc Hreg Hp)|].
  cbn [files heap _INSTANCES].
  assert (Hself : <[self := AMmap (closed_mmap m)]> (heap w) !! self
                  = Some (AMmap (closed_mmap m)))
    by (apply list_lookup_insert_eq; exact Hlt).
  split_and!.
  - apply insert_id. exact Hfile.
  - rewrite lookup_insert_eq. cbn [default from_option]. unfold id.
    apply lookup_delete_eq.
  - intros k. unfold on_mmap. cbn [heap]. rewrite Hself.
    unfold Mmap.__getitem__, bind, Mmap.get_cache, closed_mmap.
    cbn [Mmap.cache_dict Mmap.with_cache].
    unfold with_files, with_heap. cbn [heap files databases _INSTANCES].
    rewrite list_insert_insert_eq.
    cbn [Mmap.base Mmap.file Mmap.with_cache Mmap.with_indices
         Mmap.with_base close_base path].
    rewrite insert_insert_eq. reflexivity.
  - unfold close. unfold bind at 1, instance_of at 1. cbn [heap].
    rewrite Hself. reflexivity.
Qed.
(** *** Opening a path that is not registered *)

(** The attributes [__new__] gives a new object. *)
Lemma restore_bare self w cls b :
  heap w !! self = Some (Bare cls b) ->
  _restore_dict self w =
  match cls with
  | MmapDict =>
      match Mmap._restore_dict b (files w !! path b) with
      | Ok m =>
          (Ok tt,
           with_files (<[path b := content (Mmap.file m)]> (files w))
             (with_heap (<[self := AMmap m]> (heap w)) w))
      | Raise e => (Raise e, w)
      end
  | SQLiteDict =>
      let (r, d) := SQLite._restore_dict b (databases w !! path b) in
      (match r with Ok _ => Ok tt | Raise e => Raise e end,
       with_databases (<[path b := SQLite.conn d]> (databases w))
         (with_heap (<[self := ASQLite d]> (heap w)) w))
  end.
Proof.
  intros Ho. unfold _restore_dict, bind at 1, instance_of. rewrite Ho.
  unfold bind at 1, get_state at 1. cbn [class_of base_of].
  destruct cls.
  - destruct (Mmap._restore_dict b (files w !! path b)); reflexivity.
  - destruct (SQLite._restore_dict b (databases w !! path b)) as [[[]|e] d];
      reflexivity.
Qed.

Lemma init_plain self p :
  __init__ abspath self p false = _restore_dict self.
Proof. reflexivity. Qed.

Lemma open_fresh_mmap p ro cs w :
  default ∅ (_INSTANCES w !! "MmapDict"%string) !! abspath p = None ->
  let b := {| cache_size := cs; read_only := ro; new_args_called := false;
              path := abspath p; is_closed := false |} in
  let registered :=
    <["MmapDict"%string :=
        <[abspath p := length (heap w)]>
          (default ∅ (_INSTANCES w !! "MmapDict"%string))]> (_INSTANCES w) in
  open abspath MmapDict p ro cs false w =
  match Mmap._restore_dict b (files w !! abspath p) with
  | Ok m =>
      (Ok (length (heap w)),
       {| files := <[abspath p := content (Mmap.file m)]> (files w);
          databases := databases w;
          heap := heap w ++ [AMmap m];
          _INSTANCES := registered |})
  | Raise e =>
      (Raise e,
       {| files := files w; databases := databases w;
          heap := heap w ++ [Bare MmapDict b];
          _INSTANCES := registered |})
  end.
Proof.
  intros Hp b registered. unfold open.
  rewrite (bind_ok _ _ _ _ _ (new_fresh MmapDict p ro cs w Hp)).
  fold b. rewrite init_plain.
  match goal with
  | |- context [_restore_dict ?self] =>
      match goal with
      | |- bind _ _ ?w1 = _ =>
          pose proof (restore_bare self w1 MmapDict b) as Hres
      end
  end.
  cbn [heap files with_instances with_heap] in Hres.
  rewrite lookup_app_r, Nat.sub_diag in Hres by lia.
  specialize (Hres eq_refl). cbn [path b] in Hres. fold b in Hres.
  destruct (Mmap._restore_dict b (files w !! abspath p)) as [m|e].
  - rewrite (bind_ok _ _ _ _ _ Hres). unfold ret, with_files, with_heap.
    cbn [heap files databases _INSTANCES].
    replace (length (heap w)) with (length (heap w) + 0) at 3 by lia.
    rewrite insert_app_r. reflexivity.
  - rewrite (bind_raise _ _ _ _ _ Hres). reflexivity.
Qed.
(** *** A store alone in its process *)

Lemma on_mmap_record {A} self (method : M Mmap.MmapDict A) fi db hp inst
  m r m' :
  hp !! self = Some (AMmap m) -> method m = (r, m') ->
  on_mmap self method
    {| files := fi; databases := db; heap := hp; _INSTANCES := inst |} =
  (r, {| files := <[path (Mmap.base m') := content (Mmap.file m')]> fi;
         databases := db; heap := <[self := AMmap m']> hp;
         _INSTANCES := inst |}).
Proof.
  intros Ho Hm. unfold on_mmap. cbn [heap]. rewrite Ho, Hm. reflexivity.
Qed.

Lemma open_started p cs :
  let b := {| cache_size := cs; read_only := false; new_args_called := false;
              path := abspath p; is_closed := false |} in
  open abspath MmapDict p false cs false started =
  (Ok 0,
   {| files := {[abspath p := content (Mmap.file (Mmap.created b))]};
      databases := ∅;
      heap := [AMmap (Mmap.created b)];
      _INSTANCES := {["MmapDict"%string := {[abspath p := 0]}]} |}).
Proof.
  intros b.
  rewrite (open_fresh_mmap p false cs started
             (started_not_registered MmapDict p)).
  cbn [files started]. rewrite lookup_empty. fold b.
  rewrite (MmapFacts.restore_new b eq_refl). reflexivity.
Qed.

Lemma set_pending b k v :
  read_only b = false -> (1 <= cache_size b)%Z ->
  Mmap.__setitem__ (KStr k) v (Mmap.created b)
  = (Ok tt, Mmap.with_cache (Some {[KStr k := v]}) (Mmap.created b)).
Proof.
  intros Hro Hcs.
  rewrite (MmapFacts.setitem_run (Mmap.created b) ∅ (KStr k) v Hro eq_refl).
  cbn zeta. cbn [str]. rewrite insert_empty, map_size_singleton.
  cbn [Mmap.created Mmap.base].
  destruct (Z.ltb_spec (cache_size b) (Z.of_nat 1)); [lia | reflexivity].
Qed.
(** X11: what survives [close].  In a process that has opened no store,
    create an [MmapDict] with a cache of at least one entry, set a key, and
    close the handle.  If [flush(save_all=True)] was called before the
    [close], a later open of the path finds the key with its value (for a
    supported value, a file within the width of the header fields, and a
    [cPickle] that reads back what it dumps and never dumps the empty
    string).  If it was not, the later open finds the file of an empty
    store: the new handle has nothing pending and the index bytes it holds
    are the empty string. *)
Theorem entries_survive_close_only_if_saved p cs k v ro' cs' :
  (1 <= cs)%Z ->
  (supported v ->
   (forall j, pickle_loads (pickle_dumps j) = Some j) ->
   (forall j, pickle_dumps j <> []) ->
   Mmap.fits
     (104 + length (marshal_dumps v) +
      length (pickle_dumps {[KStr k := (104, length (marshal_dumps v))]})) ->
   ((self <- open abspath MmapDict p false cs false ;;
     on_mmap self (Mmap.__setitem__ (KStr k) v) ;;
     on_mmap self (Mmap.flush true) ;;
     close self ;;
     self' <- open abspath MmapDict p ro' cs' false ;;
     on_mmap self' (Mmap.__getitem__ (KStr k))) started).1 = Ok v) /\
  (exists w m,
     (self <- open abspath MmapDict p false cs false ;;
      on_mmap self (Mmap.__setitem__ (KStr k) v) ;;
      close self ;;
      open abspath MmapDict p ro' cs' false) started = (Ok 1, w) /\
     files w !! abspath p
     = Some (Mmap.HEADER ++ fmt_d Mmap.SIZE_BYTES 104
               ++ fmt_d Mmap.SIZE_BYTES 0) /\
     heap w !! 1 = Some (AMmap m) /\
     Mmap.cache_dict m = Some ∅ /\
     Mmap.indices_dict m = Some (Mmap.Deferred [])).
Proof.
  intros Hcs.
  set (b := {| cache_size := cs; read_only := false; new_args_called := false;
               path := abspath p; is_closed := false |}).
  set (b' := {| cache_size := cs'; read_only := ro'; new_args_called := false;
                path := abspath p; is_closed := false |}).
  set (m1 := Mmap.created b).
  set (m2 := Mmap.with_cache (Some {[KStr k := v]}) m1).
  pose proof (open_started p cs) as Hopen. cbn zeta in Hopen.
  fold b m1 in Hopen.
  pose proof (set_pending b k v eq_refl Hcs) as Hset. fold m1 m2 in Hset.
  assert (Hwf2 : Mmap.wf m2 {[KStr k := v]} ∅ 104).
  { apply (MmapFacts.wf_set_cache m1 ∅ ∅ 104 k v).
    apply MmapFacts.created_wf. reflexivity. }
  (* the second open, on a path that [close] has deregistered *)
  assert (Hreopen : forall (m : Mmap.MmapDict) (old : instance) m3,
    Mmap._restore_dict b' (Some (content (Mmap.file m))) = Ok m3 ->
    open abspath MmapDict p ro' cs' false
      {| files := {[abspath p := content (Mmap.file m)]};
         databases := ∅;
         heap := [old];
         _INSTANCES := {["MmapDict"%string := ∅]} |}
    = (Ok 1,
       {| files := {[abspath p := content (Mmap.file m3)]};
          databases := ∅;
          heap := [old; AMmap m3];
          _INSTANCES := {["MmapDict"%string := {[abspath p := 1]}]} |})).
  { intros m old m3 Hres.
    rewrite open_fresh_mmap
      by (cbn [_INSTANCES]; rewrite lookup_singleton_eq; reflexivity).
    cbn [files heap databases _INSTANCES length]. fold b'.
    rewrite lookup_singleton_eq, Hres.
    rewrite lookup_singleton_eq. cbn [default from_option]. unfold id.
    rewrite !insert_singleton_eq. reflexivity. }
  split.
  - intros Hv Hload Hne Hfit.
    pose proof (MmapFacts.fits_one_entry b k v eq_refl eq_refl Hfit) as Hfit2.
    fold m1 m2 in Hfit2.
    destruct (MmapFacts.flush_all_reopen m2 _ _ _ b' Hwf2 eq_refl eq_refl
                Hload Hne Hfit2)
      as (m3 & m4 & i' & e' & Hflush & Hwf3 & Hb3 & Hres & Hwf4 & _ & _ & Hkeep).
    rewrite (bind_ok _ _ _ _ _ Hopen).
    erewrite bind_ok; [| apply (on_mmap_record 0 _ _ _ _ _ m1 _ m2);
                         [reflexivity | exact Hset] ].
    erewrite bind_ok; [| apply (on_mmap_record 0 _ _ _ _ _ m2 _ m3);
                         [reflexivity | exact Hflush] ].
    cbn [list_insert]. 
    assert (Hp3 : path (Mmap.base m3) = abspath p) by (rewrite Hb3; reflexivity).
    rewrite Hp3. cbn [m2 Mmap.base Mmap.with_cache m1 Mmap.created path b].
    rewrite !insert_singleton_eq.
    pose proof (Mmap.wf_index _ _ _ _ Hwf3) as Hidx3.
    assert (Hi3 : exists idx, Mmap.indices_dict m3 = Some idx).
    { unfold Mmap.index_of in Hidx3.
      destruct (Mmap.indices_dict m3); [eexists; reflexivity | discriminate]. }
    destruct Hi3 as [idx Hi3].
    erewrite bind_ok.
    2:{ eapply (close_mmap_run 0 _ m3 idx ∅).
        - reflexivity.
        - exact (Mmap.wf_open _ _ _ _ Hwf3).
        - exact Hi3.
        - exact (Mmap.wf_cache _ _ _ _ Hwf3).
        - cbn [_INSTANCES]. apply lookup_singleton_eq.
        - rewrite Hp3. apply lookup_singleton_eq. }
    cbn [files heap databases _INSTANCES list_insert].
    rewrite Hp3, delete_singleton_eq, !insert_singleton_eq.
    change (<[0:=AMmap (closed_mmap m3)]>
              (<[0:=AMmap m3]> (<[0:=AMmap m2]> [AMmap m1])))
      with [AMmap (closed_mmap m3)].
    rewrite (bind_ok _ _ _ _ _ (Hreopen m3 _ m4 Hres)).
    erewrite on_mmap_record; [| reflexivity | apply surjective_pairing ].
    cbn [fst].
    apply (MmapFacts.maps_to_get m4 _ _ _ (KStr k) v Hwf4); [|exact Hv].
    apply Hkeep. apply (MmapFacts.maps_to_pending m2 {[KStr k := v]});
      [reflexivity | apply lookup_singleton_eq].
  - eexists _, _. split_and!.
    + rewrite (bind_ok _ _ _ _ _ Hopen).
      erewrite bind_ok; [| apply (on_mmap_record 0 _ _ _ _ _ m1 _ m2);
                           [reflexivity | exact Hset] ].
      cbn [list_insert].
      cbn [m2 Mmap.base Mmap.file Mmap.with_cache m1 Mmap.created path b].
      rewrite !insert_singleton_eq.
      erewrite bind_ok.
      2:{ eapply (close_mmap_run 0 _ m2 (Mmap.Ready ∅) {[KStr k := v]}).
          - reflexivity.
          - reflexivity.
          - reflexivity.
          - reflexivity.
          - cbn [_INSTANCES]. apply lookup_singleton_eq.
          - apply lookup_singleton_eq. }
      cbn [files heap databases _INSTANCES list_insert].
      cbn [m2 Mmap.base Mmap.file Mmap.with_cache m1 Mmap.created path b].
      rewrite delete_singleton_eq, !insert_singleton_eq.
      apply (Hreopen m1).
      apply (MmapFacts.restore_existing b' _ 104 0);
        vm_compute; reflexivity || lia.
    + cbn [files]. apply lookup_singleton_eq.
    + reflexivity.
    + reflexivity.
    + reflexivity.
Qed.
(** *** An open that fails *)

Lemma init_no_file self p ov w :
  isfile abspath p w = false ->
  __init__ abspath self p ov w = _restore_dict self w.
Proof.
  intros Hf. unfold __init__, bind at 1, get_state at 1.
  rewrite Hf, andb_false_r. reflexivity.
Qed.

(** X12: a read-only open of a path that holds nothing raises, but
    [__new__] has registered the new object before [__init__] fails.  From
    then on every open of the path in the process, read-only or not,
    returns that object, runs [_restore_dict] with its [read_only] flag and
    raises again, and no file is ever created; [close] on the object
    raises [AttributeError] but removes it from [_INSTANCES] first, after
    which a writable open succeeds. *)
Theorem failed_open_poisons_the_path p cs ov w :
  default ∅ (_INSTANCES w !! "MmapDict"%string) !! abspath p = None ->
  files w !! abspath p = None -> databases w !! abspath p = None ->
  exists w' w'',
    open abspath MmapDict p true cs ov w = (Raise PyException, w') /\
    files w' = files w /\
    (forall ro' cs' ov',
       open abspath MmapDict p ro' cs' ov' w' = (Raise PyException, w')) /\
    close (length (heap w)) w' = (Raise AttributeError, w'') /\
    (forall cs',
       (open abspath MmapDict p false cs' false w'').1
       = Ok (S (length (heap w)))).
Proof.
  intros Hreg Hfile Hdb.
  set (b := {| cache_size := cs; read_only := true; new_args_called := false;
               path := abspath p; is_closed := false |}).
  set (self := length (heap w)).
  set (all := default ∅ (_INSTANCES w !! "MmapDict"%string)) in *.
  set (w' := {| files := files w; databases := databases w;
                heap := heap w ++ [Bare MmapDict b];
                _INSTANCES := <["MmapDict"%string := <[abspath p := self]> all]>
                                (_INSTANCES w) |}).
  assert (Hself : heap w' !! self = Some (Bare MmapDict b)).
  { cbn [heap w']. unfold self. rewrite lookup_app_r, Nat.sub_diag by lia.
    reflexivity. }
  assert (Hnofile : isfile abspath p w' = false).
  { unfold isfile. cbn [files databases w']. rewrite Hfile, Hdb.
    rewrite !bool_decide_eq_false_2 by (intros [? ?]; discriminate).
    reflexivity. }
  assert (Hres : _restore_dict self w' = (Raise PyException, w')).
  { rewrite (restore_bare self w' MmapDict b Hself).
    cbn [files w' path b]. rewrite Hfile. reflexivity. }
  exists w'. eexists. split_and!.
  - unfold open.
    rewrite (bind_ok _ _ _ _ _ (new_fresh MmapDict p true cs w Hreg)).
    fold b all self. fold w'.
    apply bind_raise.
    exact (eq_trans (init_no_file self p ov w' Hnofile) Hres).
  - reflexivity.
  - intros ro' cs' ov'. unfold open.
    erewrite bind_ok.
    2:{ eapply new_registered.
        - cbn [_INSTANCES w']. apply lookup_insert_eq.
        - apply lookup_insert_eq. }
    apply bind_raise.
    exact (eq_trans (init_no_file self p ov' w' Hnofile) Hres).
  - unfold close. unfold bind at 1, instance_of at 1. rewrite Hself.
    cbn [base_of class_of is_closed read_only b].
    unfold bind at 1, set_instance at 1, modify at 1.
    unfold bind at 1, ret at 1.
    unfold bind at 1, deregister at 1, bind at 1, get_state at 1.
    cbn [class_of __name__ base_of path b with_heap _INSTANCES w'].
    rewrite lookup_insert_eq. cbn [default from_option]. unfold id.
    rewrite lookup_insert_eq.
    unfold modify at 1, with_instances, with_heap.
    cbn [heap files databases _INSTANCES w'].
    unfold on_mmap. cbn [heap set_closed].
    rewrite list_lookup_insert_eq
      by (rewrite length_app; cbn [length]; unfold self; lia).
    reflexivity.
  - intros cs'.
    rewrite open_fresh_mmap.
    2:{ cbn [_INSTANCES]. rewrite lookup_insert_eq.
        cbn [default from_option]. unfold id. apply lookup_delete_eq. }
    cbn [files heap]. rewrite Hfile.
    erewrite MmapFacts.restore_new by reflexivity. cbn [fst].
    rewrite length_insert, length_app. cbn [length]. f_equal.
    unfold self. lia.
Qed.
(** X13: [override=True] deletes the file at the path before anything is
    read from it.  On a path that is not registered and holds a file, a
    writable open with [override] starts from the file of an empty store,
    whatever the old file held; a read-only open with [override] raises,
    and the file is gone all the same. *)
Theorem override_discards_the_file p ro cs w (ct : bytes) :
  default ∅ (_INSTANCES w !! "MmapDict"%string) !! abspath p = None ->
  files w !! abspath p = Some ct ->
  exists w',
    open abspath MmapDict p ro cs true w =
      (if ro then Raise PyException else Ok (length (heap w)), w') /\
    files w' !! abspath p =
      (if ro then None
       else Some (Mmap.HEADER ++ fmt_d Mmap.SIZE_BYTES 104
                    ++ fmt_d Mmap.SIZE_BYTES 0)).
Proof.
  intros Hreg Hfile.
  set (b := {| cache_size := cs; read_only := ro; new_args_called := false;
               path := abspath p; is_closed := false |}).
  set (self := length (heap w)).
  set (w1 := {| files := files w; databases := databases w;
                heap := heap w ++ [Bare MmapDict b];
                _INSTANCES :=
                  <["MmapDict"%string :=
                      <[abspath p := self]>
                        (default ∅ (_INSTANCES w !! "MmapDict"%string))]>
                    (_INSTANCES w) |}).
  set (w2 := {| files := delete (abspath p) (files w);
                databases := delete (abspath p) (databases w);
                heap := heap w1; _INSTANCES := _INSTANCES w1 |}).
  assert (Hnew : __new__ abspath MmapDict p ro cs w = (Ok self, w1))
    by exact (new_fresh MmapDict p ro cs w Hreg).
  assert (Hisfile : isfile abspath p w1 = true).
  { unfold isfile. cbn [files w1]. rewrite Hfile.
    rewrite bool_decide_eq_true_2 by (eexists; reflexivity). reflexivity. }
  assert (Hinit : __init__ abspath self p true w1 = _restore_dict self w2).
  { rewrite (init_override self p w1 Hisfile). reflexivity. }
  assert (Hself : heap w2 !! self = Some (Bare MmapDict b)).
  { cbn [heap w2 w1]. unfold self. rewrite lookup_app_r, Nat.sub_diag by lia.
    reflexivity. }
  pose proof (restore_bare self w2 MmapDict b Hself) as Hres.
  cbn [files w2 path b] in Hres. rewrite lookup_delete_eq in Hres.
  unfold open. rewrite (bind_ok _ _ _ _ _ Hnew).
  unfold Mmap._restore_dict in Hres. cbn [read_only b] in Hres.
  pose proof (eq_trans Hinit Hres) as Hrun.
  destruct ro.
  - eexists. split; [apply bind_raise; exact Hrun|].
    cbn [files w2]. apply lookup_delete_eq.
  - eexists. split; [rewrite (bind_ok _ _ _ _ _ Hrun); reflexivity|].
    cbn [files with_files with_heap]. apply lookup_insert_eq.
Qed.

(** *** A database alone in its process *)





End Facts.
End RegistryFacts.

(** ** Both stores *)

Section Claims.
Context `{Codec}.


(** C7: on a writable [MmapDict], [set] runs a flush exactly when the
    cache holds more than [cache_size] entries once the entry is in: the
    cache is then empty and its entries are in the file; otherwise only
    the cache changes.  On a writable [SQLiteDict], [set] runs a flush and
    clears the cache of the current table as soon as that cache holds
    [cache_size] entries: its entries are then rows of the table;
    below that, only the cache changes. *)
Theorem C7_flush_at_capacity
  (s : Mmap.MmapDict) (c : gmap pykey value) (i : gmap pykey (nat * nat))
  (e : nat)
  (b : NoSQL) (ca : gmap string (gmap string SQLite.pyval))
  (co : gmap string (list SQLite.row)) (ct : string)
  (ex : list SQLite.stmt) (k : pykey) (v : value) (pv : SQLite.pyval) :
  (Mmap.wf s c i e -> read_only (Mmap.base s) = false ->
   let c' := <[KStr (str k) := v]> c in
   ((cache_size (Mmap.base s) < Z.of_nat (size c'))%Z ->
    Mmap.__setitem__ k v s
    = Mmap._flush false (Mmap.with_cache (Some c') s) /\
    (Mmap.fits (length (content (Mmap.file (Mmap.__setitem__ k v s).2))) ->
     exists s',
       Mmap.__setitem__ k v s = (Ok tt, s') /\
       Mmap.cache_dict s' = Some ∅ /\
       forall k' v', c' !! k' = Some v' -> Mmap.holds s' k' v')) /\
   ((Z.of_nat (size c') <= cache_size (Mmap.base s))%Z ->
    Mmap.__setitem__ k v s = (Ok tt, Mmap.with_cache (Some c') s))) /\
  (read_only b = false ->
   let c' := <[str k := pv]> (default ∅ (ca !! ct)) in
   let s1 := SQLite.Build_SQLiteDict b (<[ct := c']> ca) co ct ex in
   ((cache_size b <= Z.of_nat (size c'))%Z ->
    SQLite.__setitem__ k pv (SQLite.Build_SQLiteDict b ca co ct ex)
    = (SQLite.flush false ;; SQLite.set_current_cache ∅) s1 /\
    forall r,
      is_closed b = false -> co !! ct = Some r ->
      (forall k', is_Some (c' !! k') -> k' ∉ r.*1) ->
      exists ex',
        SQLite.__setitem__ k pv (SQLite.Build_SQLiteDict b ca co ct ex)
        = (Ok tt,
           SQLite.Build_SQLiteDict b
             (<[ct := ∅]> (<[ct := ∅]> (<[ct := c']> ca)))
             (<[ct := r ++ SQLite.pending_rows c']> co) ct ex')) /\
   ((Z.of_nat (size c') < cache_size b)%Z ->
    SQLite.__setitem__ k pv (SQLite.Build_SQLiteDict b ca co ct ex)
    = (Ok tt, s1))).
Proof.
  split.
  - intros Hwf Hro. exact (MmapFacts.set_triggers_flush s c i e k v Hwf Hro).
  - intros Hro. exact (SQLiteFacts.sql_set_triggers_flush b ca co ct ex k pv Hro).
Qed.

End Claims.

(** ** The statements on concrete stores *)

Module Witnesses.
Import Example.
#[local] Existing Instance codec.
#[local] Open Scope string_scope.

Lemma supported_any (v : bytes) : supported v.
Proof. reflexivity. Qed.



Lemma C3_flush_without_index_witness :
  exists s2 s3,
    Mmap._restore_dict (writable 250) None
    = Ok (Mmap.created (writable 250)) /\
    (Mmap.__setitem__ (KStr "a") one ;; Mmap.flush false)
      (Mmap.created (writable 250)) = (Ok tt, s2) /\
    Mmap.holds s2 (KStr "a") one /\
    Mmap.index_blob (content (Mmap.file s2)) = Some [] /\
    Mmap._restore_dict (writable 250) (Some (content (Mmap.file s2)))
    = Ok s3 /\
    Mmap.indices s3 = (Raise UnpicklingError, s3).
Proof.
  apply (MmapFacts.C3_flush_without_index (H := codec) (writable 250) "a" one).
  - reflexivity.
  - reflexivity.
  - reflexivity.
  - vm_compute. discriminate.
  - unfold Mmap.fits. vm_compute. lia.
Defined.

Lemma C4_read_only_writes_witness :
  SQLite.__setitem__ (KStr "a") (SQLite.Plain one)
    (sqlite_on (readonly 250) [row_a])
  = (Raise RuntimeError, sqlite_on (readonly 250) [row_a]) /\
  SQLite.__delitem__ (SQLite.One (KStr "a")) (sqlite_on (readonly 250) [row_a])
  = (Ok tt, sqlite_on (readonly 250) [row_a]) /\
  SQLite.update [(KStr "a", SQLite.Plain two)]
    (sqlite_on (readonly 250) [row_a])
  = (Ok tt, sqlite_on (readonly 250) [row_a]) /\
  SQLite.clear (sqlite_on (readonly 250) [row_a])
  = (Ok tt, sqlite_on (readonly 250) [row_a]).
Proof.
  apply (SQLiteFacts.C4_read_only_writes (H := codec) (sqlite_on (readonly 250) [row_a])).
  reflexivity.
Defined.

(** C4 as stated fails: [set] on a read-only handle raises. *)
Lemma C4_set_counterexample :
  read_only (SQLite.base (sqlite_on (readonly 250) [])) = true /\
  SQLite.__setitem__ (KStr "a") (SQLite.Plain one)
    (sqlite_on (readonly 250) [])
  = (Raise RuntimeError, sqlite_on (readonly 250) []).
Proof. split; reflexivity. Qed.

Lemma C5_delete_drops_the_cache_witness :
  Mmap.__getitem__ (KStr "b") pending_ab = (Ok two, pending_ab) /\
  Mmap.__delitem__ (KStr "a") pending_ab
  = (Ok tt, Mmap.with_cache None pending_ab) /\
  (Mmap.__delitem__ (KStr "a") ;; Mmap.__getitem__ (KStr "b")) pending_ab
  = (Raise AttributeError, Mmap.with_cache None pending_ab).
Proof.
  apply (MmapFacts.C5_delete_drops_the_cache (H := codec) pending_ab
           (<[KStr "a" := one]> (<[KStr "b" := two]> ∅))
           (KStr "a") one (KStr "b") two).
  - reflexivity.
  - reflexivity.
  - vm_compute. reflexivity.
  - vm_compute. reflexivity.
  - discriminate.
Defined.


Lemma C7_flush_at_capacity_witness :
  (exists s',
     Mmap.__setitem__ (KStr "a") one (Mmap.created (writable 0))
     = (Ok tt, s') /\
     Mmap.cache_dict s' = Some ∅ /\
     Mmap.holds s' (KStr "a") one) /\
  Mmap.__setitem__ (KStr "a") one (Mmap.created (writable 250))
  = (Ok tt,
     Mmap.with_cache (Some (<[KStr "a" := one]> ∅))
       (Mmap.created (writable 250))) /\
  (exists ex',
     SQLite.__setitem__ (KStr "a") (SQLite.Plain one)
       (sqlite_on (writable 1) [])
     = (Ok tt,
        SQLite.Build_SQLiteDict (writable 1)
          (<[SQLite._DEFAULT_TABLE := ∅]>
             (<[SQLite._DEFAULT_TABLE := ∅]>
                (<[SQLite._DEFAULT_TABLE :=
                     <["a" := SQLite.Plain one]> ∅]> ∅)))
          (<[SQLite._DEFAULT_TABLE :=
               ([] ++ SQLite.pending_rows
                        (<["a" := SQLite.Plain one]> ∅))%list]>
             {[SQLite._DEFAULT_TABLE := []]})
          SQLite._DEFAULT_TABLE ex')) /\
  SQLite.__setitem__ (KStr "a") (SQLite.Plain one)
    (sqlite_on (writable 250) [])
  = (Ok tt,
     SQLite.Build_SQLiteDict (writable 250)
       (<[SQLite._DEFAULT_TABLE := <["a" := SQLite.Plain one]> ∅]> ∅)
       {[SQLite._DEFAULT_TABLE := []]} SQLite._DEFAULT_TABLE []).
Proof.
  split_and!.
  - destruct (C7_flush_at_capacity (H := codec)
                (Mmap.created (writable 0)) ∅ ∅ 104
                (writable 0) ∅ ∅ "" [] (KStr "a") one
                (SQLite.Plain (H := codec) one))
      as [Hm _].
    destruct Hm as [Hfl _];
      [apply MmapFacts.created_wf; reflexivity | reflexivity |].
    destruct Hfl as [_ Hfl]; [vm_compute; reflexivity|].
    destruct Hfl as (s' & Hrun & Hc & Hh);
      [unfold Mmap.fits; vm_compute; lia|].
    exists s'. split_and!; [exact Hrun | exact Hc |].
    apply Hh. apply lookup_insert_eq.
  - destruct (C7_flush_at_capacity (H := codec)
                (Mmap.created (writable 250)) ∅ ∅ 104
                (writable 0) ∅ ∅ "" [] (KStr "a") one
                (SQLite.Plain (H := codec) one))
      as [Hm _].
    destruct Hm as [_ Hno];
      [apply MmapFacts.created_wf; reflexivity | reflexivity |].
    apply Hno. vm_compute. discriminate.
  - destruct (C7_flush_at_capacity (H := codec)
                (Mmap.created (writable 0)) ∅ ∅ 104
                (writable 1) ∅ {[SQLite._DEFAULT_TABLE := []]}
                SQLite._DEFAULT_TABLE [] (KStr "a") one
                (SQLite.Plain (H := codec) one))
      as [_ Hs].
    destruct Hs as [Hfl _]; [reflexivity|].
    destruct Hfl as [_ Hfl]; [vm_compute; discriminate|].
    apply (Hfl []).
    + reflexivity.
    + apply lookup_singleton_eq.
    + intros k' _. apply not_elem_of_nil.
  - destruct (C7_flush_at_capacity (H := codec)
                (Mmap.created (writable 0)) ∅ ∅ 104
                (writable 250) ∅ {[SQLite._DEFAULT_TABLE := []]}
                SQLite._DEFAULT_TABLE [] (KStr "a") one
                (SQLite.Plain (H := codec) one))
      as [_ Hs].
    destruct Hs as [_ Hno]; [reflexivity|].
    apply Hno. vm_compute. reflexivity.
Defined.

Lemma C9_flush_of_existing_key_raises_witness :
  exists r' ex',
    (SQLite.__setitem__ (KStr "a") (SQLite.Plain two) ;; SQLite.flush false)
      (sqlite_on (writable 250) [row_a])
    = (Raise IntegrityError,
       SQLite.Build_SQLiteDict (writable 250)
         (<[SQLite._DEFAULT_TABLE := <["a" := SQLite.Plain two]> ∅]> ∅)
         (<[SQLite._DEFAULT_TABLE := ([row_a] ++ r')%list]>
            {[SQLite._DEFAULT_TABLE := [row_a]]})
         SQLite._DEFAULT_TABLE ex') /\
    (<["a" := SQLite.Plain two]> (∅ : gmap string SQLite.pyval)) !! "a"
    = Some (SQLite.Plain two) /\
    SQLite.select_key "a" ([row_a] ++ r')%list
    = SQLite.select_key "a" [row_a].
Proof.
  exact (SQLiteFacts.C9_flush_of_existing_key_raises (H := codec)
           (writable 250) ∅ {[SQLite._DEFAULT_TABLE := [row_a]]}
           SQLite._DEFAULT_TABLE [] [row_a] (KStr "a")
           (SQLite.Plain (H := codec) two)
           eq_refl eq_refl
           (lookup_singleton_eq SQLite._DEFAULT_TABLE [row_a])
           (list_elem_of_here "a" [])).
Defined.

Lemma C10_key_coerced_on_set_only_witness :
  (exists s1,
     Mmap.__setitem__ (KInt 5) one (Mmap.created (writable 250))
     = (Ok tt, s1) /\
     Mmap.cache_dict s1 = Some (<[KStr "5" := one]> ∅) /\
     (Mmap.__getitem__ (KInt 5) s1).1 = Raise KeyError /\
     (Mmap.__getitem__ (KStr "5") s1).1 = Ok one) /\
  (exists s2,
     (Mmap.__setitem__ (KInt 5) one ;; Mmap.flush false)
       (Mmap.created (writable 250)) = (Ok tt, s2) /\
     (Mmap.__getitem__ (KInt 5) s2).1 = Raise KeyError /\
     (Mmap.__contains__ (KInt 5) s2).1 = Ok false /\
     (Mmap.__getitem__ (KStr "5") s2).1 = Ok one /\
     (Mmap.__contains__ (KStr "5") s2).1 = Ok true).
Proof.
  destruct (MmapFacts.C10_key_coerced_on_set_only (H := codec)
              (Mmap.created (writable 250)) ∅ ∅ 104 5 one)
    as [Hbefore Hafter].
  - apply MmapFacts.created_wf. reflexivity.
  - reflexivity.
  - reflexivity.
  - split.
    + apply Hbefore. vm_compute. discriminate.
    + apply Hafter. unfold Mmap.fits. vm_compute. lia.
Defined.

(** *** The codec of the examples *)

Lemma of_bits_bits_of p : of_bits (bits_of p) = Some p.
Proof.
  induction p as [p IH|p IH|]; cbn [bits_of of_bits].
  - change (Ascii.eqb bit1 bit0) with false.
    change (Ascii.eqb bit1 bit1) with true. cbv iota. rewrite IH. reflexivity.
  - change (Ascii.eqb bit0 bit0) with true. cbv iota. rewrite IH. reflexivity.
  - reflexivity.
Qed.

Lemma unpickle_pickle (j : gmap pykey (nat * nat)) :
  pickle_loads (pickle_dumps j) = Some j.
Proof.
  cbn [pickle_loads pickle_dumps codec]. unfold unpickle, pickle.
  change (Ascii.eqb tag_P tag_P) with true. cbv iota.
  rewrite of_bits_bits_of. apply decode_encode.
Qed.

Lemma pickle_not_empty (j : gmap pykey (nat * nat)) : pickle_dumps j <> [].
Proof. discriminate. Qed.

(** *** The stores of the examples *)

Lemma pending_ab_wf :
  Mmap.wf pending_ab (<[KStr "a" := one]> (<[KStr "b" := two]> ∅)) ∅ 104.
Proof.
  apply (MmapFacts.wf_set_cache (H := codec)
           (Mmap.with_cache (Some (<[KStr "b" := two]> ∅))
              (Mmap.created (writable 250)))
           (<[KStr "b" := two]> ∅) ∅ 104 "a" one).
  apply (MmapFacts.wf_set_cache (H := codec) (Mmap.created (writable 250)) ∅ ∅ 104 "b" two).
  apply MmapFacts.created_wf. reflexivity.
Qed.

Lemma pending_ab_fits sa :
  Mmap.fits (length (content (Mmap.file (Mmap.flush sa pending_ab).2))).
Proof. unfold Mmap.fits. destruct sa; vm_compute; lia. Qed.

Lemma flushed_ab_wf :
  Mmap.wf flushed_ab ∅
    (Mmap.index_after
       (map_to_list (<[KStr "a" := one]> (<[KStr "b" := two]> ∅))) 104 ∅)
    (104 + length (Mmap.blob
                     (map_to_list
                        (<[KStr "a" := one]> (<[KStr "b" := two]> ∅))))).
Proof.
  destruct (MmapFacts.flush_any_maps_to (H := codec) pending_ab _ _ _ true pending_ab_wf
              eq_refl (pending_ab_fits true))
    as (s' & Hrun & Hwf & _).
  unfold flushed_ab. rewrite Hrun. exact Hwf.
Qed.

Lemma flushed_ab_maps k v :
  (<[KStr "a" := one]> (<[KStr "b" := two]> ∅) : gmap pykey bytes) !! k
  = Some v ->
  Mmap.maps_to flushed_ab k v.
Proof.
  intros Hk.
  destruct (MmapFacts.flush_any_maps_to (H := codec) pending_ab _ _ _ true pending_ab_wf
              eq_refl (pending_ab_fits true))
    as (s' & Hrun & _ & _ & Hkeep).
  unfold flushed_ab. rewrite Hrun. apply Hkeep.
  exact (MmapFacts.maps_to_pending (H := codec) pending_ab _ k v eq_refl Hk).
Qed.

(** *** The statements on these stores *)

Lemma flush_keeps_every_entry_witness :
  (Mmap.__getitem__ (KStr "a") pending_ab).1 = Ok one /\
  ((Mmap.flush true ;; Mmap.__getitem__ (KStr "a")) pending_ab).1 = Ok one.
Proof.
  apply (MmapFacts.flush_keeps_every_entry (H := codec) pending_ab
           _ _ _ true (KStr "a") one pending_ab_wf eq_refl
           (pending_ab_fits true)).
  - apply (MmapFacts.maps_to_pending (H := codec) pending_ab _ (KStr "a") one eq_refl).
    vm_compute. reflexivity.
  - apply supported_any.
Defined.

Lemma set_then_get_witness :
  ((Mmap.__setitem__ (KStr "c") one ;; Mmap.__getitem__ (KStr "c"))
     pending_ab).1 = Ok one /\
  ((Mmap.__setitem__ (KStr "c") one ;; Mmap.__getitem__ (KStr "b"))
     pending_ab).1 = Ok two.
Proof.
  destruct (MmapFacts.set_then_get (H := codec) pending_ab _ _ _
              (KStr "c") one pending_ab_wf eq_refl) as [Hown Hother].
  - unfold Mmap.fits. vm_compute. lia.
  - split.
    + apply Hown. apply supported_any.
    + apply Hother.
      * discriminate.
      * apply (MmapFacts.maps_to_pending (H := codec) pending_ab _ (KStr "b") two eq_refl).
        vm_compute. reflexivity.
      * apply supported_any.
Defined.

Lemma saved_entries_survive_reopening_witness :
  exists s' s3,
    Mmap.flush true pending_ab = (Ok tt, s') /\
    Mmap._restore_dict (readonly 250) (Some (content (Mmap.file s')))
    = Ok s3 /\
    (Mmap.__getitem__ (KStr "a") s3).1 = Ok one /\
    (Mmap.__getitem__ (KStr "b") s3).1 = Ok two.
Proof.
  destruct (MmapFacts.saved_entries_survive_reopening (H := codec)
              pending_ab _ _ _ (readonly 250) pending_ab_wf eq_refl eq_refl
              unpickle_pickle pickle_not_empty (pending_ab_fits true))
    as (s' & s3 & Hrun & Hres & Hget).
  exists s', s3. split_and!; [exact Hrun | exact Hres | |].
  - apply Hget; [|apply supported_any].
    apply (MmapFacts.maps_to_pending (H := codec) pending_ab _ (KStr "a") one eq_refl).
    vm_compute. reflexivity.
  - apply Hget; [|apply supported_any].
    apply (MmapFacts.maps_to_pending (H := codec) pending_ab _ (KStr "b") two eq_refl).
    vm_compute. reflexivity.
Defined.
Lemma contains_agrees_with_get_witness :
  ((Mmap.__contains__ (KStr "z") pending_ab).1 = Ok false <->
   (Mmap.__getitem__ (KStr "z") pending_ab).1 = Raise KeyError) /\
  ((Mmap.__contains__ (KStr "z") pending_ab).1 = Ok true <->
   (Mmap.__getitem__ (KStr "z") pending_ab).1 <> Raise KeyError).
Proof.
  exact (MmapFacts.contains_agrees_with_get (H := codec) pending_ab _ _ _
           (KStr "z") pending_ab_wf).
Defined.

Lemma delete_of_a_stored_key_witness :
  exists s',
    Mmap.__delitem__ (KStr "a") flushed_ab = (Ok tt, s') /\
    content (Mmap.file s') = content (Mmap.file flushed_ab) /\
    (Mmap.__contains__ (KStr "a") s').1 = Ok false /\
    (Mmap.__getitem__ (KStr "a") s').1 = Raise KeyError /\
    Mmap.maps_to s' (KStr "b") two.
Proof.
  destruct (MmapFacts.delete_of_a_stored_key (H := codec) flushed_ab _ _ _
              (KStr "a") flushed_ab_wf eq_refl (lookup_empty _))
    as [Hstored _].
  destruct Hstored as (s' & Hrun & _ & Hfile & Hin & Hget & Hframe).
  - eexists. vm_compute. reflexivity.
  - exists s'. split_and!; [exact Hrun | exact Hfile | exact Hin | exact Hget |].
    apply Hframe; [discriminate|]. apply flushed_ab_maps.
    vm_compute. reflexivity.
Defined.

Lemma deleted_key_stays_deleted_witness :
  exists s' s3,
    (Mmap.__delitem__ (KStr "a") ;; Mmap.flush true) flushed_ab
    = (Ok tt, s') /\
    Mmap._restore_dict (writable 250) (Some (content (Mmap.file s')))
    = Ok s3 /\
    (Mmap.__getitem__ (KStr "a") s3).1 = Raise KeyError /\
    (Mmap.__contains__ (KStr "a") s3).1 = Ok false.
Proof.
  apply (MmapFacts.deleted_key_stays_deleted (H := codec) flushed_ab _ _ _
           (KStr "a") (writable 250) flushed_ab_wf eq_refl (lookup_empty _)).
  - eexists. vm_compute. reflexivity.
  - reflexivity.
  - exact unpickle_pickle.
  - exact pickle_not_empty.
  - unfold Mmap.fits. vm_compute. lia.
Defined.

Lemma keys_len_and_contains_witness :
  exists l,
    (Mmap.keys pending_ab).1 = Ok l /\
    (Mmap.__len__ pending_ab).1 = Ok (length l) /\
    (forall k, k ∈ l <-> (Mmap.__contains__ k pending_ab).1 = Ok true) /\
    (NoDup l <->
     forall k, is_Some ((∅ : gmap pykey (nat * nat)) !! k) ->
               (<[KStr "a" := one]> (<[KStr "b" := two]> ∅)
                  : gmap pykey bytes) !! k = None).
Proof.
  exact (MmapFacts.keys_len_and_contains (H := codec) pending_ab _ ∅
           eq_refl eq_refl).
Defined.

Lemma flushed_ab_holds k v :
  (<[KStr "a" := one]> (<[KStr "b" := two]> ∅) : gmap pykey bytes) !! k
  = Some v ->
  Mmap.holds flushed_ab k v.
Proof.
  intros Hk. destruct (flushed_ab_maps k v Hk) as (c & Hc & Hm).
  rewrite (Mmap.wf_cache _ _ _ _ flushed_ab_wf) in Hc. injection Hc as <-.
  destruct Hm as [Hm|[_ Hh]]; [|exact Hh].
  rewrite lookup_empty in Hm. discriminate.
Qed.

Lemma values_lists_stored_then_pending_witness :
  (Mmap.values flushed_ab).1
  = Ok ([one; two] ++ (map_to_list (∅ : gmap pykey bytes)).*2)%list.
Proof.
  apply (MmapFacts.values_lists_stored_then_pending (H := codec) flushed_ab
           _ _ _ [one; two] flushed_ab_wf).
  match goal with
  | |- Forall2 _ ?l _ =>
      replace l with [(KStr "a", (104, 4)); (KStr "b", (108, 4))]
        by (vm_compute; reflexivity)
  end.
  repeat constructor; try apply supported_any;
    apply flushed_ab_holds; vm_compute; reflexivity.
Defined.

Lemma pending_at_threshold_wf :
  Mmap.wf pending_at_threshold
    (<[KStr "a" := one]> (<[KStr "b" := two]> ∅)) ∅ 104.
Proof.
  destruct pending_ab_wf as [Hopen Hc Hck Hi Hik Hmg He Hel Heu Hr Hm].
  constructor; assumption.
Qed.

Lemma index_saved_past_the_threshold_witness :
  exists s' s3,
    Mmap.flush false pending_at_threshold = (Ok tt, s') /\
    Mmap.increased_indices_size s' = 0%N /\
    Mmap._restore_dict (readonly 250) (Some (content (Mmap.file s')))
    = Ok s3 /\
    (Mmap.__getitem__ (KStr "a") s3).1 = Ok one.
Proof.
  destruct (MmapFacts.index_saved_past_the_threshold (H := codec)
              pending_at_threshold _ _ _ (readonly 250)
              pending_at_threshold_wf eq_refl eq_refl)
    as (s' & s3 & Hrun & Hzero & Hres & Hget).
  - vm_compute. reflexivity.
  - exact unpickle_pickle.
  - exact pickle_not_empty.
  - unfold Mmap.fits. vm_compute. lia.
  - exists s', s3. split_and!; [exact Hrun | exact Hzero | exact Hres |].
    apply Hget; [|apply supported_any].
    apply (MmapFacts.maps_to_pending (H := codec) pending_at_threshold _
             (KStr "a") one eq_refl).
    vm_compute. reflexivity.
Defined.
(** *** The statements on a process *)

Lemma close_never_flushes_witness :
  exists w',
    Registry.close 0 (alone pending_ab) = (Ok tt, w') /\
    Registry.files w' = Registry.files (alone pending_ab) /\
    default ∅ (Registry._INSTANCES w' !! "MmapDict") !! "/tmp/store" = None /\
    (forall k,
       Registry.on_mmap 0 (Mmap.__getitem__ k) w'
       = (Raise AttributeError, w')) /\
    Registry.close 0 w' = (Ok tt, w').
Proof.
  apply (RegistryFacts.close_never_flushes (H := codec) 0 (alone pending_ab)
           pending_ab (Mmap.Ready ∅)
           (<[KStr "a" := one]> (<[KStr "b" := two]> ∅))
           {["/tmp/store" := 0]} 0).
  - reflexivity.
  - reflexivity.
  - reflexivity.
  - reflexivity.
  - apply lookup_singleton_eq.
  - apply lookup_singleton_eq.
  - apply lookup_singleton_eq.
Defined.

Lemma entries_survive_close_only_if_saved_witness :
  ((self <- Registry.open (fun p => p) Registry.MmapDict "/tmp/store"
              false 250 false ;;
    Registry.on_mmap self (Mmap.__setitem__ (KStr "a") one) ;;
    Registry.on_mmap self (Mmap.flush true) ;;
    Registry.close self ;;
    self' <- Registry.open (fun p => p) Registry.MmapDict "/tmp/store"
               true 10 false ;;
    Registry.on_mmap self' (Mmap.__getitem__ (KStr "a")))
     Registry.started).1 = Ok one /\
  (exists w m,
     (self <- Registry.open (fun p => p) Registry.MmapDict "/tmp/store"
               false 250 false ;;
      Registry.on_mmap self (Mmap.__setitem__ (KStr "a") one) ;;
      Registry.close self ;;
      Registry.open (fun p => p) Registry.MmapDict "/tmp/store"
        true 10 false) Registry.started = (Ok 1, w) /\
     Registry.files w !! "/tmp/store"
     = Some (Mmap.HEADER ++ fmt_d Mmap.SIZE_BYTES 104
               ++ fmt_d Mmap.SIZE_BYTES 0)%list /\
     Registry.heap w !! 1 = Some (Registry.AMmap m) /\
     Mmap.cache_dict m = Some ∅ /\
     Mmap.indices_dict m = Some (Mmap.Deferred [])).
Proof.
  destruct (RegistryFacts.entries_survive_close_only_if_saved (H := codec)
              (fun p => p) "/tmp/store" 250 "a" one true 10)
    as [Hsaved Hlost].
  - lia.
  - split; [|exact Hlost].
    apply Hsaved.
    + apply supported_any.
    + exact unpickle_pickle.
    + exact pickle_not_empty.
    + unfold Mmap.fits. vm_compute. lia.
Defined.

Lemma failed_open_poisons_the_path_witness :
  exists w' w'',
    Registry.open (fun p => p) Registry.MmapDict "/tmp/store" true 250 false
      Registry.started = (Raise PyException, w') /\
    Registry.files w' = Registry.files Registry.started /\
    (forall ro' cs' ov',
       Registry.open (fun p => p) Registry.MmapDict "/tmp/store" ro' cs' ov' w'
       = (Raise PyException, w')) /\
    Registry.close (length (Registry.heap Registry.started)) w'
    = (Raise AttributeError, w'') /\
    (forall cs',
       (Registry.open (fun p => p) Registry.MmapDict "/tmp/store"
          false cs' false w'').1
       = Ok (S (length (Registry.heap Registry.started)))).
Proof.
  apply (RegistryFacts.failed_open_poisons_the_path (H := codec)
           (fun p => p) "/tmp/store" 250 false Registry.started);
    reflexivity.
Defined.

Lemma override_discards_the_file_witness :
  (exists w',
     Registry.open (fun p => p) Registry.MmapDict "/tmp/store" true 250 true
       with_old_file = (Raise PyException, w') /\
     Registry.files w' !! "/tmp/store" = None) /\
  (exists w',
     Registry.open (fun p => p) Registry.MmapDict "/tmp/store" false 250 true
       with_old_file = (Ok 0, w') /\
     Registry.files w' !! "/tmp/store"
     = Some (Mmap.HEADER ++ fmt_d Mmap.SIZE_BYTES 104
               ++ fmt_d Mmap.SIZE_BYTES 0)%list).
Proof.
  split.
  - apply (RegistryFacts.override_discards_the_file (H := codec)
             (fun p => p) "/tmp/store" true 250 with_old_file (text "old")).
    + reflexivity.
    + apply lookup_singleton_eq.
  - apply (RegistryFacts.override_discards_the_file (H := codec)
             (fun p => p) "/tmp/store" false 250 with_old_file (text "old")).
    + reflexivity.
    + apply lookup_singleton_eq.
Defined.

(** *** The statements on a database *)


Lemma two_tables_fresh t (r : list SQLite.row) (k : string) :
  SQLite.conn two_tables !! t = Some r ->
  is_Some (default ∅ (SQLite.cache two_tables !! t) !! k) -> k ∉ r.*1.
Proof.
  intros Hr _. cbn [SQLite.conn two_tables] in Hr.
  apply lookup_insert_Some in Hr as [[_ <-]|[_ Hr]];
    [apply not_elem_of_nil|].
  apply lookup_singleton_Some in Hr as [_ <-]. apply not_elem_of_nil.
Qed.

Lemma flush_all_flushes_every_table_witness :
  exists ca' co' ex',
    SQLite.flush true two_tables
    = (Ok tt,
       SQLite.Build_SQLiteDict (writable 250) ca' co' "t" ex') /\
    co' !! "t" = Some [("a", dumps one)] /\
    co' !! SQLite._DEFAULT_TABLE = Some [("b", dumps two)] /\
    default ∅ (ca' !! "t") = ∅ /\
    default ∅ (ca' !! SQLite._DEFAULT_TABLE) = ∅.
Proof.
  destruct (SQLiteFacts.flush_all_flushes_every_table (H := codec)
              (writable 250) (SQLite.cache two_tables)
              (SQLite.conn two_tables) "t" [])
    as (ca' & co' & ex' & Hrun & Hin & _).
  - reflexivity.
  - reflexivity.
  - eexists. vm_compute. reflexivity.
  - intros t r k. apply two_tables_fresh.
  - destruct (Hin "t" []) as [Ht Hct]; [vm_compute; reflexivity|].
    destruct (Hin SQLite._DEFAULT_TABLE []) as [Hd Hcd];
      [vm_compute; reflexivity|].
    exists ca', co', ex'.
    split_and!; [exact Hrun | | | exact Hct | exact Hcd].
    + etransitivity; [exact Ht|]. vm_compute. reflexivity.
    + etransitivity; [exact Hd|]. vm_compute. reflexivity.
Defined.

Lemma drop_table_keeps_the_cache_witness :
  let s' := SQLite.Build_SQLiteDict (writable 250) (SQLite.cache two_tables)
              (delete "t" (SQLite.conn two_tables)) "t"
              [SQLite.DropTable "t"] in
  SQLite.drop_table (Some "t") two_tables = (Ok tt, s') /\
  (SQLite.__len__ s').1 = Raise OperationalError /\
  ((SQLite.set_table (Some "t") ;;
    SQLite.__getitem__ (SQLite.One (KStr "a"))) s').1
  = Ok (SQLite.Single (SQLite.Plain one)) /\
  SQLite.drop_table (Some SQLite._DEFAULT_TABLE) two_tables
  = (Raise ValueError, two_tables).
Proof.
  destruct (SQLiteFacts.drop_table_keeps_the_cache (H := codec)
              (writable 250) (SQLite.cache two_tables)
              (SQLite.conn two_tables) "t" [] "t" [])
    as (Hdrop & Hlen & Hget & Hdefault).
  - reflexivity.
  - reflexivity.
  - discriminate.
  - vm_compute. reflexivity.
  - split_and!; [exact Hdrop | apply Hlen; reflexivity | | exact Hdefault].
    apply Hget. vm_compute. reflexivity.
Defined.




Lemma sqlite_open_keeps_the_tables_witness :
  exists d,
    SQLite._restore_dict (readonly 250)
      (Some {["t" := [row_a]]}) = (Ok tt, d) /\
    SQLite.base d = readonly 250 /\ SQLite.cache d = ∅ /\
    SQLite.current_table d = SQLite._DEFAULT_TABLE /\
    SQLite.conn d !! SQLite._DEFAULT_TABLE = Some [] /\
    SQLite.conn d !! "t" = Some [row_a].
Proof.
  destruct (SQLiteFacts.sqlite_open_keeps_the_tables (H := codec)
              (readonly 250) (Some {["t" := [row_a]]}))
    as (d & Hrun & Hb & Hc & Hct & Hdef & Hframe).
  - reflexivity.
  - exists d. split_and!; [exact Hrun | exact Hb | exact Hc | exact Hct
                          | exact Hdef |].
    rewrite (Hframe "t") by discriminate. apply lookup_singleton_eq.
Defined.



Lemma items_unpacks_the_pending_values_witness :
  exists e, (Mmap.items unpack pending_ab).1 = Raise e.
Proof.
  destruct (MmapFacts.items_unpacks_the_pending_values (H := codec) unpack
              pending_ab _ _ _ [] pending_ab_wf) as (_ & Hraise & _).
  - rewrite map_to_list_empty. constructor.
  - apply Hraise. exists (KStr "a"), one, ValueError.
    split; [apply lookup_insert_eq | reflexivity].
Defined.

Lemma calls_a5a_fits :
  Mmap.fits
    (length (content (Mmap.file
       (Mmap.run_calls calls_a5a (Mmap.created (writable 250))).2))).
Proof. unfold Mmap.fits. vm_compute. lia. Qed.

Lemma store_answers_as_a_dictionary_witness :
  exists s',
    Mmap.run_calls calls_a5a (Mmap.created (writable 250)) = (Ok tt, s') /\
    (Mmap.__getitem__ (KStr "a") s').1 = Ok two /\
    (Mmap.__getitem__ (KStr "5") s').1 = Ok two /\
    (Mmap.__getitem__ (KStr "b") s').1 = Raise KeyError.
Proof.
  destruct (MmapFacts.store_answers_as_a_dictionary (H := codec)
              (writable 250) calls_a5a eq_refl eq_refl calls_a5a_fits)
    as (s' & _ & Hrun & Hin & Hout).
  exists s'. split_and!.
  - exact Hrun.
  - apply (Hin "a" two); [reflexivity | apply supported_any].
  - apply (Hin "5" two); [reflexivity | apply supported_any].
  - apply (Hout "b"). reflexivity.
Defined.

End Witnesses.
